(** * Zoom -> GoHighLevel bridge: the registration reconciliation engine

    A shallow embedding of the Express server of the repository (the
    handlers [app.post('/ghl-webhook')], [app.post('/zoom-webhook')],
    [handleRegistrationEvent] and the GHL helpers) together with the three
    Mongoose models it uses ([ZoomEvent], [Contact], [Settings]).

    Conventions of the embedding.
    - JSON scalars are values of [jsval]; numbers are integers (printed
      as decimal numerals, as JavaScript prints them below 10^21),
      strings are byte strings (trimming and lower-casing act on ASCII).
      Objects occur only where the code reads their fields, and are
      records; a field that is not there is [JUndefined].
    - An [async] function is a state-and-exception computation [M] over a
      [World]: the three collections, the calls made to the remote API so
      far, and what was written to [console.error] / [console.warn].
    - The remote API and the clock are the environment [Env]: the answer
      to a call is a function of the calls made before it and of the call;
      one handler run reads one time.
    - The collections behave as Mongoose and MongoDB make them under the
      schemas of the repository: values are cast to [String] paths, the
      setters of a path run on documents, updates and filters, [create]
      validates [required] paths, an upsert does not, and a unique index
      refuses a second document under one key (a missing value being the
      key [null]).  The models themselves never fail for lack of a
      connection; the event-source webhook is also given over any
      behaviour of the database ([OnStore]), where every call can
      reject.
    - Handlers run one after the other, except that the event-source
      webhook can be run with other requests' writes arriving while it
      waits for its ledger lookup ([zoom_webhook_at]).
    - [console.log] lines are not recorded, nor is the cleaned [phone],
      which the code only logs. *)

From Stdlib Require Import String Ascii List ZArith Bool Lia DecimalString.
Import ListNotations.
Local Open Scope string_scope.
Local Open Scope list_scope.

(* ------------------------------------------------------------------ *)
(** ** JavaScript scalars *)

Inductive jsval : Type :=
| JUndefined
| JNull
| JBool (b : bool)
| JNum (n : Z)
| JStr (s : string).

(** [!!v] *)
Definition truthy (v : jsval) : bool :=
  match v with
  | JUndefined | JNull => false
  | JBool b => b
  | JNum n => negb (Z.eqb n 0)
  | JStr s => negb (String.eqb s "")
  end.

(** [a || b] *)
Definition js_or (a b : jsval) : jsval := if truthy a then a else b.

(** [a === b] *)
Definition js_eqb (a b : jsval) : bool :=
  match a, b with
  | JUndefined, JUndefined => true
  | JNull, JNull => true
  | JBool x, JBool y => Bool.eqb x y
  | JNum x, JNum y => Z.eqb x y
  | JStr x, JStr y => String.eqb x y
  | _, _ => false
  end.

(** [String(v)], as a template literal applies it. *)
Definition toString (v : jsval) : string :=
  match v with
  | JUndefined => "undefined"
  | JNull => "null"
  | JBool true => "true"
  | JBool false => "false"
  | JNum n => NilZero.string_of_int (Z.to_int n)
  | JStr s => s
  end.

(** An optional string (a header, an environment variable, a stored path)
    read as a JavaScript value. *)
Definition of_opt (o : option string) : jsval :=
  match o with Some s => JStr s | None => JUndefined end.

Definition is_space (c : ascii) : bool :=
  let n := nat_of_ascii c in
  Nat.eqb n 32 || (Nat.leb 9 n && Nat.leb n 13).

Fixpoint trimStart (s : string) : string :=
  match s with
  | EmptyString => EmptyString
  | String c s' => if is_space c then trimStart s' else s
  end.

Fixpoint trimEnd (s : string) : string :=
  match s with
  | EmptyString => EmptyString
  | String c s' =>
      let t := trimEnd s' in
      if is_space c && String.eqb t "" then EmptyString else String c t
  end.

(** [s.trim()] *)
Definition trim (s : string) : string := trimEnd (trimStart s).

Definition lower_ascii (c : ascii) : ascii :=
  let n := nat_of_ascii c in
  if Nat.leb 65 n && Nat.leb n 90 then ascii_of_nat (n + 32) else c.

(** [s.toLowerCase()] *)
Fixpoint toLowerCase (s : string) : string :=
  match s with
  | EmptyString => EmptyString
  | String c s' => String (lower_ascii c) (toLowerCase s')
  end.

(* ------------------------------------------------------------------ *)
(** ** Dates, exceptions, remote calls *)

(** What the code reads of a [Date]: its UTC fields. *)
Record Date : Type := {
  getUTCFullYear : Z;
  getUTCMonth : Z;
  getUTCDate : Z;
  getUTCHours : Z;
  getUTCMinutes : Z;
  getUTCSeconds : Z
}.

(** [error.response] of an axios failure: the status and, of the body,
    [data.meta.contactId]. *)
Record AxiosResponse : Type := {
  ar_status : Z;
  ar_meta_contactId : jsval
}.

Inductive Exn : Type :=
| AxiosError (response : option AxiosResponse)
| TypeError
| ValidationError
| DuplicateKey
| MongoNetworkError.

(** [err.response?.status] *)
Definition response_status (e : Exn) : option Z :=
  match e with
  | AxiosError (Some r) => Some (ar_status r)
  | _ => None
  end.

(** [err.response?.status === code] *)
Definition status_is (e : Exn) (code : Z) : bool :=
  match response_status e with
  | Some s => Z.eqb s code
  | None => false
  end.

(** [err.response?.data?.meta?.contactId] *)
Definition response_meta_contactId (e : Exn) : jsval :=
  match e with
  | AxiosError (Some r) => ar_meta_contactId r
  | _ => JUndefined
  end.

(** The body [createGHLContact] posts. *)
Record CreatePayload : Type := {
  cp_email : jsval;
  cp_firstName : jsval;
  cp_lastName : jsval;
  cp_phone : jsval;
  cp_locationId : jsval;
  cp_source : string
}.

Inductive RemoteCall : Type :=
| GetContacts (query : jsval)
| PostContact (payload : CreatePayload)
| PostTags (contactId : string) (tags : list jsval)
| PostWorkflow (contactId : string) (workflowId : string) (eventStartTime : string).

(** What a call resolves to.  [AxOk c]: a 2xx answer; [c] is the [id] of
    the contact object the code picks out of the body ([data.contacts[0]]
    for the search, [data.contact] for the creation), [None] when the body
    has no such object.  [AxFail r]: axios rejects, with or without a
    response. *)
Inductive AxiosResult : Type :=
| AxOk (contact : option jsval)
| AxFail (response : option AxiosResponse).

(* ------------------------------------------------------------------ *)
(** ** The Mongoose models *)

(** Casting to a [String] path: [undefined] and [null] stay absent. *)
Definition castString (v : jsval) : option string :=
  match v with
  | JUndefined | JNull => None
  | _ => Some (toString v)
  end.

(** [required: true] on a [String] path: present and not empty. *)
Definition required_ok (v : jsval) : bool :=
  match castString v with
  | Some s => negb (String.eqb s "")
  | None => false
  end.

Definition opt_string_eqb (a b : option string) : bool :=
  match a, b with
  | Some x, Some y => String.eqb x y
  | None, None => true
  | _, _ => false
  end.

(** [$set] of one path of an update: an [undefined] value is left out of
    the update, [null] unsets, anything else is cast. *)
Definition set_path (old : option string) (v : jsval) : option string :=
  match v with
  | JUndefined => old
  | _ => castString v
  end.

Module ZoomEvent.

(** models/ZoomEvent.js *)
Record doc : Type := {
  eventId : string;
  eventType : string;
  email : option string;
  processedAt : Date
}.

(** [ZoomEvent.findOne({ eventId })] *)
Definition findOne (q : string) (coll : list doc) : option doc :=
  find (fun d => String.eqb (eventId d) q) coll.

(** [ZoomEvent.create({ eventId, eventType, email })]: the document is
    validated, then inserted under the unique index on [eventId]. *)
Definition create (id type mail : jsval) (now : Date) (coll : list doc)
  : Exn + list doc :=
  if negb (required_ok id && required_ok type) then inl ValidationError
  else if existsb (fun d => String.eqb (eventId d) (toString id)) coll
       then inl DuplicateKey
       else inr (coll ++ [ {| eventId := toString id;
                              eventType := toString type;
                              email := castString mail;
                              processedAt := now |} ]).

End ZoomEvent.

Module Settings.

Record doc : Type := {
  key : string;
  value : jsval;
  updatedAt : Date
}.

(** [Settings.findOne({ key })] *)
Definition findOne (k : string) (coll : list doc) : option doc :=
  find (fun d => String.eqb (key d) k) coll.

Fixpoint update_first (k : string) (v : jsval) (now : Date) (coll : list doc)
  : list doc :=
  match coll with
  | [] => []
  | d :: rest =>
      if String.eqb (key d) k
      then {| key := key d; value := v; updatedAt := now |} :: rest
      else d :: update_first k v now rest
  end.

(** [Settings.findOneAndUpdate({ key }, { value, updatedAt }, { upsert: true })] *)
Definition findOneAndUpdate (k : string) (v : jsval) (now : Date)
    (coll : list doc) : list doc :=
  match findOne k coll with
  | Some _ => update_first k v now coll
  | None => coll ++ [ {| key := k; value := v; updatedAt := now |} ]
  end.

End Settings.

Module Contact.

(** The Contact schema: [email] is unique, lower-cased and trimmed. *)
Record doc : Type := {
  _id : nat;
  email : option string;
  ghlContactId : option string;
  zoomRegistrantId : option string;
  firstName : option string;
  lastName : option string;
  phone : option string;
  locationId : option string;
  createdAt : Date;
  updatedAt : Date
}.

(** The setters [lowercase: true, trim: true] of the [email] path. *)
Definition emailSetter (s : string) : string := toLowerCase (trim s).

Definition castEmail (v : jsval) : option string :=
  option_map emailSetter (castString v).

Definition set_email (old : option string) (v : jsval) : option string :=
  match v with
  | JUndefined => old
  | _ => castEmail v
  end.

(** [Contact.findOne({ email })] *)
Definition findOne (q : string) (coll : list doc) : option doc :=
  find (fun d => opt_string_eqb (email d) (Some (emailSetter q))) coll.

Definition findByGhlContactId (q : string) (coll : list doc) : option doc :=
  find (fun d => opt_string_eqb (ghlContactId d) (Some q)) coll.

(** The unique index on [email] (declared without [sparse]): no other
    document may hold the same key, a missing email counting as the
    key [null]. *)
Definition email_taken (e : option string) (coll : list doc) : bool :=
  existsb (fun d => opt_string_eqb (email d) e) coll.

(** The documents other than the one being updated. *)
Definition others (self : nat) (coll : list doc) : list doc :=
  filter (fun d => negb (Nat.eqb (_id d) self)) coll.

(** [Contact.updateOne({ _id }, { ghlContactId })] *)
Definition updateOne (id : nat) (ghl : jsval) (coll : list doc) : list doc :=
  map (fun d =>
         if Nat.eqb (_id d) id
         then {| _id := _id d; email := email d;
                 ghlContactId := set_path (ghlContactId d) ghl;
                 zoomRegistrantId := zoomRegistrantId d;
                 firstName := firstName d; lastName := lastName d;
                 phone := phone d; locationId := locationId d;
                 createdAt := createdAt d; updatedAt := updatedAt d |}
         else d) coll.

(** [Contact.create({ email, ghlContactId, firstName, lastName, phone,
    locationId })].  The [required] test is written on the values
    given; Mongoose runs it on the document, after the setters.  On the
    e-mails [handleRegistrationEvent] passes, which are cleaned, the two
    are the same test ([create_validates_cleaned]). *)
Definition create (fresh : nat) (mail ghl first last ph loc : jsval)
    (now : Date) (coll : list doc) : Exn + (doc * list doc) :=
  if negb (required_ok mail && required_ok ghl) then inl ValidationError
  else
    let d := {| _id := fresh; email := castEmail mail;
                ghlContactId := castString ghl;
                zoomRegistrantId := None;
                firstName := castString first; lastName := castString last;
                phone := castString ph; locationId := castString loc;
                createdAt := now; updatedAt := now |} in
    if email_taken (email d) coll then inl DuplicateKey
    else inr (d, coll ++ [d]).

(** The update document of the configuration intake. *)
Record update : Type := {
  u_ghlContactId : jsval;
  u_email : jsval;
  u_phone : jsval;
  u_firstName : jsval;
  u_lastName : jsval;
  u_locationId : jsval;
  u_updatedAt : Date
}.

Definition apply_update (u : update) (d : doc) : doc :=
  {| _id := _id d;
     email := set_email (email d) (u_email u);
     ghlContactId := set_path (ghlContactId d) (u_ghlContactId u);
     zoomRegistrantId := zoomRegistrantId d;
     firstName := set_path (firstName d) (u_firstName u);
     lastName := set_path (lastName d) (u_lastName u);
     phone := set_path (phone d) (u_phone u);
     locationId := set_path (locationId d) (u_locationId u);
     createdAt := createdAt d;
     updatedAt := u_updatedAt u |}.

Inductive filter : Type :=
| ByGhlContactId (q : string)
| ByEmail (q : string).

Definition find_by (f : filter) (coll : list doc) : option doc :=
  match f with
  | ByGhlContactId q => findByGhlContactId q coll
  | ByEmail q => findOne q coll
  end.

(** The document an upsert starts from when nothing matches: the
    equality of the filter, and the schema defaults. *)
Definition seed (fresh : nat) (f : filter) (now : Date) : doc :=
  {| _id := fresh;
     email := match f with ByEmail q => Some (emailSetter q) | _ => None end;
     ghlContactId := match f with ByGhlContactId q => Some q | _ => None end;
     zoomRegistrantId := None;
     firstName := None; lastName := None; phone := None; locationId := None;
     createdAt := now; updatedAt := now |}.

Definition replace (d' : doc) (coll : list doc) : list doc :=
  map (fun d => if Nat.eqb (_id d) (_id d') then d' else d) coll.

(** [Contact.findOneAndUpdate(filter, update, { new: true, upsert: true })] *)
Definition findOneAndUpdate (fresh : nat) (f : filter) (u : update)
    (now : Date) (coll : list doc) : Exn + (doc * list doc) :=
  match find_by f coll with
  | Some d =>
      let d' := apply_update u d in
      if email_taken (email d') (others (_id d) coll) then inl DuplicateKey
      else inr (d', replace d' coll)
  | None =>
      let d' := apply_update u (seed fresh f now) in
      if email_taken (email d') coll then inl DuplicateKey
      else inr (d', coll ++ [d'])
  end.

End Contact.

(* ------------------------------------------------------------------ *)
(** ** Requests *)

(** [payload.object.registrant] *)
Record Registrant : Type := {
  r_email : jsval;
  r_phone : jsval;
  r_first_name : jsval;
  r_last_name : jsval
}.

(** [payload.object] *)
Record ZoomObject : Type := {
  o_id : jsval;
  o_uuid : jsval;
  o_email : jsval;
  o_phone : jsval;
  o_first_name : jsval;
  o_last_name : jsval;
  o_registrant : option Registrant
}.

Record ZoomPayload : Type := {
  plainToken : jsval;
  object : option ZoomObject
}.

(** [req.body] of the event-source webhook *)
Record ZoomBody : Type := {
  event : jsval;
  payload : option ZoomPayload
}.

Record ZoomRequest : Type := {
  x_zm_signature : option string;
  x_zm_request_timestamp : option string;
  zoom_body : ZoomBody
}.

(** The fields the configuration webhook destructures. *)
Record GhlFields : Type := {
  g_contactId : jsval;
  g_email : jsval;
  g_phone : jsval;
  g_firstName : jsval;
  g_lastName : jsval;
  g_locationId : jsval;
  g_zoom_tag : jsval
}.

(** [req.body] of the configuration webhook: flat, or under [customData]. *)
Record GhlBody : Type := {
  customData : option GhlFields;
  flat : GhlFields
}.

Inductive ResBody : Type :=
| ErrorBody (error : string)
| MessageBody (message : string)
| ChallengeBody (plainToken encryptedToken : string).

Record Response : Type := {
  status : Z;
  body : ResBody
}.

(* ------------------------------------------------------------------ *)
(** ** Environment and world *)

Record ProcessEnv : Type := {
  ZOOM_SECRET_TOKEN : option string;
  VERIFY_ZOOM_SIGNATURE : option string;
  GHL_LOCATION_ID : option string;
  GHL_WORKFLOW_ID : option string
}.

Record Env : Type := {
  process_env : ProcessEnv;
  now : Date;
  ghl : list RemoteCall -> RemoteCall -> AxiosResult;
  hmac_sha256_hex : string -> string -> string;
  JSON_stringify : ZoomBody -> string
}.

Inductive LogLine : Type :=
| ConsoleError (msg : string)
| ConsoleWarn (msg : string).

Record World : Type := {
  zoomEvents : list ZoomEvent.doc;
  contacts : list Contact.doc;
  settings : list Settings.doc;
  next_id : nat;
  remote : list RemoteCall;
  console : list LogLine
}.

Definition with_zoomEvents (l : list ZoomEvent.doc) (w : World) : World :=
  {| zoomEvents := l; contacts := contacts w; settings := settings w;
     next_id := next_id w; remote := remote w; console := console w |}.

Definition with_contacts (l : list Contact.doc) (n : nat) (w : World) : World :=
  {| zoomEvents := zoomEvents w; contacts := l; settings := settings w;
     next_id := n; remote := remote w; console := console w |}.

Definition with_settings (l : list Settings.doc) (w : World) : World :=
  {| zoomEvents := zoomEvents w; contacts := contacts w; settings := l;
     next_id := next_id w; remote := remote w; console := console w |}.

Definition with_remote (l : list RemoteCall) (w : World) : World :=
  {| zoomEvents := zoomEvents w; contacts := contacts w; settings := settings w;
     next_id := next_id w; remote := l; console := console w |}.

Definition with_console (l : list LogLine) (w : World) : World :=
  {| zoomEvents := zoomEvents w; contacts := contacts w; settings := settings w;
     next_id := next_id w; remote := remote w; console := l |}.

(* ------------------------------------------------------------------ *)
(** ** Asynchronous computations *)

Inductive Outcome (A : Type) : Type :=
| Ok (a : A)
| Throw (e : Exn).
Arguments Ok {A} a.
Arguments Throw {A} e.

Definition M (A : Type) : Type := World -> Outcome A * World.

Definition ret {A : Type} (a : A) : M A := fun w => (Ok a, w).

Definition throw {A : Type} (e : Exn) : M A := fun w => (Throw e, w).

Definition bind {A B : Type} (m : M A) (k : A -> M B) : M B :=
  fun w =>
    match m w with
    | (Ok a, w') => k a w'
    | (Throw e, w') => (Throw e, w')
    end.

(** [try { m } catch (e) { h e }] *)
Definition try_catch {A : Type} (m : M A) (h : Exn -> M A) : M A :=
  fun w =>
    match m w with
    | (Ok a, w') => (Ok a, w')
    | (Throw e, w') => h e w'
    end.

Declare Scope async_scope.
Delimit Scope async_scope with async.
Notation "x <- m ;; k" := (bind m (fun x => k))
  (at level 61, m at next level, right associativity) : async_scope.
Notation "m ;; k" := (bind m (fun _ => k))
  (at level 61, right associativity) : async_scope.
Local Open Scope async_scope.

(** What runs while a handler is suspended at an [await]: the other
    requests' steps, as a change of the world. *)
Definition meanwhile (others : World -> World) : M unit :=
  fun w => (Ok tt, others w).

Definition console_error (msg : string) : M unit :=
  fun w => (Ok tt, with_console (console w ++ [ConsoleError msg]) w).

Definition console_warn (msg : string) : M unit :=
  fun w => (Ok tt, with_console (console w ++ [ConsoleWarn msg]) w).

Definition ZoomEvent_findOne (q : string) : M (option ZoomEvent.doc) :=
  fun w => (Ok (ZoomEvent.findOne q (zoomEvents w)), w).

Definition ZoomEvent_create (env : Env) (id type mail : jsval) : M unit :=
  fun w =>
    match ZoomEvent.create id type mail (now env) (zoomEvents w) with
    | inl e => (Throw e, w)
    | inr l => (Ok tt, with_zoomEvents l w)
    end.

Definition Settings_findOne (k : string) : M (option Settings.doc) :=
  fun w => (Ok (Settings.findOne k (settings w)), w).

Definition Settings_findOneAndUpdate (env : Env) (k : string) (v : jsval)
  : M unit :=
  fun w =>
    (Ok tt, with_settings (Settings.findOneAndUpdate k v (now env) (settings w)) w).

Definition Contact_findOne (q : string) : M (option Contact.doc) :=
  fun w => (Ok (Contact.findOne q (contacts w)), w).

Definition Contact_updateOne (id : nat) (ghlId : jsval) : M unit :=
  fun w =>
    (Ok tt, with_contacts (Contact.updateOne id ghlId (contacts w)) (next_id w) w).

Definition Contact_create (env : Env) (mail ghlId first last ph loc : jsval)
  : M Contact.doc :=
  fun w =>
    match Contact.create (next_id w) mail ghlId first last ph loc (now env)
            (contacts w) with
    | inl e => (Throw e, w)
    | inr (d, l) => (Ok d, with_contacts l (S (next_id w)) w)
    end.

Definition Contact_findOneAndUpdate (env : Env) (f : Contact.filter)
    (u : Contact.update) : M Contact.doc :=
  fun w =>
    match Contact.findOneAndUpdate (next_id w) f u (now env) (contacts w) with
    | inl e => (Throw e, w)
    | inr (d, l) => (Ok d, with_contacts l (S (next_id w)) w)
    end.

(** A request through [ghlAxios]: the call is recorded, the environment
    answers, a failure rejects. *)
Definition ghlAxios (env : Env) (c : RemoteCall) : M (option jsval) :=
  fun w =>
    let w' := with_remote (remote w ++ [c]) w in
    match ghl env (remote w) c with
    | AxOk contact => (Ok contact, w')
    | AxFail r => (Throw (AxiosError r), w')
    end.

(* ------------------------------------------------------------------ *)
(** ** GHL API helpers *)

(** [searchGHLContact(email)]: the first contact of the answer or [null];
    a 404 is [null], any other failure is thrown again. *)
Definition searchGHLContact (env : Env) (email : jsval) : M (option jsval) :=
  try_catch (ghlAxios env (GetContacts email))
    (fun error => if status_is error 404 then ret None else throw error).

(** [createGHLContact(registrant)]: [response.data.contact]. *)
Definition createGHLContact (env : Env) (registrant : Registrant)
  : M (option jsval) :=
  let payload :=
    {| cp_email := r_email registrant;
       cp_firstName := r_first_name registrant;
       cp_lastName := r_last_name registrant;
       cp_phone := r_phone registrant;
       cp_locationId := of_opt (GHL_LOCATION_ID (process_env env));
       cp_source := "Zoom Integration" |} in
  try_catch (ghlAxios env (PostContact payload))
    (fun error => console_error "GHL Create Error:" ;; throw error).

(** [addGHLTags(contactId, tags)] *)
Definition addGHLTags (env : Env) (contactId : jsval) (tags : list jsval)
  : M unit :=
  try_catch (ghlAxios env (PostTags (toString contactId) tags) ;; ret tt)
    (fun error => console_error "GHL Tag Error:" ;; throw error).

(** [pad] of [addContactToWorkflow]: [n < 10 ? '0' + n : n] *)
Definition pad (n : Z) : jsval :=
  if (n <? 10)%Z then JStr ("0" ++ toString (JNum n))%string else JNum n.

(** The template literal that builds [eventStartTime]. *)
Definition eventStartTime (d : Date) : string :=
  let yyyy := JNum (getUTCFullYear d) in
  let MM := pad (getUTCMonth d + 1) in
  let dd := pad (getUTCDate d) in
  let HH := pad (getUTCHours d) in
  let mm := pad (getUTCMinutes d) in
  let ss := pad (getUTCSeconds d) in
  (toString yyyy ++ "-" ++ toString MM ++ "-" ++ toString dd ++ "T"
     ++ toString HH ++ ":" ++ toString mm ++ ":" ++ toString ss
     ++ "+00:00")%string.

(** [addContactToWorkflow(contactId, workflowId)] *)
Definition addContactToWorkflow (env : Env) (contactId : jsval)
    (workflowId : string) : M unit :=
  try_catch
    (ghlAxios env (PostWorkflow (toString contactId) workflowId
                     (eventStartTime (now env))) ;; ret tt)
    (fun error => console_error "GHL Workflow Error:" ;; throw error).

(* ------------------------------------------------------------------ *)
(** ** handleRegistrationEvent *)

(** [objectData.registrant || objectData] *)
Definition registrant_of (objectData : ZoomObject) : Registrant :=
  match o_registrant objectData with
  | Some r => r
  | None => {| r_email := o_email objectData; r_phone := o_phone objectData;
               r_first_name := o_first_name objectData;
               r_last_name := o_last_name objectData |}
  end.

(** "Validate and Clean Inputs": [registrant.email || ''], trimmed and
    lower-cased when it is a string. *)
Definition clean_email (v : jsval) : jsval :=
  match js_or v (JStr "") with
  | JStr s => JStr (toLowerCase (trim s))
  | email => email
  end.

(** [contact?.ghlContactId] *)
Definition contact_ghlContactId (contact : option Contact.doc) : jsval :=
  match contact with
  | Some c => of_opt (Contact.ghlContactId c)
  | None => JUndefined
  end.

(** [!contact || !contact.ghlContactId] *)
Definition id_missing_locally (contact : option Contact.doc) : bool :=
  negb (truthy (contact_ghlContactId contact)).

(** Step 2, the search and its [catch]: a failure is logged (a 403 with
    a second line) and leaves [ghlContact] at [null]. *)
Definition search_step (env : Env) (email : jsval) : M (option jsval) :=
  try_catch (searchGHLContact env email)
    (fun err =>
       console_error "Critical GHL Search Error:" ;;
       (if status_is err 403 then console_error "PERMISSION DENIED" else ret tt) ;;
       ret None).

(** Step 3, the creation and its [catch]: [Some id] is the new value of
    [ghlContactId], [None] the [return] of the unresolved case. *)
Definition create_step (env : Env) (registrant : Registrant)
  : M (option jsval) :=
  try_catch
    (newContact <- createGHLContact env registrant ;;
     match newContact with
     | Some id => ret (Some id)
     | None => throw TypeError
     end)
    (fun createErr =>
       console_error "Failed to create GHL Contact:" ;;
       if status_is createErr 400 && truthy (response_meta_contactId createErr)
       then ret (Some (response_meta_contactId createErr))
       else console_error "Could not resolve GHL Contact ID. Skipping tagging." ;;
            ret None).

(** Step 4, "Save/Update to DB (only if we have an ID)". *)
Definition save_step (env : Env) (registrant : Registrant) (email : jsval)
    (contact : option Contact.doc) (ghlContactId : jsval) : M unit :=
  if truthy ghlContactId then
    match contact with
    | Some c => Contact_updateOne (Contact._id c) ghlContactId
    | None =>
        Contact_create env email ghlContactId
          (r_first_name registrant) (r_last_name registrant)
          (r_phone registrant)
          (of_opt (GHL_LOCATION_ID (process_env env))) ;;
        ret tt
    end
  else ret tt.

(** Steps 2 to 4, the body of [if (!contact || !contact.ghlContactId)].
    [None] is the [return] of the unresolved case; [Some id] is
    [ghlContactId] after the block. *)
Definition resolve_remotely (env : Env) (registrant : Registrant)
    (email : jsval) (contact : option Contact.doc) : M (option jsval) :=
  ghlContact <- search_step env email ;;
  found <-
    match ghlContact with
    | Some id => ret (Some id)
    | None => create_step env registrant
    end ;;
  match found with
  | None => ret None
  | Some ghlContactId =>
      save_step env registrant email contact ghlContactId ;;
      ret (Some ghlContactId)
  end.

(** Steps 1 to 4: the local lookup, then the remote chain unless the local
    record carries an id.  [Some id] is [ghlContactId] on entering step 5. *)
Definition resolve_contact (env : Env) (registrant : Registrant)
    (email : jsval) : M (option jsval) :=
  contact <- Contact_findOne (toString email) ;;
  if id_missing_locally contact
  then resolve_remotely env registrant email contact
  else ret (Some (contact_ghlContactId contact)).

(** Steps 5 to 7: read the global tag, add the tags, trigger the workflow. *)
Definition propagate (env : Env) (ghlContactId : jsval) : M unit :=
  globalTagSetting <- Settings_findOne "globalZoomTag" ;;
  let globalTag :=
    js_or (match globalTagSetting with
           | Some s => Settings.value s
           | None => JUndefined
           end) (JStr "Zoom Registration") in
  let tags := [globalTag; JStr "zoom registered"] in
  addGHLTags env ghlContactId tags ;;
  match GHL_WORKFLOW_ID (process_env env) with
  | Some workflowId =>
      if truthy (JStr workflowId) then
        try_catch (addContactToWorkflow env ghlContactId workflowId)
          (fun wfError => console_error "Workflow Trigger Failed:")
      else ret tt
  | None => ret tt
  end.

Definition handleRegistrationEvent (env : Env) (payload : option ZoomPayload)
    (eventType : jsval) : M unit :=
  match match payload with Some p => object p | None => None end with
  | None => ret tt
  | Some objectData =>
      let registrant := registrant_of objectData in
      let email := clean_email (r_email registrant) in
      if negb (truthy email)
      then console_warn "Skipping registration: Missing Email"
      else
        try_catch
          (resolved <- resolve_contact env registrant email ;;
           match resolved with
           | None => ret tt
           | Some ghlContactId => propagate env ghlContactId
           end)
          (fun error => console_error "Error in handleRegistrationEvent:")
  end.

(* ------------------------------------------------------------------ *)
(** ** The two webhooks *)

(** A handler: its [try] block, and the [catch] that answers 500. *)
Definition respond (m : M Response) (msg : string) (w : World)
  : Response * World :=
  match m w with
  | (Ok r, w') => (r, w')
  | (Throw e, w') =>
      ({| status := 500; body := ErrorBody "Internal server error" |},
       with_console (console w' ++ [ConsoleError msg]) w')
  end.

(** "Sanitize email": a blank string becomes [undefined]. *)
Definition sanitize_email (email : jsval) : jsval :=
  match email with
  | JStr s => if String.eqb (trim s) "" then JUndefined else email
  | _ => email
  end.

(** The filter of the contact upsert: by [contactId] when there is one,
    else by [email]. *)
Definition upsert_filter (contactId email : jsval) : Contact.filter :=
  if truthy contactId
  then Contact.ByGhlContactId (toString contactId)
  else Contact.ByEmail (toString email).

(** The [try] block of [app.post('/ghl-webhook')]. *)
Definition ghl_webhook_try (env : Env) (data : GhlBody) : M Response :=
    (let payload := match customData data with Some p => p | None => flat data end in
     let contactId := g_contactId payload in
     let email := sanitize_email (g_email payload) in
     let zoom_tag := g_zoom_tag payload in
     if negb (truthy email) && negb (truthy contactId) then
       console_warn "GHL Webhook missing email or contactId" ;;
       ret {| status := 400; body := ErrorBody "Missing email or contactId" |}
     else
       (if truthy zoom_tag then
          currentSetting <- Settings_findOne "globalZoomTag" ;;
          if match currentSetting with
             | None => true
             | Some s => negb (js_eqb (Settings.value s) zoom_tag)
             end
          then Settings_findOneAndUpdate env "globalZoomTag" zoom_tag
          else ret tt
        else ret tt) ;;
       let update :=
         {| Contact.u_ghlContactId := contactId;
            Contact.u_email := email;
            Contact.u_phone := g_phone payload;
            Contact.u_firstName := g_firstName payload;
            Contact.u_lastName := g_lastName payload;
            Contact.u_locationId :=
              js_or (g_locationId payload)
                    (of_opt (GHL_LOCATION_ID (process_env env)));
            Contact.u_updatedAt := now env |} in
       Contact_findOneAndUpdate env (upsert_filter contactId email) update ;;
       ret {| status := 200; body := MessageBody "Contact synced" |}).

Definition ghl_webhook (env : Env) (data : GhlBody) : World -> Response * World :=
  respond (ghl_webhook_try env data) "Error processing GHL webhook:".

(** [verifyZoomSignature(req)] *)
Definition verifyZoomSignature (env : Env) (req : ZoomRequest) : bool :=
  match x_zm_signature req, x_zm_request_timestamp req,
        ZOOM_SECRET_TOKEN (process_env env) with
  | Some signature, Some timestamp, Some zoomSecretToken =>
      if negb (truthy (JStr signature)) || negb (truthy (JStr timestamp))
         || negb (truthy (JStr zoomSecretToken))
      then false
      else
        let message :=
          ("v0:" ++ timestamp ++ ":" ++ JSON_stringify env (zoom_body req))%string in
        let hash := hmac_sha256_hex env zoomSecretToken message in
        String.eqb signature ("v0=" ++ hash)%string
  | _, _, _ => false
  end.

(** [payload?.object?.f] *)
Definition object_field (f : ZoomObject -> jsval) (payload : option ZoomPayload)
  : jsval :=
  match payload with
  | Some p => match object p with Some o => f o | None => JUndefined end
  | None => JUndefined
  end.

(** [payload?.object?.registrant?.email || payload?.object?.email] *)
Definition registrantEmail_of (payload : option ZoomPayload) : jsval :=
  js_or (object_field (fun o => match o_registrant o with
                                | Some r => r_email r
                                | None => JUndefined
                                end) payload)
        (object_field o_email payload).

(** The "Idempotency Check" derivation of [eventId]. *)
Definition deriveEventId (req : ZoomRequest) : jsval :=
  let event := event (zoom_body req) in
  let payload := payload (zoom_body req) in
  let eventId := of_opt (x_zm_request_timestamp req) in
  let meetingId := object_field o_id payload in
  let registrantEmail := registrantEmail_of payload in
  if truthy meetingId && truthy registrantEmail then
    JStr (toString meetingId ++ "_" ++ toString registrantEmail ++ "_"
            ++ toString event)%string
  else if truthy (object_field o_uuid payload) then object_field o_uuid payload
  else eventId.

Definition is_registration (event : jsval) : bool :=
  js_eqb event (JStr "webinar.registration_created")
  || js_eqb event (JStr "meeting.registration_created").

Definition duplicate_response : Response :=
  {| status := 200; body := MessageBody "Duplicate event" |}.

Definition received_response : Response :=
  {| status := 200; body := MessageBody "Webhook received" |}.

(** The [try] block of [app.post('/zoom-webhook')].  The handler is
    suspended at each [await]; [between] is what the other requests being
    served do to the world while this one waits for the answer of
    [ZoomEvent.findOne]. *)
Definition zoom_webhook_try (between : World -> World) (env : Env)
    (req : ZoomRequest) : M Response :=
    (let event := event (zoom_body req) in
     let payload := payload (zoom_body req) in
     if js_eqb event (JStr "endpoint.url_validation") then
       let plainToken :=
         match payload with Some p => plainToken p | None => JUndefined end in
       let zoomSecretToken := of_opt (ZOOM_SECRET_TOKEN (process_env env)) in
       if negb (truthy plainToken) || negb (truthy zoomSecretToken) then
         ret {| status := 400; body := ErrorBody "Missing token or configuration" |}
       else
         match plainToken with
         | JStr token =>
             let encryptedToken :=
               hmac_sha256_hex env (toString zoomSecretToken) token in
             ret {| status := 200; body := ChallengeBody token encryptedToken |}
         | _ => throw TypeError
         end
     else if js_eqb (of_opt (VERIFY_ZOOM_SIGNATURE (process_env env))) (JStr "true")
             && negb (verifyZoomSignature env req) then
       console_error "Invalid Zoom signature" ;;
       ret {| status := 401; body := ErrorBody "Invalid signature" |}
     else
       let eventId := deriveEventId req in
       let registrantEmail := registrantEmail_of payload in
       duplicate <-
         (if truthy eventId then
            existingEvent <- ZoomEvent_findOne (toString eventId) ;;
            meanwhile between ;;
            match existingEvent with
            | Some _ => ret true
            | None =>
                ZoomEvent_create env eventId event registrantEmail ;;
                ret false
            end
          else ret false) ;;
       if duplicate : bool then ret duplicate_response
       else
         (if is_registration event
          then handleRegistrationEvent env payload event
          else ret tt) ;;
         ret received_response).

Definition zoom_webhook_at (between : World -> World) (env : Env)
    (req : ZoomRequest) : World -> Response * World :=
  respond (zoom_webhook_try between env req) "Error processing webhook:".

(** The handler with nothing else running. *)
Definition zoom_webhook : Env -> ZoomRequest -> World -> Response * World :=
  zoom_webhook_at (fun w => w).

(* ------------------------------------------------------------------ *)
(** ** The earlier version of the server

    The second document of the server file is the version before the
    "CRITICAL FIX" of the identity and before the search started to
    throw.  Two of its pieces differ from the current ones in a way that
    can be compared. *)

Module Legacy.

(** [payload?.object?.uuid || req.headers['x-zm-request-timestamp']] *)
Definition deriveEventId (req : ZoomRequest) : jsval :=
  js_or (object_field o_uuid (payload (zoom_body req)))
        (of_opt (x_zm_request_timestamp req)).

(** The "Idempotency Check" block: [true] when the handler answers
    "Duplicate event". *)
Definition idempotency_check (env : Env) (req : ZoomRequest) : M bool :=
  let eventId := deriveEventId req in
  let registrantEmail := registrantEmail_of (payload (zoom_body req)) in
  if truthy eventId then
    existingEvent <- ZoomEvent_findOne (toString eventId) ;;
    match existingEvent with
    | Some _ => ret true
    | None =>
        ZoomEvent_create env eventId (event (zoom_body req)) registrantEmail ;;
        ret false
    end
  else ret false.

(** [searchGHLContact(email)]: every failure is logged and answered
    with [null]. *)
Definition searchGHLContact (env : Env) (email : jsval) : M (option jsval) :=
  try_catch (ghlAxios env (GetContacts email))
    (fun error => console_error "GHL Search Error:" ;; ret None).

End Legacy.

(* ------------------------------------------------------------------ *)
(** ** The event-source webhook over any behaviour of the database

    The Mongoose calls of [app.post('/zoom-webhook')] and of
    [handleRegistrationEvent] taken as parameters, so that a call can
    reject (the database cannot be reached, a write is refused).  With
    the operations of the models above for parameters, these are the
    definitions above. *)

Record Store : Type := {
  db_ZoomEvent_findOne : string -> M (option ZoomEvent.doc);
  db_ZoomEvent_create : jsval -> jsval -> jsval -> M unit;
  db_Settings_findOne : string -> M (option Settings.doc);
  db_Contact_findOne : string -> M (option Contact.doc);
  db_Contact_updateOne : nat -> jsval -> M unit;
  db_Contact_create :
    jsval -> jsval -> jsval -> jsval -> jsval -> jsval -> M Contact.doc
}.

(** The database as the models above make it behave. *)
Definition mongoose (env : Env) : Store :=
  {| db_ZoomEvent_findOne := ZoomEvent_findOne;
     db_ZoomEvent_create := ZoomEvent_create env;
     db_Settings_findOne := Settings_findOne;
     db_Contact_findOne := Contact_findOne;
     db_Contact_updateOne := Contact_updateOne;
     db_Contact_create := Contact_create env |}.

Module OnStore.

Section Handlers.

Variable db : Store.

Definition save_step (env : Env) (registrant : Registrant) (email : jsval)
    (contact : option Contact.doc) (ghlContactId : jsval) : M unit :=
  if truthy ghlContactId then
    match contact with
    | Some c => db_Contact_updateOne db (Contact._id c) ghlContactId
    | None =>
        db_Contact_create db email ghlContactId
          (r_first_name registrant) (r_last_name registrant)
          (r_phone registrant)
          (of_opt (GHL_LOCATION_ID (process_env env))) ;;
        ret tt
    end
  else ret tt.

Definition resolve_remotely (env : Env) (registrant : Registrant)
    (email : jsval) (contact : option Contact.doc) : M (option jsval) :=
  ghlContact <- search_step env email ;;
  found <-
    match ghlContact with
    | Some id => ret (Some id)
    | None => create_step env registrant
    end ;;
  match found with
  | None => ret None
  | Some ghlContactId =>
      save_step env registrant email contact ghlContactId ;;
      ret (Some ghlContactId)
  end.

Definition resolve_contact (env : Env) (registrant : Registrant)
    (email : jsval) : M (option jsval) :=
  contact <- db_Contact_findOne db (toString email) ;;
  if id_missing_locally contact
  then resolve_remotely env registrant email contact
  else ret (Some (contact_ghlContactId contact)).

Definition propagate (env : Env) (ghlContactId : jsval) : M unit :=
  globalTagSetting <- db_Settings_findOne db "globalZoomTag" ;;
  let globalTag :=
    js_or (match globalTagSetting with
           | Some s => Settings.value s
           | None => JUndefined
           end) (JStr "Zoom Registration") in
  let tags := [globalTag; JStr "zoom registered"] in
  addGHLTags env ghlContactId tags ;;
  match GHL_WORKFLOW_ID (process_env env) with
  | Some workflowId =>
      if truthy (JStr workflowId) then
        try_catch (addContactToWorkflow env ghlContactId workflowId)
          (fun wfError => console_error "Workflow Trigger Failed:")
      else ret tt
  | None => ret tt
  end.

Definition handleRegistrationEvent (env : Env) (payload : option ZoomPayload)
    (eventType : jsval) : M unit :=
  match match payload with Some p => object p | None => None end with
  | None => ret tt
  | Some objectData =>
      let registrant := registrant_of objectData in
      let email := clean_email (r_email registrant) in
      if negb (truthy email)
      then console_warn "Skipping registration: Missing Email"
      else
        try_catch
          (resolved <- resolve_contact env registrant email ;;
           match resolved with
           | None => ret tt
           | Some ghlContactId => propagate env ghlContactId
           end)
          (fun error => console_error "Error in handleRegistrationEvent:")
  end.

Definition zoom_webhook_try (between : World -> World) (env : Env)
    (req : ZoomRequest) : M Response :=
    (let event := event (zoom_body req) in
     let payload := payload (zoom_body req) in
     if js_eqb event (JStr "endpoint.url_validation") then
       let plainToken :=
         match payload with Some p => plainToken p | None => JUndefined end in
       let zoomSecretToken := of_opt (ZOOM_SECRET_TOKEN (process_env env)) in
       if negb (truthy plainToken) || negb (truthy zoomSecretToken) then
         ret {| status := 400; body := ErrorBody "Missing token or configuration" |}
       else
         match plainToken with
         | JStr token =>
             let encryptedToken :=
               hmac_sha256_hex env (toString zoomSecretToken) token in
             ret {| status := 200; body := ChallengeBody token encryptedToken |}
         | _ => throw TypeError
         end
     else if js_eqb (of_opt (VERIFY_ZOOM_SIGNATURE (process_env env))) (JStr "true")
             && negb (verifyZoomSignature env req) then
       console_error "Invalid Zoom signature" ;;
       ret {| status := 401; body := ErrorBody "Invalid signature" |}
     else
       let eventId := deriveEventId req in
       let registrantEmail := registrantEmail_of payload in
       duplicate <-
         (if truthy eventId then
            existingEvent <- db_ZoomEvent_findOne db (toString eventId) ;;
            meanwhile between ;;
            match existingEvent with
            | Some _ => ret true
            | None =>
                db_ZoomEvent_create db eventId event registrantEmail ;;
                ret false
            end
          else ret false) ;;
       if duplicate : bool then ret duplicate_response
       else
         (if is_registration event
          then handleRegistrationEvent env payload event
          else ret tt) ;;
         ret received_response).

Definition zoom_webhook_at (between : World -> World) (env : Env)
    (req : ZoomRequest) : World -> Response * World :=
  respond (zoom_webhook_try between env req) "Error processing webhook:".

(** The "Idempotency Check" of the handler: [true] when it answers
    "Duplicate event". *)
Definition ledger_step (between : World -> World) (req : ZoomRequest) : M bool :=
  if truthy (deriveEventId req) then
    existingEvent <- db_ZoomEvent_findOne db (toString (deriveEventId req)) ;;
    meanwhile between ;;
    match existingEvent with
    | Some _ => ret true
    | None =>
        db_ZoomEvent_create db (deriveEventId req) (event (zoom_body req))
          (registrantEmail_of (payload (zoom_body req))) ;;
        ret false
    end
  else ret false.

(** "Process registration" and the answer that follows it. *)
Definition process_step (env : Env) (req : ZoomRequest) : M Response :=
  (if is_registration (event (zoom_body req))
   then handleRegistrationEvent env (payload (zoom_body req))
          (event (zoom_body req))
   else ret tt) ;;
  ret received_response.

End Handlers.

End OnStore.

(** The database cannot be reached: every call rejects. *)
Definition unreachable : Store :=
  {| db_ZoomEvent_findOne := fun _ => throw MongoNetworkError;
     db_ZoomEvent_create := fun _ _ _ => throw MongoNetworkError;
     db_Settings_findOne := fun _ => throw MongoNetworkError;
     db_Contact_findOne := fun _ => throw MongoNetworkError;
     db_Contact_updateOne := fun _ _ => throw MongoNetworkError;
     db_Contact_create := fun _ _ _ _ _ _ => throw MongoNetworkError |}.

(** The connection is lost once the ledger entry is written: the calls
    of [handleRegistrationEvent] reject. *)
Definition lost_after_ledger (env : Env) : Store :=
  {| db_ZoomEvent_findOne := ZoomEvent_findOne;
     db_ZoomEvent_create := ZoomEvent_create env;
     db_Settings_findOne := fun _ => throw MongoNetworkError;
     db_Contact_findOne := fun _ => throw MongoNetworkError;
     db_Contact_updateOne := fun _ _ => throw MongoNetworkError;
     db_Contact_create := fun _ _ _ _ _ _ => throw MongoNetworkError |}.

(* ------------------------------------------------------------------ *)
(** ** Vocabulary of the properties *)

(** The parent (meeting) id and the registrant e-mail of a notification. *)
Definition meetingId_of (req : ZoomRequest) : jsval :=
  object_field o_id (payload (zoom_body req)).

Definition registrantEmail (req : ZoomRequest) : jsval :=
  registrantEmail_of (payload (zoom_body req)).

Definition uuid_of (req : ZoomRequest) : jsval :=
  object_field o_uuid (payload (zoom_body req)).

(** The notification carries both components of the composite identity. *)
Definition carries_both (req : ZoomRequest) : bool :=
  truthy (meetingId_of req) && truthy (registrantEmail req).

(** [`${meetingId}_${registrantEmail}_${event}`] *)
Definition composite (meetingId email event : jsval) : string :=
  (toString meetingId ++ "_" ++ toString email ++ "_" ++ toString event)%string.

(** The world after some remote calls and some console lines. *)
Definition after (calls : list RemoteCall) (lines : list LogLine) (w : World)
  : World :=
  with_console (console w ++ lines) (with_remote (remote w ++ calls) w).

(** What the search step logs when the search is rejected. *)
Definition search_lines (r : option AxiosResponse) : list LogLine :=
  if status_is (AxiosError r) 404 then []
  else ConsoleError "Critical GHL Search Error:"
         :: (if status_is (AxiosError r) 403
             then [ConsoleError "PERMISSION DENIED"] else []).

(** The payload [createGHLContact] builds for a registrant. *)
Definition create_payload (env : Env) (registrant : Registrant) : CreatePayload :=
  {| cp_email := r_email registrant;
     cp_firstName := r_first_name registrant;
     cp_lastName := r_last_name registrant;
     cp_phone := r_phone registrant;
     cp_locationId := of_opt (GHL_LOCATION_ID (process_env env));
     cp_source := "Zoom Integration" |}.

(** A rejected creation carries the id of an existing contact. *)
Definition conflict_id (r : option AxiosResponse) : option jsval :=
  if status_is (AxiosError r) 400 && truthy (response_meta_contactId (AxiosError r))
  then Some (response_meta_contactId (AxiosError r))
  else None.

(** What the creation step logs, by the way the creation ended. *)
Definition create_lines (a : AxiosResult) : list LogLine :=
  match a with
  | AxOk (Some _) => []
  | AxOk None =>
      [ConsoleError "Failed to create GHL Contact:";
       ConsoleError "Could not resolve GHL Contact ID. Skipping tagging."]
  | AxFail r =>
      ConsoleError "GHL Create Error:"
        :: ConsoleError "Failed to create GHL Contact:"
        :: match conflict_id r with
           | Some _ => []
           | None => [ConsoleError "Could not resolve GHL Contact ID. Skipping tagging."]
           end
  end.

(** The id the creation step ends with. *)
Definition create_id (a : AxiosResult) : option jsval :=
  match a with
  | AxOk c => c
  | AxFail r => conflict_id r
  end.

(** The tags of an event, from the stored settings. *)
Definition global_tags (cs : list Settings.doc) : list jsval :=
  [js_or (match Settings.findOne "globalZoomTag" cs with
          | Some s => Settings.value s
          | None => JUndefined
          end) (JStr "Zoom Registration");
   JStr "zoom registered"].

(** The workflow to enrol into, when one is configured. *)
Definition workflow_id (env : Env) : option string :=
  match GHL_WORKFLOW_ID (process_env env) with
  | Some workflowId => if truthy (JStr workflowId) then Some workflowId else None
  | None => None
  end.

Definition tags_call (cs : list Settings.doc) (ghlContactId : jsval) : RemoteCall :=
  PostTags (toString ghlContactId) (global_tags cs).

Definition workflow_call (env : Env) (ghlContactId : jsval) (workflowId : string)
  : RemoteCall :=
  PostWorkflow (toString ghlContactId) workflowId (eventStartTime (now env)).

(** Steps 2 and 3 as a function of the answers of the remote API, given
    the calls made before: the id they end with, the calls they make and
    the lines they log. *)
Definition remote_chain (env : Env) (registrant : Registrant) (email : jsval)
    (history : list RemoteCall) : option jsval * list RemoteCall * list LogLine :=
  let s := GetContacts email in
  let c := PostContact (create_payload env registrant) in
  match ghl env history s with
  | AxOk (Some id) => (Some id, [s], [])
  | AxOk None =>
      let b := ghl env (history ++ [s]) c in
      (create_id b, [s; c], create_lines b)
  | AxFail r =>
      let b := ghl env (history ++ [s]) c in
      (create_id b, [s; c], search_lines r ++ create_lines b)
  end.

(** The id a local record caches for an e-mail: the record found by the
    e-mail, when it is linked. *)
Definition cached_id (email : jsval) (cs : list Contact.doc) : option string :=
  match Contact.findOne (toString email) cs with
  | Some c =>
      match Contact.ghlContactId c with
      | Some i => if String.eqb i "" then None else Some i
      | None => None
      end
  | None => None
  end.

(** The records stored under an e-mail key. *)
Definition records_for (key : option string) (cs : list Contact.doc)
  : list Contact.doc :=
  filter (fun d => opt_string_eqb (Contact.email d) key) cs.

(** The key under which the [email] path stores a value. *)
Definition email_key (email : jsval) : option string :=
  Some (Contact.emailSetter (toString email)).

(** Steps 1 to 4 as a function of the store and of the remote answers. *)
Definition resolution (env : Env) (registrant : Registrant) (email : jsval)
    (w : World) : option jsval * list RemoteCall * list LogLine :=
  match cached_id email (contacts w) with
  | Some i => (Some (JStr i), [], [])
  | None => remote_chain env registrant email (remote w)
  end.

(** The calls of steps 6 and 7. *)
Definition propagation_calls (env : Env) (ghlContactId : jsval)
    (history : list RemoteCall) (cs : list Settings.doc) : list RemoteCall :=
  let t := tags_call cs ghlContactId in
  match ghl env history t, workflow_id env with
  | AxOk _, Some wf => [t; workflow_call env ghlContactId wf]
  | _, _ => [t]
  end.

(** The calls one registration event makes. *)
Definition registration_calls (env : Env) (payload : option ZoomPayload)
    (w : World) : list RemoteCall :=
  match match payload with Some p => object p | None => None end with
  | None => []
  | Some objectData =>
      let registrant := registrant_of objectData in
      let email := clean_email (r_email registrant) in
      if negb (truthy email) then []
      else
        match resolution env registrant email w with
        | (None, calls, _) => calls
        | (Some id, calls, _) =>
            calls ++ propagation_calls env id (remote w ++ calls) (settings w)
        end
  end.

(** The notification is the validation challenge of the event source. *)
Definition is_validation (req : ZoomRequest) : bool :=
  js_eqb (event (zoom_body req)) (JStr "endpoint.url_validation").

(** Signature verification is switched on and the signature is wrong. *)
Definition signature_rejected (env : Env) (req : ZoomRequest) : bool :=
  js_eqb (of_opt (VERIFY_ZOOM_SIGNATURE (process_env env))) (JStr "true")
  && negb (verifyZoomSignature env req).

(** The ledger holds an entry for the identity. *)
Definition in_ledger (eventId : jsval) (l : list ZoomEvent.doc) : bool :=
  existsb (fun d => String.eqb (ZoomEvent.eventId d) (toString eventId)) l.

(** The same environment with another remote API. *)
Definition with_ghl (g : list RemoteCall -> RemoteCall -> AxiosResult)
    (env : Env) : Env :=
  {| process_env := process_env env; now := now env; ghl := g;
     hmac_sha256_hex := hmac_sha256_hex env;
     JSON_stringify := JSON_stringify env |}.

(** The "Idempotency Check" of the webhook as a step of its own: [true]
    when the event is a duplicate. *)
Definition ledger_step (between : World -> World) (env : Env) (req : ZoomRequest)
  : M bool :=
  if truthy (deriveEventId req) then
    existingEvent <- ZoomEvent_findOne (toString (deriveEventId req)) ;;
    meanwhile between ;;
    match existingEvent with
    | Some _ => ret true
    | None =>
        ZoomEvent_create env (deriveEventId req) (event (zoom_body req))
          (registrantEmail_of (payload (zoom_body req))) ;;
        ret false
    end
  else ret false.

(** "Process registration" and the answer that follows it. *)
Definition process_step (env : Env) (req : ZoomRequest) : M Response :=
  (if is_registration (event (zoom_body req))
   then handleRegistrationEvent env (payload (zoom_body req))
          (event (zoom_body req))
   else ret tt) ;;
  ret received_response.

(** The calls the webhook makes for a notification it processes. *)
Definition process_calls (env : Env) (req : ZoomRequest) (w : World)
  : list RemoteCall :=
  if is_registration (event (zoom_body req))
  then registration_calls env (payload (zoom_body req)) w else [].

(** [payload?.plainToken] *)
Definition plainToken_of (req : ZoomRequest) : jsval :=
  match payload (zoom_body req) with
  | Some p => plainToken p
  | None => JUndefined
  end.

Definition internal_error : Response :=
  {| status := 500; body := ErrorBody "Internal server error" |}.

(** The configuration webhook, piece by piece. *)
Definition config_fields (data : GhlBody) : GhlFields :=
  match customData data with Some p => p | None => flat data end.

Definition config_email (data : GhlBody) : jsval :=
  sanitize_email (g_email (config_fields data)).

Definition config_contactId (data : GhlBody) : jsval :=
  g_contactId (config_fields data).

(** [!email && !contactId] *)
Definition config_rejected (data : GhlBody) : bool :=
  negb (truthy (config_email data)) && negb (truthy (config_contactId data)).

(** "Global Tag Logic" *)
Definition tag_step (env : Env) (zoom_tag : jsval) : M unit :=
  if truthy zoom_tag then
    currentSetting <- Settings_findOne "globalZoomTag" ;;
    if match currentSetting with
       | None => true
       | Some s => negb (js_eqb (Settings.value s) zoom_tag)
       end
    then Settings_findOneAndUpdate env "globalZoomTag" zoom_tag
    else ret tt
  else ret tt.

(** The [update] object of the contact upsert. *)
Definition config_update (env : Env) (data : GhlBody) : Contact.update :=
  {| Contact.u_ghlContactId := config_contactId data;
     Contact.u_email := config_email data;
     Contact.u_phone := g_phone (config_fields data);
     Contact.u_firstName := g_firstName (config_fields data);
     Contact.u_lastName := g_lastName (config_fields data);
     Contact.u_locationId :=
       js_or (g_locationId (config_fields data))
             (of_opt (GHL_LOCATION_ID (process_env env)));
     Contact.u_updatedAt := now env |}.

Definition config_filter (data : GhlBody) : Contact.filter :=
  upsert_filter (config_contactId data) (config_email data).

Definition contact_synced : Response :=
  {| status := 200; body := MessageBody "Contact synced" |}.

(** The settings after the "Global Tag Logic" ran for a tag. *)
Definition settings_after_tag (env : Env) (zoom_tag : jsval)
    (cs : list Settings.doc) : list Settings.doc :=
  if truthy zoom_tag then
    match Settings.findOne "globalZoomTag" cs with
    | None => Settings.findOneAndUpdate "globalZoomTag" zoom_tag (now env) cs
    | Some s =>
        if js_eqb (Settings.value s) zoom_tag then cs
        else Settings.findOneAndUpdate "globalZoomTag" zoom_tag (now env) cs
    end
  else cs.

(** [s] ends with [suffix]. *)
Definition ends_with (s suffix : string) : Prop :=
  exists p, s = (p ++ suffix)%string.

(** What the workflow step logs, by the answer to the enrolment. *)
Definition workflow_lines (a : AxiosResult) : list LogLine :=
  match a with
  | AxOk _ => []
  | AxFail _ => [ConsoleError "GHL Workflow Error:";
                 ConsoleError "Workflow Trigger Failed:"]
  end.

(** The contact cache as its indexes keep it: distinct [_id]s, all below
    the next fresh one, and no two records under one e-mail key. *)
Definition cache_ok (w : World) : Prop :=
  NoDup (map Contact._id (contacts w))
  /\ (forall d, In d (contacts w) -> Contact._id d < next_id w)
  /\ NoDup (map Contact.email (contacts w)).

(** A computation keeps a property of the world, however it ends. *)
Definition keeps (P : World -> Prop) {A : Type} (m : M A) : Prop :=
  forall w, P w -> P (snd (m w)).

(* ------------------------------------------------------------------ *)
(** ** Scenarios *)

Definition a_date : Date :=
  {| getUTCFullYear := 2026; getUTCMonth := 10; getUTCDate := 2;
     getUTCHours := 9; getUTCMinutes := 5; getUTCSeconds := 0 |}.

(** A remote API that knows no contact and accepts everything: the
    creation answers with the id "ghl-1". *)
Definition ghl_accepts (history : list RemoteCall) (c : RemoteCall) : AxiosResult :=
  match c with
  | GetContacts _ => AxOk None
  | PostContact _ => AxOk (Some (JStr "ghl-1"))
  | _ => AxOk None
  end.

(** A remote API whose search is forbidden (403) and whose creation
    reports an existing contact (400 with [meta.contactId]). *)
Definition ghl_forbidden_conflict (history : list RemoteCall) (c : RemoteCall)
  : AxiosResult :=
  match c with
  | GetContacts _ =>
      AxFail (Some {| ar_status := 403; ar_meta_contactId := JUndefined |})
  | PostContact _ =>
      AxFail (Some {| ar_status := 400; ar_meta_contactId := JStr "ghl-7" |})
  | _ => AxOk None
  end.

(** A remote API that accepts everything but the workflow enrolment. *)
Definition ghl_workflow_rejects (history : list RemoteCall) (c : RemoteCall)
  : AxiosResult :=
  match c with
  | PostWorkflow _ _ _ =>
      AxFail (Some {| ar_status := 422; ar_meta_contactId := JUndefined |})
  | other => ghl_accepts history other
  end.

Definition an_env (g : list RemoteCall -> RemoteCall -> AxiosResult) : Env :=
  {| process_env :=
       {| ZOOM_SECRET_TOKEN := Some "secret";
          VERIFY_ZOOM_SIGNATURE := None;
          GHL_LOCATION_ID := Some "loc-1";
          GHL_WORKFLOW_ID := Some "wf-1" |};
     now := a_date;
     ghl := g;
     hmac_sha256_hex := fun k m => (k ++ "/" ++ m)%string;
     JSON_stringify := fun _ => "{}" |}.

Definition empty_world : World :=
  {| zoomEvents := []; contacts := []; settings := []; next_id := 0;
     remote := []; console := [] |}.

Definition a_registrant (mail : jsval) : Registrant :=
  {| r_email := mail; r_phone := JUndefined;
     r_first_name := JStr "Ada"; r_last_name := JUndefined |}.

(** A registration notification: event type, meeting id, registrant
    e-mail, timestamp header. *)
Definition a_registration (type : string) (meeting mail : jsval)
    (timestamp : option string) : ZoomRequest :=
  {| x_zm_signature := None;
     x_zm_request_timestamp := timestamp;
     zoom_body :=
       {| event := JStr type;
          payload :=
            Some {| plainToken := JUndefined;
                    object :=
                      Some {| o_id := meeting; o_uuid := JUndefined;
                              o_email := mail; o_phone := JUndefined;
                              o_first_name := JStr "Ada";
                              o_last_name := JUndefined;
                              o_registrant := None |} |} |} |}.

(** A configuration event with a contact id, an e-mail and a tag. *)
Definition a_config (contactId mail tag : jsval) : GhlBody :=
  {| customData := None;
     flat := {| g_contactId := contactId; g_email := mail;
                g_phone := JUndefined; g_firstName := JUndefined;
                g_lastName := JUndefined; g_locationId := JUndefined;
                g_zoom_tag := tag |} |}.

(** The same environment with signature verification switched on. *)
Definition a_verifying_env (g : list RemoteCall -> RemoteCall -> AxiosResult)
  : Env :=
  {| process_env :=
       {| ZOOM_SECRET_TOKEN := Some "secret";
          VERIFY_ZOOM_SIGNATURE := Some "true";
          GHL_LOCATION_ID := Some "loc-1";
          GHL_WORKFLOW_ID := None |};
     now := a_date;
     ghl := g;
     hmac_sha256_hex := fun k m => (k ++ "/" ++ m)%string;
     JSON_stringify := fun _ => "{}" |}.

(** A notification with the signature header set. *)
Definition signed (signature : string) (req : ZoomRequest) : ZoomRequest :=
  {| x_zm_signature := Some signature;
     x_zm_request_timestamp := x_zm_request_timestamp req;
     zoom_body := zoom_body req |}.

(** The validation challenge of the event source. *)
Definition a_challenge (token : jsval) : ZoomRequest :=
  {| x_zm_signature := None;
     x_zm_request_timestamp := Some "1700000000";
     zoom_body :=
       {| event := JStr "endpoint.url_validation";
          payload := Some {| plainToken := token; object := None |} |} |}.

(** A notification about a meeting identified by a session uuid. *)
Definition a_session_event (type : string) (uuid mail : jsval) : ZoomRequest :=
  {| x_zm_signature := None;
     x_zm_request_timestamp := Some "1700000000";
     zoom_body :=
       {| event := JStr type;
          payload :=
            Some {| plainToken := JUndefined;
                    object :=
                      Some {| o_id := JUndefined; o_uuid := uuid;
                              o_email := mail; o_phone := JUndefined;
                              o_first_name := JUndefined;
                              o_last_name := JUndefined;
                              o_registrant := None |} |} |} |}.

(** A remote API that knows no contact and refuses to create one. *)
Definition ghl_refuses_creation (history : list RemoteCall) (c : RemoteCall)
  : AxiosResult :=
  match c with
  | GetContacts _ => AxOk None
  | PostContact _ =>
      AxFail (Some {| ar_status := 422; ar_meta_contactId := JUndefined |})
  | _ => AxOk None
  end.

(** A remote API that accepts everything but the tags. *)
Definition ghl_tags_reject (history : list RemoteCall) (c : RemoteCall)
  : AxiosResult :=
  match c with
  | PostTags _ _ =>
      AxFail (Some {| ar_status := 500; ar_meta_contactId := JUndefined |})
  | other => ghl_accepts history other
  end.

(** A remote API whose search finds the contact "ghl-3". *)
Definition ghl_finds (history : list RemoteCall) (c : RemoteCall) : AxiosResult :=
  match c with
  | GetContacts _ => AxOk (Some (JStr "ghl-3"))
  | _ => AxOk None
  end.

(** A world whose cache holds one record, stored under an e-mail and
    not linked: what the configuration webhook leaves for an event that
    carries only an e-mail. *)
Definition unlinked_world : World :=
  snd (ghl_webhook (an_env ghl_accepts)
         (a_config JUndefined (JStr "Ada@X.com ") JUndefined) empty_world).

(** The insert another request makes for the same notification while
    this one is suspended. *)
Definition concurrent_insert (env : Env) (req : ZoomRequest) (w : World)
  : World :=
  snd (ZoomEvent_create env (deriveEventId req) (event (zoom_body req))
         (registrantEmail_of (payload (zoom_body req))) w).

(** Two people registering for webinar 555, a redelivery of the first
    registration under a later timestamp, and a registration without a
    meeting id. *)
Definition reg_a : ZoomRequest :=
  a_registration "webinar.registration_created" (JNum 555) (JStr "a@x.com")
    (Some "1700000000").

Definition reg_a_again : ZoomRequest :=
  a_registration "webinar.registration_created" (JNum 555) (JStr "a@x.com")
    (Some "1700000009").

Definition reg_b : ZoomRequest :=
  a_registration "webinar.registration_created" (JNum 555) (JStr "b@x.com")
    (Some "1700000000").

Definition reg_no_meeting : ZoomRequest :=
  a_registration "webinar.registration_created" JUndefined (JStr "a@x.com")
    (Some "1700000000").

(** A registration that derives no identity at all. *)
Definition reg_no_identity : ZoomRequest :=
  a_registration "meeting.registration_created" JUndefined (JStr "a@x.com") None.

(** The object of [a_registration]. *)
Definition an_object (meeting mail : jsval) : ZoomObject :=
  {| o_id := meeting; o_uuid := JUndefined; o_email := mail;
     o_phone := JUndefined; o_first_name := JStr "Ada";
     o_last_name := JUndefined; o_registrant := None |}.

(* ------------------------------------------------------------------ *)
(** ** Vocabulary of the further properties *)

(** The kinds of remote calls. *)
Definition is_search (c : RemoteCall) : bool :=
  match c with GetContacts _ => true | _ => false end.

Definition is_creation (c : RemoteCall) : bool :=
  match c with PostContact _ => true | _ => false end.

Definition is_tagging (c : RemoteCall) : bool :=
  match c with PostTags _ _ => true | _ => false end.

Definition is_enrolment (c : RemoteCall) : bool :=
  match c with PostWorkflow _ _ _ => true | _ => false end.

(** How many calls of a kind a list holds. *)
Definition calls_of (kind : RemoteCall -> bool) (calls : list RemoteCall) : nat :=
  length (filter kind calls).

Definition is_digit (c : ascii) : bool :=
  let n := nat_of_ascii c in Nat.leb 48 n && Nat.leb n 57.

(** A string against a format: [d] in the format stands for one decimal
    digit, every other character for itself. *)
Fixpoint has_format (format s : string) : bool :=
  match format, s with
  | EmptyString, EmptyString => true
  | String f format', String c s' =>
      (if Ascii.eqb f "d" then is_digit c else Ascii.eqb f c)
      && has_format format' s'
  | _, _ => false
  end.

(** The UTC fields of a [Date] with a four-digit year. *)
Definition four_digit_year (d : Date) : Prop :=
  (1000 <= getUTCFullYear d <= 9999)%Z
  /\ (0 <= getUTCMonth d <= 11)%Z
  /\ (1 <= getUTCDate d <= 31)%Z
  /\ (0 <= getUTCHours d <= 23)%Z
  /\ (0 <= getUTCMinutes d <= 59)%Z
  /\ (0 <= getUTCSeconds d <= 59)%Z.

(** A registration for the session 555 with the session's uuid. *)
Definition a_seat (uuid mail : jsval) : ZoomRequest :=
  {| x_zm_signature := None;
     x_zm_request_timestamp := Some "1700000000";
     zoom_body :=
       {| event := JStr "meeting.registration_created";
          payload :=
            Some {| plainToken := JUndefined;
                    object :=
                      Some {| o_id := JNum 555; o_uuid := uuid;
                              o_email := JUndefined; o_phone := JUndefined;
                              o_first_name := JUndefined;
                              o_last_name := JUndefined;
                              o_registrant :=
                                Some {| r_email := mail; r_phone := JUndefined;
                                        r_first_name := JStr "Ada";
                                        r_last_name := JUndefined |} |} |} |} |}.

(** A remote API that cannot be reached: every call fails without a
    response. *)
Definition ghl_down (history : list RemoteCall) (c : RemoteCall) : AxiosResult :=
  AxFail None.

(** A notification with a timestamp header and nothing else: no event
    type, no payload. *)
Definition untyped_notification : ZoomRequest :=
  {| x_zm_signature := None;
     x_zm_request_timestamp := Some "1700000000";
     zoom_body := {| event := JUndefined; payload := None |} |}.

(** Two characters that are equal, or one letter of A to Z in its two
    cases. *)
Definition same_letter (a b : ascii) : bool :=
  let m := nat_of_ascii a in
  let n := nat_of_ascii b in
  Nat.eqb m n
  || (Nat.leb 65 m && Nat.leb m 90 && Nat.eqb n (m + 32))
  || (Nat.leb 65 n && Nat.leb n 90 && Nat.eqb m (n + 32)).

(** Two strings that differ at most in the case of their letters. *)
Fixpoint same_ignoring_case (s t : string) : bool :=
  match s, t with
  | EmptyString, EmptyString => true
  | String a s', String b t' => same_letter a b && same_ignoring_case s' t'
  | _, _ => false
  end.

(** A string of spaces, tabs and line breaks only. *)
Fixpoint all_blank (s : string) : bool :=
  match s with
  | EmptyString => true
  | String c s' =>
      existsb (Nat.eqb (nat_of_ascii c)) [9; 10; 11; 12; 13; 32]
      && all_blank s'
  end.

(** All the characters. *)
Definition all_ascii : list ascii := map ascii_of_nat (seq 0 256).

(* ================================================================== *)
(** * Properties *)

(** ** Strings *)

Section StringFacts.

Local Open Scope string_scope.

Lemma length_append (a b : string) :
  String.length (a ++ b) = String.length a + String.length b.
Proof. induction a as [|c a IH]; simpl; [reflexivity | now rewrite IH]. Qed.

Lemma append_cancel_l (a x y : string) : a ++ x = a ++ y -> x = y.
Proof.
  induction a as [|c a IH]; simpl; intros H; [exact H|].
  injection H as H. now apply IH.
Qed.

(** Two strings that end in suffixes of one length agree part by part. *)
Lemma append_split_suffix (x y t1 t2 : string) :
  String.length t1 = String.length t2 ->
  x ++ t1 = y ++ t2 -> x = y /\ t1 = t2.
Proof.
  revert y. induction x as [|c x IH]; intros [|d y] Hlen H; simpl in H.
  - now split.
  - exfalso. apply (f_equal String.length) in H. simpl in H.
    rewrite length_append in H. lia.
  - exfalso. apply (f_equal String.length) in H. simpl in H.
    rewrite length_append in H. lia.
  - injection H as Hc H. destruct (IH y Hlen H) as [-> ->]. now subst.
Qed.

Lemma is_space_lower (c : ascii) : is_space (lower_ascii c) = is_space c.
Proof.
  destruct c as [[] [] [] [] [] [] [] []]; reflexivity.
Qed.

Lemma lower_ascii_idem (c : ascii) : lower_ascii (lower_ascii c) = lower_ascii c.
Proof.
  destruct c as [[] [] [] [] [] [] [] []]; reflexivity.
Qed.

Lemma toLowerCase_idem (s : string) : toLowerCase (toLowerCase s) = toLowerCase s.
Proof.
  induction s as [|c s IH]; simpl; [reflexivity|].
  now rewrite lower_ascii_idem, IH.
Qed.

Lemma toLowerCase_empty (s : string) : toLowerCase s = "" <-> s = "".
Proof. destruct s; simpl; split; intros H; (reflexivity || discriminate). Qed.

Lemma eqb_empty_lower (s : string) :
  String.eqb (toLowerCase s) "" = String.eqb s "".
Proof. destruct s; reflexivity. Qed.

Lemma trimStart_lower (s : string) :
  trimStart (toLowerCase s) = toLowerCase (trimStart s).
Proof.
  induction s as [|c s IH]; simpl; [reflexivity|].
  rewrite is_space_lower. destruct (is_space c); [exact IH | reflexivity].
Qed.

Lemma trimEnd_lower (s : string) :
  trimEnd (toLowerCase s) = toLowerCase (trimEnd s).
Proof.
  induction s as [|c s IH]; simpl; [reflexivity|].
  rewrite is_space_lower, IH, eqb_empty_lower.
  destruct (is_space c && String.eqb (trimEnd s) ""); reflexivity.
Qed.

Lemma trim_lower (s : string) : trim (toLowerCase s) = toLowerCase (trim s).
Proof. unfold trim. now rewrite trimStart_lower, trimEnd_lower. Qed.

Lemma trimEnd_idem (s : string) : trimEnd (trimEnd s) = trimEnd s.
Proof.
  induction s as [|c s IH]; simpl; [reflexivity|].
  destruct (is_space c && String.eqb (trimEnd s) "") eqn:E; simpl;
    [reflexivity|].
  now rewrite IH, E.
Qed.

(** A string that does not start with a space keeps its head under
    [trimEnd]. *)
Lemma trimEnd_head (c : ascii) (s : string) :
  is_space c = false -> exists t, trimEnd (String c s) = String c t.
Proof. intros H. simpl. rewrite H. simpl. now eexists. Qed.

Lemma trimStart_head (s : string) :
  trimStart s = "" \/ exists c t, trimStart s = String c t /\ is_space c = false.
Proof.
  induction s as [|c s IH]; simpl; [now left|].
  destruct (is_space c) eqn:E; [exact IH|]. right. now exists c, s.
Qed.

Lemma trimStart_trimEnd (s : string) :
  trimStart (trimEnd (trimStart s)) = trimEnd (trimStart s).
Proof.
  destruct (trimStart_head s) as [-> | (c & t & -> & Hc)]; [reflexivity|].
  destruct (trimEnd_head c t Hc) as [t' ->]. simpl. now rewrite Hc.
Qed.

Lemma trim_idem (s : string) : trim (trim s) = trim s.
Proof. unfold trim. now rewrite trimStart_trimEnd, trimEnd_idem. Qed.

(** The schema setters leave a cleaned e-mail as it is. *)
Lemma emailSetter_idem (s : string) :
  Contact.emailSetter (Contact.emailSetter s) = Contact.emailSetter s.
Proof.
  unfold Contact.emailSetter.
  now rewrite trim_lower, trim_idem, toLowerCase_idem.
Qed.

Lemma trim_head (c : ascii) (s : string) :
  is_space c = false -> exists t, trim (String c s) = String c t.
Proof.
  intros H. unfold trim. simpl trimStart. rewrite H. now apply trimEnd_head.
Qed.

End StringFacts.

(* ------------------------------------------------------------------ *)
(** ** Event identity *)

Lemma deriveEventId_composite (req : ZoomRequest) :
  carries_both req = true ->
  deriveEventId req =
    JStr (composite (meetingId_of req) (registrantEmail req)
                    (event (zoom_body req))).
Proof.
  unfold carries_both, meetingId_of, registrantEmail, deriveEventId, composite.
  intros ->. reflexivity.
Qed.

Lemma deriveEventId_fallback (req : ZoomRequest) :
  carries_both req = false ->
  deriveEventId req =
    if truthy (uuid_of req) then uuid_of req
    else of_opt (x_zm_request_timestamp req).
Proof.
  unfold carries_both, meetingId_of, registrantEmail, deriveEventId, uuid_of.
  intros ->. reflexivity.
Qed.

Lemma composite_inj_email (m e1 e2 t1 t2 : jsval) :
  String.length (toString t1) = String.length (toString t2) ->
  composite m e1 t1 = composite m e2 t2 ->
  toString e1 = toString e2 /\ toString t1 = toString t2.
Proof.
  unfold composite. intros Hlen H.
  apply append_cancel_l in H. apply append_cancel_l in H.
  assert (H' : ((toString e1 ++ "_") ++ toString t1
                = (toString e2 ++ "_") ++ toString t2)%string).
  { clear Hlen. revert H. generalize (toString e1) (toString e2).
    intros a b. 
    assert (A : forall x y z : string, ((x ++ y) ++ z = x ++ y ++ z)%string).
    { intros x y z. induction x; simpl; [reflexivity | now f_equal]. }
    now rewrite !A. }
  destruct (append_split_suffix _ _ _ _ Hlen H') as [He Ht]. split; [|exact Ht].
  apply (append_split_suffix _ _ "_" "_" eq_refl) in He. tauto.
Qed.

Lemma is_registration_length (t : jsval) :
  is_registration t = true -> String.length (toString t) = 28.
Proof.
  unfold is_registration. intros H. apply orb_true_iff in H.
  destruct t; simpl in H; try (destruct H; discriminate).
  destruct H as [H | H]; apply String.eqb_eq in H; subst; reflexivity.
Qed.

(** C1.  A notification that carries a meeting id and a registrant e-mail
    gets the identity [meetingId_email_event]; for one meeting, two
    registrants whose e-mails differ get different identities (for one
    event type, and across the two registration event types); the same
    meeting, e-mail and event type give the same identity whatever else
    the delivery holds; a notification that lacks one of the two gets
    the session uuid when there is one, and the timestamp header
    otherwise. *)
Theorem event_identity :
  (forall req, carries_both req = true ->
     deriveEventId req =
       JStr (composite (meetingId_of req) (registrantEmail req)
                       (event (zoom_body req)))) /\
  (forall r1 r2 s1 s2,
     carries_both r1 = true -> carries_both r2 = true ->
     meetingId_of r1 = meetingId_of r2 ->
     registrantEmail r1 = JStr s1 -> registrantEmail r2 = JStr s2 ->
     s1 <> s2 ->
     event (zoom_body r1) = event (zoom_body r2) \/
     (is_registration (event (zoom_body r1)) = true /\
      is_registration (event (zoom_body r2)) = true) ->
     deriveEventId r1 <> deriveEventId r2) /\
  (forall r1 r2,
     carries_both r1 = true -> carries_both r2 = true ->
     meetingId_of r1 = meetingId_of r2 ->
     registrantEmail r1 = registrantEmail r2 ->
     event (zoom_body r1) = event (zoom_body r2) ->
     deriveEventId r1 = deriveEventId r2) /\
  (forall req, carries_both req = false ->
     deriveEventId req =
       if truthy (uuid_of req) then uuid_of req
       else of_opt (x_zm_request_timestamp req)).
Proof.
  split; [exact deriveEventId_composite|].
  split; [|split; [|exact deriveEventId_fallback]].
  - intros r1 r2 s1 s2 H1 H2 Hm He1 He2 Hne Ht Heq.
    rewrite (deriveEventId_composite r1 H1), (deriveEventId_composite r2 H2) in Heq.
    injection Heq as Heq. rewrite Hm, He1, He2 in Heq.
    apply composite_inj_email in Heq.
    + simpl in Heq. tauto.
    + destruct Ht as [-> | [Ha Hb]]; [reflexivity|].
      now rewrite (is_registration_length _ Ha), (is_registration_length _ Hb).
  - intros r1 r2 H1 H2 Hm He Ht.
    rewrite (deriveEventId_composite r1 H1), (deriveEventId_composite r2 H2).
    now rewrite Hm, He, Ht.
Qed.

(* ------------------------------------------------------------------ *)
(** ** How the steps of the resolver run *)

Lemma after_nil (w : World) : after [] [] w = w.
Proof.
  destruct w. unfold after, with_console, with_remote. simpl.
  now rewrite !app_nil_r.
Qed.

Lemma after_after (c1 c2 : list RemoteCall) (l1 l2 : list LogLine) (w : World) :
  after c2 l2 (after c1 l1 w) = after (c1 ++ c2) (l1 ++ l2) w.
Proof.
  unfold after, with_console, with_remote. simpl. now rewrite !app_assoc.
Qed.

Lemma search_step_run (env : Env) (email : jsval) (w : World) :
  search_step env email w =
    match ghl env (remote w) (GetContacts email) with
    | AxOk c => (Ok c, after [GetContacts email] [] w)
    | AxFail r => (Ok None, after [GetContacts email] (search_lines r) w)
    end.
Proof.
  unfold search_step, searchGHLContact, try_catch, ghlAxios, search_lines.
  destruct (ghl env (remote w) (GetContacts email)) as [c | r].
  - unfold after, with_console. simpl. now rewrite app_nil_r.
  - destruct (status_is (AxiosError r) 404) eqn:E404.
    + unfold ret, after, with_console. simpl. now rewrite app_nil_r.
    + unfold throw, bind, console_error, ret.
      destruct (status_is (AxiosError r) 403); unfold after, with_console, with_remote;
        simpl; now rewrite <- ?app_assoc.
Qed.

Lemma create_step_run (env : Env) (registrant : Registrant) (w : World) :
  let c := PostContact (create_payload env registrant) in
  create_step env registrant w =
    (Ok (create_id (ghl env (remote w) c)),
     after [c] (create_lines (ghl env (remote w) c)) w).
Proof.
  unfold create_step, createGHLContact, try_catch, bind, ghlAxios, create_id,
    create_lines, conflict_id, create_payload.
  cbv zeta.
  destruct (ghl env (remote w) _) as [[id|] | r].
  - unfold ret, after, with_console. simpl. now rewrite app_nil_r.
  - unfold throw, console_error, ret, after, with_console, with_remote. simpl.
    now rewrite <- !app_assoc.
  - unfold console_error, throw, ret.
    destruct (status_is (AxiosError r) 400 && _);
      unfold after, with_console, with_remote; simpl; now rewrite <- ?app_assoc.
Qed.

Lemma propagate_run (env : Env) (id : jsval) (w : World) :
  let t := tags_call (settings w) id in
  propagate env id w =
    match ghl env (remote w) t with
    | AxFail r =>
        (Throw (AxiosError r), after [t] [ConsoleError "GHL Tag Error:"] w)
    | AxOk _ =>
        match workflow_id env with
        | None => (Ok tt, after [t] [] w)
        | Some wf =>
            let c := workflow_call env id wf in
            match ghl env (remote w ++ [t]) c with
            | AxOk _ => (Ok tt, after [t; c] [] w)
            | AxFail _ =>
                (Ok tt, after [t; c] [ConsoleError "GHL Workflow Error:";
                                      ConsoleError "Workflow Trigger Failed:"] w)
            end
        end
    end.
Proof.
  unfold propagate, tags_call, global_tags, workflow_id, workflow_call,
    addGHLTags, addContactToWorkflow, Settings_findOne, bind, try_catch,
    ghlAxios, ret, throw, console_error.
  cbv zeta.
  destruct (ghl env (remote w) _) as [c | r].
  - destruct (GHL_WORKFLOW_ID (process_env env)) as [wf|].
    + destruct (truthy (JStr wf)).
      * cbn [remote with_remote].
        destruct (ghl env (remote w ++ _) _) as [c' | r'];
          unfold after, with_console, with_remote; simpl;
          now rewrite <- ?app_assoc, ?app_nil_r.
      * unfold after, with_console, with_remote; simpl. now rewrite app_nil_r.
    + unfold after, with_console, with_remote; simpl. now rewrite app_nil_r.
  - unfold after, with_console, with_remote; simpl. reflexivity.
Qed.

Lemma resolve_remotely_run (env : Env) (registrant : Registrant)
    (email : jsval) (contact : option Contact.doc) (w : World) :
  resolve_remotely env registrant email contact w =
    match remote_chain env registrant email (remote w) with
    | (None, calls, lines) => (Ok None, after calls lines w)
    | (Some id, calls, lines) =>
        (save_step env registrant email contact id ;; ret (Some id))
          (after calls lines w)
    end.
Proof.
  unfold resolve_remotely, remote_chain. unfold bind at 1.
  rewrite search_step_run.
  destruct (ghl env (remote w) (GetContacts email)) as [[id|] | r].
  - unfold bind at 1. unfold ret at 1. reflexivity.
  - unfold bind at 1. rewrite create_step_run. cbv zeta.
    cbn [remote after with_console with_remote]. rewrite after_after.
    cbn [app].
    destruct (create_id _); reflexivity.
  - unfold bind at 1. rewrite create_step_run. cbv zeta.
    cbn [remote after with_console with_remote]. rewrite after_after.
    cbn [app].
    destruct (create_id _); reflexivity.
Qed.

Lemma opt_string_eqb_eq (a b : option string) :
  opt_string_eqb a b = true <-> a = b.
Proof.
  destruct a as [x|], b as [y|]; simpl; split; intros H;
    try discriminate; try reflexivity.
  - apply String.eqb_eq in H. now subst.
  - injection H as ->. apply String.eqb_refl.
Qed.

Lemma string_of_int_nonempty (n : Z) : NilZero.string_of_int (Z.to_int n) <> ""%string.
Proof.
  unfold NilZero.string_of_int, NilZero.string_of_uint.
  destruct (Z.to_int n) as [d | d]; destruct d; simpl; discriminate.
Qed.

Lemma truthy_toString (v : jsval) : truthy v = true -> toString v <> ""%string.
Proof.
  destruct v as [| | [|] | n | s]; simpl; try discriminate.
  - intros _. apply string_of_int_nonempty.
  - intros H E. subst. discriminate.
Qed.

Lemma truthy_castString (v : jsval) :
  truthy v = true -> castString v = Some (toString v).
Proof. destruct v; simpl; intros H; try discriminate; reflexivity. Qed.

Lemma truthy_required_ok (v : jsval) : truthy v = true -> required_ok v = true.
Proof.
  intros H. unfold required_ok. rewrite (truthy_castString v H).
  apply negb_true_iff, String.eqb_neq, truthy_toString, H.
Qed.

Lemma cached_id_missing (email : jsval) (cs : list Contact.doc) :
  id_missing_locally (Contact.findOne (toString email) cs) = true
  <-> cached_id email cs = None.
Proof.
  unfold id_missing_locally, contact_ghlContactId, cached_id.
  destruct (Contact.findOne (toString email) cs) as [c|]; simpl; [|tauto].
  destruct (Contact.ghlContactId c) as [i|]; simpl; [|tauto].
  destruct (String.eqb i ""); simpl; split; intros H; (reflexivity || discriminate).
Qed.

Lemma cached_id_found (email : jsval) (cs : list Contact.doc) (i : string) :
  cached_id email cs = Some i ->
  exists c, Contact.findOne (toString email) cs = Some c
            /\ Contact.ghlContactId c = Some i
            /\ contact_ghlContactId (Some c) = JStr i
            /\ truthy (JStr i) = true.
Proof.
  unfold cached_id, contact_ghlContactId.
  destruct (Contact.findOne (toString email) cs) as [c|]; [|discriminate].
  destruct (Contact.ghlContactId c) as [j|] eqn:E; [|discriminate].
  destruct (String.eqb j "") eqn:Ej; [discriminate|].
  intros [= ->]. exists c. repeat split; simpl; rewrite ?E, ?Ej; reflexivity.
Qed.

(* ------------------------------------------------------------------ *)
(** ** The local contact cache *)

Lemma filter_none {A : Type} (p : A -> bool) (l : list A) :
  (forall x, In x l -> p x = false) -> filter p l = [].
Proof.
  induction l as [|a l IH]; simpl; intros H; [reflexivity|].
  rewrite (H a (or_introl eq_refl)). apply IH. intros x Hx. apply H. now right.
Qed.

Lemma find_none_records (key : option string) (cs : list Contact.doc) :
  find (fun d => opt_string_eqb (Contact.email d) key) cs = None ->
  records_for key cs = [].
Proof.
  intros H. apply filter_none. intros x Hx. exact (find_none _ _ H x Hx).
Qed.

Lemma find_some_records (key : option string) (cs : list Contact.doc)
    (c : Contact.doc) :
  NoDup (map Contact.email cs) ->
  find (fun d => opt_string_eqb (Contact.email d) key) cs = Some c ->
  records_for key cs = [c].
Proof.
  unfold records_for.
  induction cs as [|d cs IH]; simpl; intros Hnd Hf; [discriminate|].
  inversion Hnd as [|? ? Hnot Hnd']; subst.
  destruct (opt_string_eqb (Contact.email d) key) eqn:E.
  - injection Hf as ->. f_equal. apply filter_none. intros x Hx.
    destruct (opt_string_eqb (Contact.email x) key) eqn:Ex; [|reflexivity].
    exfalso. apply Hnot. apply opt_string_eqb_eq in E, Ex.
    rewrite E, <- Ex. now apply in_map.
  - now apply IH.
Qed.

Lemma records_for_app (key : option string) (cs : list Contact.doc)
    (d : Contact.doc) :
  Contact.email d = key ->
  records_for key (cs ++ [d]) = records_for key cs ++ [d].
Proof.
  intros E. unfold records_for. rewrite filter_app. simpl.
  now rewrite (proj2 (opt_string_eqb_eq _ _) E).
Qed.

Lemma email_updateOne (id : nat) (v : jsval) (cs : list Contact.doc) :
  map Contact.email (Contact.updateOne id v cs) = map Contact.email cs.
Proof.
  unfold Contact.updateOne. rewrite map_map. apply map_ext.
  intros d. now destruct (Nat.eqb (Contact._id d) id).
Qed.

Lemma records_updateOne (key : option string) (id : nat) (v : jsval)
    (cs : list Contact.doc) :
  records_for key (Contact.updateOne id v cs)
  = Contact.updateOne id v (records_for key cs).
Proof.
  unfold records_for, Contact.updateOne.
  induction cs as [|d cs IH]; simpl; [reflexivity|].
  destruct (Nat.eqb (Contact._id d) id) eqn:E; simpl;
    destruct (opt_string_eqb (Contact.email d) key); simpl;
    now rewrite ?E, IH.
Qed.

Lemma email_taken_false (e : option string) (cs : list Contact.doc) :
  Contact.email_taken e cs = false -> ~ In e (map Contact.email cs).
Proof.
  unfold Contact.email_taken. intros H Hin.
  apply in_map_iff in Hin. destruct Hin as (d & Hd & Hin).
  assert (T : existsb (fun d => opt_string_eqb (Contact.email d) e) cs = true).
  { apply existsb_exists. exists d. split; [exact Hin|].
    now apply opt_string_eqb_eq. }
  congruence.
Qed.

Lemma NoDup_snoc {A : Type} (l : list A) (a : A) :
  NoDup l -> ~ In a l -> NoDup (l ++ [a]).
Proof.
  intros Hl Ha. apply NoDup_app; [exact Hl | repeat constructor; intros [] | ].
  intros x Hx [<- | []]. contradiction.
Qed.

Lemma clean_email_string (s : string) :
  email_key (clean_email (JStr s)) = Some (toLowerCase (trim s)).
Proof.
  unfold email_key, clean_email, js_or.
  destruct (truthy (JStr s)) eqn:E; simpl.
  - f_equal. exact (emailSetter_idem s).
  - destruct s; [reflexivity | discriminate].
Qed.

(** The save step of a resolved id: in place on the record found, a new
    record otherwise. *)
Lemma save_step_contacts (env : Env) (registrant : Registrant) (email id : jsval)
    (contact : option Contact.doc) (w w' : World) :
  truthy id = true ->
  contact = Contact.findOne (toString email) (contacts w) ->
  NoDup (map Contact.email (contacts w)) ->
  save_step env registrant email contact id w = (Ok tt, w') ->
  (exists d, records_for (email_key email) (contacts w') = [d]
       /\ Contact.ghlContactId d = Some (toString id)
       /\ forall c, contact = Some c ->
            Contact._id d = Contact._id c
            /\ Contact.email d = Contact.email c
            /\ Contact.createdAt d = Contact.createdAt c
            /\ length (contacts w') = length (contacts w))
  /\ NoDup (map Contact.email (contacts w')).
Proof.
  intros Hid Hc Hnd. unfold save_step. rewrite Hid.
  destruct contact as [c|].
  - unfold Contact_updateOne. intros [= <-].
    cbn [contacts with_contacts]. split.
    + rewrite records_updateOne. unfold email_key.
      rewrite (find_some_records _ _ c Hnd (eq_sym Hc)). simpl.
      rewrite Nat.eqb_refl. eexists. split; [reflexivity|]. simpl.
      split.
      * unfold set_path. rewrite (truthy_castString id Hid).
        destruct id; (discriminate || reflexivity).
      * intros c' [= <-]. unfold Contact.updateOne.
        now rewrite length_map.
    + now rewrite email_updateOne.
  - unfold bind, Contact_create, Contact.create.
    destruct (required_ok email && required_ok id) eqn:Ereq; [|discriminate].
    cbn [negb Contact.email].
    destruct (Contact.email_taken _ _) eqn:Etaken; [discriminate|].
    unfold ret. intros [= <-]. cbn [contacts with_contacts].
    apply andb_true_iff in Ereq. destruct Ereq as [Hmail _].
    assert (Ekey : Contact.castEmail email = email_key email).
    { unfold Contact.castEmail, email_key, required_ok in *.
      destruct (castString email) as [s|] eqn:Es; [|discriminate].
      simpl. destruct email; simpl in Es; try discriminate;
        injection Es as <-; reflexivity. }
    split.
    + rewrite records_for_app by exact Ekey.
      rewrite find_none_records by (symmetry; exact Hc). simpl.
      eexists. split; [reflexivity|]. simpl.
      split; [exact (truthy_castString id Hid) | discriminate].
    + rewrite map_app. simpl. apply NoDup_snoc; [exact Hnd|].
      now apply email_taken_false.
Qed.

Lemma resolve_contact_cached (env : Env) (registrant : Registrant)
    (email : jsval) (w : World) (i : string) :
  cached_id email (contacts w) = Some i ->
  resolve_contact env registrant email w = (Ok (Some (JStr i)), w).
Proof.
  intros H. destruct (cached_id_found _ _ _ H) as (c & Hf & Hg & Hj & Ht).
  unfold resolve_contact, bind, Contact_findOne. rewrite Hf.
  unfold id_missing_locally. rewrite Hj, Ht. reflexivity.
Qed.

Lemma resolve_contact_missing (env : Env) (registrant : Registrant)
    (email : jsval) (w : World) :
  cached_id email (contacts w) = None ->
  resolve_contact env registrant email w =
    resolve_remotely env registrant email
      (Contact.findOne (toString email) (contacts w)) w.
Proof.
  intros H. apply cached_id_missing in H.
  unfold resolve_contact, bind, Contact_findOne. now rewrite H.
Qed.

(** C4.  When the resolution of a registrant ends with an id, the cache
    holds exactly one record under the registrant's cleaned e-mail and
    that record carries the id; when a record was already stored under
    the e-mail it is that same record (same [_id], e-mail and creation
    date, and no row added), now linked.  The e-mail stays unique among
    the records.  For a string e-mail the key is the e-mail trimmed and
    lower-cased. *)
Theorem resolution_links_one_record
    (env : Env) (registrant : Registrant) (raw id : jsval) (w w' : World) :
  let email := clean_email raw in
  NoDup (map Contact.email (contacts w)) ->
  resolve_contact env registrant email w = (Ok (Some id), w') ->
  truthy id = true ->
  (exists d,
      records_for (email_key email) (contacts w') = [d]
      /\ Contact.ghlContactId d = Some (toString id)
      /\ forall c, Contact.findOne (toString email) (contacts w) = Some c ->
           Contact._id d = Contact._id c
           /\ Contact.email d = Contact.email c
           /\ Contact.createdAt d = Contact.createdAt c
           /\ length (contacts w') = length (contacts w))
  /\ NoDup (map Contact.email (contacts w'))
  /\ (forall s, raw = JStr s -> email_key email = Some (toLowerCase (trim s))).
Proof.
  intros email Hnd Hres Hid.
  assert (Hkey : forall s, raw = JStr s ->
                           email_key email = Some (toLowerCase (trim s))).
  { intros s ->. apply clean_email_string. }
  destruct (cached_id email (contacts w)) as [i|] eqn:Ec.
  - rewrite (resolve_contact_cached _ _ _ _ _ Ec) in Hres.
    injection Hres as <- <-.
    destruct (cached_id_found _ _ _ Ec) as (c & Hf & Hg & _ & _).
    split; [|split; [exact Hnd | exact Hkey]].
    exists c. split; [exact (find_some_records _ _ c Hnd Hf)|].
    split; [exact Hg|]. intros c' Hc'. rewrite Hf in Hc'.
    injection Hc' as <-. repeat split.
  - rewrite (resolve_contact_missing _ _ _ _ Ec), resolve_remotely_run in Hres.
    destruct (remote_chain env registrant email (remote w))
      as [[[id'|] calls] lines]; [|discriminate].
    unfold bind in Hres.
    destruct (save_step env registrant email _ id' (after calls lines w))
      as [[[]|e] w1] eqn:Es; [|discriminate].
    unfold ret in Hres. injection Hres as <- <-.
    destruct (save_step_contacts env registrant email id' _
                (after calls lines w) w1 Hid eq_refl Hnd Es) as [Hd Hnd'].
    split; [exact Hd | split; [exact Hnd' | exact Hkey]].
Qed.

(* ------------------------------------------------------------------ *)
(** ** The registration handler always returns *)

Lemma find_none_existsb {A : Type} (p : A -> bool) (l : list A) :
  find p l = None -> existsb p l = false.
Proof.
  induction l as [|a l IH]; simpl; [reflexivity|].
  destruct (p a); [discriminate | exact IH].
Qed.

Lemma save_step_returns (env : Env) (registrant : Registrant) (email id : jsval)
    (w : World) :
  truthy email = true ->
  exists w',
    save_step env registrant email
      (Contact.findOne (toString email) (contacts w)) id w = (Ok tt, w')
    /\ remote w' = remote w /\ console w' = console w
    /\ zoomEvents w' = zoomEvents w /\ settings w' = settings w.
Proof.
  intros He. unfold save_step.
  destruct (truthy id) eqn:Hid; [|exists w; now repeat split].
  destruct (Contact.findOne (toString email) (contacts w)) as [c|] eqn:Ef.
  - eexists. unfold Contact_updateOne. split; [reflexivity|]. now repeat split.
  - unfold bind, Contact_create, Contact.create.
    rewrite (truthy_required_ok _ He), (truthy_required_ok _ Hid).
    cbn [andb negb Contact.email]. unfold Contact.castEmail.
    rewrite (truthy_castString _ He). cbn [option_map].
    unfold Contact.email_taken.
    rewrite (find_none_existsb _ _ Ef).
    eexists. unfold ret. split; [reflexivity|]. now repeat split.
Qed.

Lemma resolve_contact_run (env : Env) (registrant : Registrant) (email : jsval)
    (w : World) :
  truthy email = true ->
  exists w',
    resolve_contact env registrant email w
      = (Ok (fst (fst (resolution env registrant email w))), w')
    /\ remote w' = remote w ++ snd (fst (resolution env registrant email w))
    /\ console w' = console w ++ snd (resolution env registrant email w)
    /\ zoomEvents w' = zoomEvents w /\ settings w' = settings w.
Proof.
  intros He. unfold resolution.
  destruct (cached_id email (contacts w)) as [i|] eqn:Ec.
  - exists w. rewrite (resolve_contact_cached _ _ _ _ _ Ec). simpl.
    now rewrite !app_nil_r.
  - rewrite (resolve_contact_missing _ _ _ _ Ec), resolve_remotely_run.
    destruct (remote_chain env registrant email (remote w))
      as [[[id|] calls] lines]; simpl.
    + destruct (save_step_returns env registrant email id
                  (after calls lines w) He) as (w' & Hs & Hr & Hc & Hz & Hg).
      exists w'. unfold bind. cbn [contacts after with_console with_remote] in Hs.
      rewrite Hs. unfold ret. split; [reflexivity|].
      rewrite Hr, Hc, Hz, Hg. now repeat split.
    + eexists. split; [reflexivity|]. now repeat split.
Qed.

Lemma propagate_frame (env : Env) (id : jsval) (w : World) :
  exists o w',
    propagate env id w = (o, w')
    /\ remote w' = remote w ++ propagation_calls env id (remote w) (settings w)
    /\ zoomEvents w' = zoomEvents w /\ settings w' = settings w
    /\ contacts w' = contacts w.
Proof.
  rewrite propagate_run. unfold propagation_calls. cbv zeta.
  destruct (ghl env (remote w) _) as [c | r].
  - destruct (workflow_id env) as [wf|].
    + destruct (ghl env (remote w ++ _) _); do 2 eexists;
        (split; [reflexivity|]); now repeat split.
    + do 2 eexists. split; [reflexivity|]. now repeat split.
  - do 2 eexists. split; [reflexivity|].
    destruct (workflow_id env); now repeat split.
Qed.

Lemma handleRegistrationEvent_run (env : Env) (payload : option ZoomPayload)
    (eventType : jsval) (w : World) :
  exists w',
    handleRegistrationEvent env payload eventType w = (Ok tt, w')
    /\ remote w' = remote w ++ registration_calls env payload w
    /\ zoomEvents w' = zoomEvents w /\ settings w' = settings w.
Proof.
  unfold handleRegistrationEvent, registration_calls.
  destruct (match payload with Some p => object p | None => None end)
    as [objectData|].
  2:{ exists w. unfold ret. now rewrite app_nil_r. }
  cbv zeta.
  destruct (truthy (clean_email (r_email (registrant_of objectData)))) eqn:He;
    cbn [negb].
  2:{ eexists. unfold console_warn. split; [reflexivity|]. simpl.
      now rewrite app_nil_r. }
  destruct (resolve_contact_run env (registrant_of objectData) _ w He)
    as (w1 & Hres & Hr & _ & Hz & Hs).
  unfold try_catch, bind. rewrite Hres.
  destruct (resolution env (registrant_of objectData) _ w)
    as [[[id|] calls] lines]; cbn [fst snd] in *.
  - destruct (propagate_frame env id w1) as (o & w2 & Hp & Hr2 & Hz2 & Hs2 & _).
    rewrite Hp. rewrite Hr, Hs in Hr2.
    destruct o as [[]|e].
    + exists w2. split; [reflexivity|]. rewrite Hr2, Hz2, Hs2, Hz, Hs.
      now rewrite app_assoc.
    + eexists. unfold console_error. split; [reflexivity|]. simpl.
      rewrite Hr2, Hz2, Hs2, Hz, Hs. now rewrite app_assoc.
  - exists w1. unfold ret. now repeat split.
Qed.

(* ------------------------------------------------------------------ *)
(** ** The event-source webhook *)

Lemma findOne_in_ledger (eventId : jsval) (l : list ZoomEvent.doc) :
  in_ledger eventId l = true
  <-> exists d, ZoomEvent.findOne (toString eventId) l = Some d.
Proof.
  unfold in_ledger, ZoomEvent.findOne. induction l as [|a l IH]; simpl.
  - split; [discriminate | intros [d [=]]].
  - destruct (String.eqb (ZoomEvent.eventId a) (toString eventId)); simpl.
    + split; [now exists a | reflexivity].
    + exact IH.
Qed.

Lemma not_in_ledger (eventId : jsval) (l : list ZoomEvent.doc) :
  in_ledger eventId l = false <-> ZoomEvent.findOne (toString eventId) l = None.
Proof.
  split; intros H.
  - destruct (ZoomEvent.findOne (toString eventId) l) as [d|] eqn:E; [|reflexivity].
    assert (T : in_ledger eventId l = true) by (apply findOne_in_ledger; eauto).
    congruence.
  - destruct (in_ledger eventId l) eqn:E; [|reflexivity].
    apply findOne_in_ledger in E. destruct E as [d E]. congruence.
Qed.

(** A successful insert leaves the identity in the ledger; an insert into
    a ledger that holds the identity fails on the unique index, once the
    document is valid. *)
Lemma create_in_ledger (id type mail : jsval) (t : Date)
    (l l' : list ZoomEvent.doc) :
  ZoomEvent.create id type mail t l = inr l' ->
  in_ledger id l = false /\ in_ledger id l' = true
  /\ l' = l ++ [ {| ZoomEvent.eventId := toString id;
                    ZoomEvent.eventType := toString type;
                    ZoomEvent.email := castString mail;
                    ZoomEvent.processedAt := t |} ].
Proof.
  unfold ZoomEvent.create, in_ledger.
  destruct (negb _); [discriminate|].
  destruct (existsb _ l) eqn:E; [discriminate|].
  intros [= <-]. split; [reflexivity|]. split; [|reflexivity].
  rewrite existsb_app. simpl. now rewrite String.eqb_refl, orb_true_r.
Qed.

Lemma create_duplicate (id type mail : jsval) (t : Date) (l : list ZoomEvent.doc) :
  in_ledger id l = true ->
  exists e, ZoomEvent.create id type mail t l = inl e.
Proof.
  unfold ZoomEvent.create, in_ledger. intros ->.
  destruct (negb _); eauto.
Qed.

(** The notifications that pass the gate: what the [try] block does from
    the "Idempotency Check" on. *)
Lemma zoom_webhook_try_admitted (between : World -> World) (env : Env)
    (req : ZoomRequest) :
  is_validation req = false -> signature_rejected env req = false ->
  zoom_webhook_try between env req =
    (duplicate <- ledger_step between env req ;;
     if duplicate : bool then ret duplicate_response else process_step env req).
Proof.
  unfold is_validation, signature_rejected, zoom_webhook_try.
  intros -> ->. reflexivity.
Qed.

Lemma process_step_run (env : Env) (req : ZoomRequest) (w : World) :
  exists w',
    process_step env req w = (Ok received_response, w')
    /\ remote w' = remote w ++ process_calls env req w
    /\ zoomEvents w' = zoomEvents w /\ settings w' = settings w.
Proof.
  unfold process_step, process_calls, bind.
  destruct (is_registration (event (zoom_body req))).
  - destruct (handleRegistrationEvent_run env (payload (zoom_body req))
                (event (zoom_body req)) w) as (w' & -> & Hr & Hz & Hs).
    exists w'. unfold ret. now repeat split.
  - exists w. unfold ret. now rewrite app_nil_r.
Qed.

(** The ledger step with nothing else running. *)
Lemma ledger_step_run (env : Env) (req : ZoomRequest) (w : World) :
  ledger_step (fun w => w) env req w =
    if truthy (deriveEventId req) then
      if in_ledger (deriveEventId req) (zoomEvents w) then (Ok true, w)
      else
        match ZoomEvent.create (deriveEventId req) (event (zoom_body req))
                (registrantEmail_of (payload (zoom_body req))) (now env)
                (zoomEvents w) with
        | inl e => (Throw e, w)
        | inr l => (Ok false, with_zoomEvents l w)
        end
    else (Ok false, w).
Proof.
  unfold ledger_step. destruct (truthy (deriveEventId req)); [|reflexivity].
  unfold bind, ZoomEvent_findOne, meanwhile, ret, ZoomEvent_create.
  destruct (in_ledger (deriveEventId req) (zoomEvents w)) eqn:E.
  - apply findOne_in_ledger in E. destruct E as [d ->]. reflexivity.
  - apply not_in_ledger in E. rewrite E.
    now destruct (ZoomEvent.create _ _ _ _ _).
Qed.

Lemma zoom_webhook_duplicate (env : Env) (req : ZoomRequest) (w : World) :
  is_validation req = false -> signature_rejected env req = false ->
  truthy (deriveEventId req) = true ->
  in_ledger (deriveEventId req) (zoomEvents w) = true ->
  zoom_webhook env req w = (duplicate_response, w).
Proof.
  intros Hv Hs Ht Hin. unfold zoom_webhook, zoom_webhook_at, respond.
  rewrite (zoom_webhook_try_admitted _ _ _ Hv Hs). unfold bind.
  now rewrite ledger_step_run, Ht, Hin.
Qed.

Lemma zoom_webhook_first (env : Env) (req : ZoomRequest) (w : World) :
  is_validation req = false -> signature_rejected env req = false ->
  truthy (deriveEventId req) = true ->
  in_ledger (deriveEventId req) (zoomEvents w) = false ->
  match ZoomEvent.create (deriveEventId req) (event (zoom_body req))
          (registrantEmail_of (payload (zoom_body req))) (now env)
          (zoomEvents w) with
  | inl e =>
      zoom_webhook env req w =
        ({| status := 500; body := ErrorBody "Internal server error" |},
         after [] [ConsoleError "Error processing webhook:"] w)
  | inr l =>
      exists w',
        zoom_webhook env req w = (received_response, w')
        /\ zoomEvents w' = l /\ settings w' = settings w
        /\ remote w' = remote w ++ process_calls env req w
  end.
Proof.
  intros Hv Hs Ht Hin. unfold zoom_webhook, zoom_webhook_at, respond.
  rewrite (zoom_webhook_try_admitted _ _ _ Hv Hs). unfold bind.
  rewrite ledger_step_run, Ht, Hin.
  destruct (ZoomEvent.create _ _ _ _ _) as [e | l].
  - unfold after, with_console, with_remote. simpl. now rewrite app_nil_r.
  - destruct (process_step_run env req (with_zoomEvents l w))
      as (w' & Hp & Hr & Hz & Hset).
    rewrite Hp. exists w'. repeat split; assumption.
Qed.

Lemma zoom_webhook_no_identity (env : Env) (req : ZoomRequest) (w : World) :
  is_validation req = false -> signature_rejected env req = false ->
  truthy (deriveEventId req) = false ->
  exists w',
    zoom_webhook env req w = (received_response, w')
    /\ zoomEvents w' = zoomEvents w /\ settings w' = settings w
    /\ remote w' = remote w ++ process_calls env req w.
Proof.
  intros Hv Hs Ht. unfold zoom_webhook, zoom_webhook_at, respond.
  rewrite (zoom_webhook_try_admitted _ _ _ Hv Hs). unfold bind.
  rewrite ledger_step_run, Ht.
  destruct (process_step_run env req w) as (w' & Hp & Hr & Hz & Hset).
  rewrite Hp. exists w'. repeat split; assumption.
Qed.

Lemma zoom_webhook_rejected (between : World -> World) (env : Env) (req : ZoomRequest)
    (w : World) :
  is_validation req = false -> signature_rejected env req = true ->
  zoom_webhook_at between env req w =
    ({| status := 401; body := ErrorBody "Invalid signature" |},
     after [] [ConsoleError "Invalid Zoom signature"] w).
Proof.
  unfold is_validation, signature_rejected, zoom_webhook_at, respond,
    zoom_webhook_try.
  intros -> ->. unfold bind, console_error, ret, after, with_console, with_remote.
  simpl. now rewrite app_nil_r.
Qed.

(** The validation challenge: 400 without a token or a secret, the signed
    token otherwise; signing a token that is not a string throws. *)
Lemma zoom_webhook_try_validation (between : World -> World) (env : Env)
    (req : ZoomRequest) (w : World) :
  is_validation req = true ->
  zoom_webhook_try between env req w =
    if negb (truthy (plainToken_of req))
       || negb (truthy (of_opt (ZOOM_SECRET_TOKEN (process_env env))))
    then (Ok {| status := 400; body := ErrorBody "Missing token or configuration" |}, w)
    else match plainToken_of req with
         | JStr token =>
             (Ok {| status := 200;
                    body := ChallengeBody token
                              (hmac_sha256_hex env
                                 (toString (of_opt (ZOOM_SECRET_TOKEN (process_env env))))
                                 token) |}, w)
         | _ => (Throw TypeError, w)
         end.
Proof.
  unfold is_validation, zoom_webhook_try, plainToken_of. intros ->.
  cbv zeta.
  destruct (negb _ || negb _); [reflexivity|].
  destruct (match payload (zoom_body req) with Some p => plainToken p
                                            | None => JUndefined end);
    reflexivity.
Qed.

(** The [try] block of a notification that passed the gate ends in one of
    three ways. *)
Lemma zoom_webhook_try_outcomes (between : World -> World) (env : Env)
    (req : ZoomRequest) (w : World) :
  is_validation req = false -> signature_rejected env req = false ->
  exists w',
    (exists e, ledger_step between env req w = (Throw e, w')
               /\ zoom_webhook_try between env req w = (Throw e, w'))
    \/ (ledger_step between env req w = (Ok true, w')
        /\ zoom_webhook_try between env req w = (Ok duplicate_response, w'))
    \/ (exists w1, ledger_step between env req w = (Ok false, w1)
                   /\ zoom_webhook_try between env req w = (Ok received_response, w')).
Proof.
  intros Hv Hs. rewrite (zoom_webhook_try_admitted _ _ _ Hv Hs). unfold bind.
  destruct (ledger_step between env req w) as [[[|]|e] w1].
  - exists w1. right. left. now split.
  - destruct (process_step_run env req w1) as (w' & Hp & _).
    exists w'. right. right. exists w1. now rewrite Hp.
  - exists w1. left. now exists e.
Qed.




Lemma ledger_step_lookup (between : World -> World) (env : Env) (req : ZoomRequest)
    (w : World) :
  truthy (deriveEventId req) = true ->
  let wb := between w in
  ledger_step between env req w =
    if in_ledger (deriveEventId req) (zoomEvents w) then (Ok true, wb)
    else
      match ZoomEvent.create (deriveEventId req) (event (zoom_body req))
              (registrantEmail_of (payload (zoom_body req))) (now env)
              (zoomEvents wb) with
      | inl e => (Throw e, wb)
      | inr l => (Ok false, with_zoomEvents l wb)
      end.
Proof.
  intros Ht wb. subst wb. unfold ledger_step. rewrite Ht.
  unfold bind, ZoomEvent_findOne, meanwhile, ret, ZoomEvent_create.
  destruct (in_ledger (deriveEventId req) (zoomEvents w)) eqn:E.
  - apply findOne_in_ledger in E. destruct E as [d ->]. reflexivity.
  - apply not_in_ledger in E. rewrite E.
    now destruct (ZoomEvent.create _ _ _ _ _).
Qed.

(** C3 (as amended).  The handler knows a duplicate only by the lookup
    that precedes the insert.  When the lookup finds the entry, the
    answer is 200 "Duplicate event" and no insert is attempted.  When the
    lookup finds nothing and the entry appears before the insert (another
    request inserted it meanwhile), the insert fails on the unique index
    and the failure is not reinterpreted: it reaches the [catch] of the
    handler, the answer is 500, and nothing but the console line is
    added to what the other request left. *)
Theorem raced_insert_answers_500 (between : World -> World) (env : Env)
    (req : ZoomRequest) (w : World) :
  is_validation req = false -> signature_rejected env req = false ->
  truthy (deriveEventId req) = true ->
  let wb := between w in
  (in_ledger (deriveEventId req) (zoomEvents w) = true ->
   zoom_webhook_at between env req w = (duplicate_response, wb))
  /\ (in_ledger (deriveEventId req) (zoomEvents w) = false ->
      in_ledger (deriveEventId req) (zoomEvents wb) = true ->
      required_ok (event (zoom_body req)) = true ->
      ZoomEvent.create (deriveEventId req) (event (zoom_body req))
        (registrantEmail_of (payload (zoom_body req))) (now env)
        (zoomEvents wb) = inl DuplicateKey
      /\ zoom_webhook_at between env req w =
           (internal_error,
            after [] [ConsoleError "Error processing webhook:"] wb)).
Proof.
  intros Hv Hs Ht wb.
  unfold zoom_webhook_at, respond.
  rewrite (zoom_webhook_try_admitted _ _ _ Hv Hs). unfold bind.
  rewrite (ledger_step_lookup _ _ _ _ Ht). cbv zeta. fold wb.
  split.
  - intros ->. reflexivity.
  - intros -> Hin Hreq.
    assert (Ec : ZoomEvent.create (deriveEventId req) (event (zoom_body req))
                   (registrantEmail_of (payload (zoom_body req))) (now env)
                   (zoomEvents wb) = inl DuplicateKey).
    { unfold ZoomEvent.create. rewrite (truthy_required_ok _ Ht), Hreq.
      unfold in_ledger in Hin. cbn [andb negb]. now rewrite Hin. }
    split; [exact Ec|]. rewrite Ec.
    unfold internal_error, after, with_console, with_remote. simpl.
    now rewrite app_nil_r.
Qed.

Lemma respond_status_500 (m : M Response) (msg : string) (w : World) :
  (forall r w', m w = (Ok r, w') -> status r <> 500%Z) ->
  status (fst (respond m msg w)) = 500%Z
  <-> exists e w', m w = (Throw e, w').
Proof.
  intros Hok. unfold respond. destruct (m w) as [[r|e] w'] eqn:E; simpl.
  - split; [intros H; now apply (Hok r w') in H | intros (e & w2 & [=])].
  - split; [eauto | reflexivity].
Qed.

(** The answers of the [try] block: 400 for a challenge without token or
    secret, 401 for a rejected signature, 200 otherwise. *)
Lemma zoom_webhook_try_answers (between : World -> World) (env : Env)
    (req : ZoomRequest) (w w' : World) (r : Response) :
  zoom_webhook_try between env req w = (Ok r, w') ->
  (status r = 400%Z /\ is_validation req = true
   /\ (truthy (plainToken_of req) = false
       \/ truthy (of_opt (ZOOM_SECRET_TOKEN (process_env env))) = false))
  \/ (status r = 401%Z /\ is_validation req = false
      /\ signature_rejected env req = true)
  \/ (status r = 200%Z
      /\ (is_validation req = true \/ signature_rejected env req = false)).
Proof.
  destruct (is_validation req) eqn:Hv.
  - rewrite (zoom_webhook_try_validation _ _ _ _ Hv).
    destruct (negb (truthy (plainToken_of req)) || _) eqn:E.
    + intros [= <- <-]. left. repeat split.
      apply orb_true_iff in E. now rewrite !negb_true_iff in E.
    + destruct (plainToken_of req); try discriminate.
      intros [= <- <-]. right. right. split; [reflexivity | now left].
  - destruct (signature_rejected env req) eqn:Hs.
    + intros H. right. left.
      pose proof (zoom_webhook_rejected between env req w Hv Hs) as Hr.
      unfold zoom_webhook_at, respond in Hr. rewrite H in Hr.
      injection Hr as -> _. now repeat split.
    + intros H. right. right.
      destruct (zoom_webhook_try_outcomes between env req w Hv Hs)
        as (w2 & [(e & _ & He) | [(_ & Hd) | (w1 & _ & Hr)]]);
        rewrite H in *; try discriminate.
      * injection Hd as -> _. split; [reflexivity | now right].
      * injection Hr as -> _. split; [reflexivity | now right].
Qed.

Lemma zoom_response_ignores_remote (between : World -> World) (env : Env)
    (g : list RemoteCall -> RemoteCall -> AxiosResult) (req : ZoomRequest)
    (w : World) :
  fst (zoom_webhook_at between (with_ghl g env) req w)
  = fst (zoom_webhook_at between env req w).
Proof.
  unfold zoom_webhook_at, respond.
  destruct (is_validation req) eqn:Hv.
  - rewrite !(zoom_webhook_try_validation _ _ _ _ Hv). reflexivity.
  - destruct (signature_rejected env req) eqn:Hs.
    + pose proof (zoom_webhook_rejected between env req w Hv Hs) as H1.
      pose proof (zoom_webhook_rejected between (with_ghl g env) req w Hv Hs) as H2.
      unfold zoom_webhook_at, respond in H1, H2.
      now rewrite H1, H2.
    + rewrite (zoom_webhook_try_admitted between env req Hv Hs).
      rewrite (zoom_webhook_try_admitted between (with_ghl g env) req Hv Hs).
      unfold bind.
      change (ledger_step between (with_ghl g env) req w)
        with (ledger_step between env req w).
      destruct (ledger_step between env req w) as [[[|]|e] w1];
        try reflexivity.
      destruct (process_step_run env req w1) as (wa & -> & _).
      destruct (process_step_run (with_ghl g env) req w1) as (wb & -> & _).
      reflexivity.
Qed.

(** *** The webhook over any behaviour of the database *)

Lemma on_mongoose (between : World -> World) (env : Env) (req : ZoomRequest) :
  OnStore.zoom_webhook_at (mongoose env) between env req
  = zoom_webhook_at between env req.
Proof. reflexivity. Qed.

Lemma on_mongoose_ledger_step (between : World -> World) (env : Env)
    (req : ZoomRequest) :
  OnStore.ledger_step (mongoose env) between req = ledger_step between env req.
Proof. reflexivity. Qed.

(** Whatever the database does, [handleRegistrationEvent] returns: what
    is thrown inside its [try] block ends in its [catch]. *)
Lemma any_store_handler_returns (db : Store) (env : Env)
    (payload : option ZoomPayload) (eventType : jsval) (w : World) :
  exists w', OnStore.handleRegistrationEvent db env payload eventType w = (Ok tt, w').
Proof.
  unfold OnStore.handleRegistrationEvent.
  destruct (match payload with Some p => object p | None => None end) as [o|];
    [|now exists w].
  cbv zeta. destruct (negb _); [eexists; reflexivity|].
  unfold try_catch.
  match goal with |- context [match ?m w with _ => _ end] =>
    destruct (m w) as [[[]|e] w1] end; eexists; reflexivity.
Qed.

Lemma any_store_process_step (db : Store) (env : Env) (req : ZoomRequest)
    (w : World) :
  exists w', OnStore.process_step db env req w = (Ok received_response, w').
Proof.
  unfold OnStore.process_step, bind.
  destruct (is_registration (event (zoom_body req))).
  - destruct (any_store_handler_returns db env (payload (zoom_body req))
                (event (zoom_body req)) w) as (w' & ->).
    now exists w'.
  - now exists w.
Qed.

Lemma any_store_validation (db : Store) (between : World -> World) (env : Env)
    (req : ZoomRequest) :
  is_validation req = true ->
  OnStore.zoom_webhook_try db between env req = zoom_webhook_try between env req.
Proof.
  unfold is_validation, OnStore.zoom_webhook_try, zoom_webhook_try.
  intros ->. reflexivity.
Qed.

Lemma any_store_rejected (db : Store) (between : World -> World) (env : Env)
    (req : ZoomRequest) :
  is_validation req = false -> signature_rejected env req = true ->
  OnStore.zoom_webhook_try db between env req = zoom_webhook_try between env req.
Proof.
  unfold is_validation, signature_rejected, OnStore.zoom_webhook_try,
    zoom_webhook_try.
  intros -> ->. reflexivity.
Qed.

Lemma any_store_admitted (db : Store) (between : World -> World) (env : Env)
    (req : ZoomRequest) :
  is_validation req = false -> signature_rejected env req = false ->
  OnStore.zoom_webhook_try db between env req =
    (duplicate <- OnStore.ledger_step db between req ;;
     if duplicate : bool then ret duplicate_response
     else OnStore.process_step db env req).
Proof.
  unfold is_validation, signature_rejected, OnStore.zoom_webhook_try.
  intros -> ->. reflexivity.
Qed.

(** The answer of the webhook, case by case. *)
Lemma any_store_answer (db : Store) (between : World -> World) (env : Env)
    (req : ZoomRequest) (w : World) :
  fst (OnStore.zoom_webhook_at db between env req w) =
    if is_validation req then
      if negb (truthy (plainToken_of req))
         || negb (truthy (of_opt (ZOOM_SECRET_TOKEN (process_env env))))
      then {| status := 400; body := ErrorBody "Missing token or configuration" |}
      else match plainToken_of req with
           | JStr token =>
               {| status := 200;
                  body := ChallengeBody token
                            (hmac_sha256_hex env
                               (toString (of_opt (ZOOM_SECRET_TOKEN (process_env env))))
                               token) |}
           | _ => internal_error
           end
    else if signature_rejected env req
         then {| status := 401; body := ErrorBody "Invalid signature" |}
         else match fst (OnStore.ledger_step db between req w) with
              | Ok true => duplicate_response
              | Ok false => received_response
              | Throw _ => internal_error
              end.
Proof.
  unfold OnStore.zoom_webhook_at, respond.
  destruct (is_validation req) eqn:Hv.
  - rewrite (any_store_validation db _ _ _ Hv),
      (zoom_webhook_try_validation _ _ _ _ Hv).
    destruct (negb _ || negb _); [reflexivity|].
    destruct (plainToken_of req); reflexivity.
  - destruct (signature_rejected env req) eqn:Hs.
    + rewrite (any_store_rejected db _ _ _ Hv Hs).
      pose proof (zoom_webhook_rejected between env req w Hv Hs) as H.
      unfold zoom_webhook_at, respond in H.
      destruct (zoom_webhook_try between env req w) as [[r|e] w'];
        now injection H as <- _.
    + rewrite (any_store_admitted db _ _ _ Hv Hs). unfold bind.
      destruct (OnStore.ledger_step db between req w) as [[[|]|e] w1];
        cbn [fst]; try reflexivity.
      destruct (any_store_process_step db env req w1) as (w' & ->).
      reflexivity.
Qed.

(** With the database of the models, the "Idempotency Check" throws
    exactly when the insert of the ledger entry is refused. *)
Lemma ledger_step_throws (between : World -> World) (env : Env)
    (req : ZoomRequest) (w : World) :
  (exists e w', ledger_step between env req w = (Throw e, w'))
  <-> truthy (deriveEventId req) = true
      /\ in_ledger (deriveEventId req) (zoomEvents w) = false
      /\ (required_ok (event (zoom_body req)) = false
          \/ in_ledger (deriveEventId req) (zoomEvents (between w)) = true).
Proof.
  destruct (truthy (deriveEventId req)) eqn:Ht.
  2:{ unfold ledger_step. rewrite Ht. unfold ret.
      split; [intros (e & w' & [=]) | intros ([=] & _)]. }
  rewrite (ledger_step_lookup between env req w Ht). cbv zeta.
  destruct (in_ledger (deriveEventId req) (zoomEvents w)) eqn:Hin.
  { split; [intros (e & w' & [=]) | intros (_ & [=] & _)]. }
  unfold ZoomEvent.create. rewrite (truthy_required_ok _ Ht). cbn [andb].
  fold (in_ledger (deriveEventId req) (zoomEvents (between w))).
  destruct (required_ok (event (zoom_body req))); cbn [negb].
  - destruct (in_ledger (deriveEventId req) (zoomEvents (between w))).
    + split; [intros _; now repeat split; try right | intros _; eauto].
    + split; [intros (e & w' & [=]) | intros (_ & _ & [[=] | [=]])].
  - split; [intros _; now repeat split; try left | intros _; eauto].
Qed.

(** The ways the webhook can end. *)
Lemma any_store_cases (db : Store) (between : World -> World) (env : Env)
    (req : ZoomRequest) (w : World) :
  let resp := fst (OnStore.zoom_webhook_at db between env req w) in
  let token := plainToken_of req in
  let secret := of_opt (ZOOM_SECRET_TOKEN (process_env env)) in
  (is_validation req = true
   /\ (truthy token = false \/ truthy secret = false)
   /\ resp = {| status := 400; body := ErrorBody "Missing token or configuration" |})
  \/ (is_validation req = true /\ truthy token = true /\ truthy secret = true
      /\ exists s, token = JStr s
           /\ resp = {| status := 200;
                        body := ChallengeBody s
                                  (hmac_sha256_hex env (toString secret) s) |})
  \/ (is_validation req = true /\ truthy token = true /\ truthy secret = true
      /\ (forall s, token <> JStr s) /\ resp = internal_error)
  \/ (is_validation req = false /\ signature_rejected env req = true
      /\ resp = {| status := 401; body := ErrorBody "Invalid signature" |})
  \/ (is_validation req = false /\ signature_rejected env req = false
      /\ exists b w1, OnStore.ledger_step db between req w = (Ok b, w1)
           /\ resp = if b : bool then duplicate_response else received_response)
  \/ (is_validation req = false /\ signature_rejected env req = false
      /\ (exists e w1, OnStore.ledger_step db between req w = (Throw e, w1))
      /\ resp = internal_error).
Proof.
  cbv zeta. rewrite any_store_answer.
  destruct (is_validation req) eqn:Hv.
  - destruct (truthy (plainToken_of req)) eqn:Etok; cbn [negb orb].
    2:{ left. repeat split. now left. }
    destruct (truthy (of_opt (ZOOM_SECRET_TOKEN (process_env env)))) eqn:Esec;
      cbn [negb].
    2:{ left. repeat split. now right. }
    destruct (plainToken_of req) as [| | b | n | s] eqn:Ep.
    5:{ right. left. repeat split. now exists s. }
    all: right; right; left; repeat split; discriminate.
  - destruct (signature_rejected env req) eqn:Hs.
    + do 3 right. left. now repeat split.
    + destruct (OnStore.ledger_step db between req w) as [[b|e] w1] eqn:El;
        cbn [fst].
      * do 4 right. left. repeat split. exists b, w1.
        split; [reflexivity | now destruct b].
      * do 5 right. repeat split. now exists e, w1.
Qed.

(** C8 (as amended).  Whatever the database and the remote API do and
    whatever else is running, the event-source webhook answers 200, 400,
    401 or 500.  It answers 400 exactly to a validation challenge that
    lacks its token or the secret, 401 exactly to a notification, not
    the challenge, whose signature is rejected, and 500 exactly when the
    challenge carries a token that is not a string or when the
    "Idempotency Check" throws; with the database of the models that is
    when the ledger entry is refused: the event type is missing or
    empty, or the identity was inserted while the handler waited.  Once
    the "Idempotency Check" has returned the answer is 200, "Duplicate
    event" or "Webhook received": no failure of the processing (remote
    API, contacts, settings) changes it, and no notification that lacks
    fields is answered 400. *)
Theorem webhook_statuses (db : Store) (between : World -> World) (env : Env)
    (req : ZoomRequest) (w : World) :
  let resp := fst (OnStore.zoom_webhook_at db between env req w) in
  let token := plainToken_of req in
  let secret := of_opt (ZOOM_SECRET_TOKEN (process_env env)) in
  (status resp = 200 \/ status resp = 400 \/ status resp = 401
   \/ status resp = 500)%Z
  /\ (status resp = 400%Z <->
      is_validation req = true
      /\ (truthy token = false \/ truthy secret = false))
  /\ (status resp = 401%Z <->
      is_validation req = false /\ signature_rejected env req = true)
  /\ (status resp = 500%Z <->
      (is_validation req = true /\ truthy token = true /\ truthy secret = true
       /\ forall s, token <> JStr s)
      \/ (is_validation req = false /\ signature_rejected env req = false
          /\ exists e w', OnStore.ledger_step db between req w = (Throw e, w')))
  /\ (is_validation req = false -> signature_rejected env req = false ->
      forall duplicate w1,
        OnStore.ledger_step db between req w = (Ok duplicate, w1) ->
        resp = if duplicate : bool then duplicate_response else received_response)
  /\ (forall g,
        fst (OnStore.zoom_webhook_at db between (with_ghl g env) req w) = resp)
  /\ (zoom_webhook_at between env req
      = OnStore.zoom_webhook_at (mongoose env) between env req
      /\ ((exists e w',
             OnStore.ledger_step (mongoose env) between req w = (Throw e, w'))
          <-> truthy (deriveEventId req) = true
              /\ in_ledger (deriveEventId req) (zoomEvents w) = false
              /\ (required_ok (event (zoom_body req)) = false
                  \/ in_ledger (deriveEventId req) (zoomEvents (between w))
                     = true))).
Proof.
  cbv zeta.
  split; [|split; [|split; [|split; [|split; [|split; [|split]]]]]].
  7:{ reflexivity. }
  7:{ rewrite on_mongoose_ledger_step. apply ledger_step_throws. }
  6:{ intros g. rewrite !any_store_answer. reflexivity. }
  all: destruct (any_store_cases db between env req w)
         as [(Hv & Hor & ->) | [(Hv & Ht & Hs & s & Hp & ->)
            | [(Hv & Ht & Hs & Hn & ->) | [(Hv & Hs & ->)
            | [(Hv & Hs & b & w1 & Hl & ->) | (Hv & Hs & (e & w1 & Hl) & ->)]]]]];
       try (destruct b);
       cbn [status internal_error duplicate_response received_response].
  (* the four statuses *)
  1-7: tauto.
  (* 400 *)
  1: now split.
  1-6: (split; [discriminate | intros [Hv' Hor']; try congruence;
                destruct Hor'; congruence]).
  (* 401 *)
  4: now split.
  1-6: (split; [discriminate | intros [Hv' Hs']; congruence]).
  (* 500 *)
  3: (split; [intros _; left; now repeat split | reflexivity]).
  6: (split; [intros _; right; repeat split; eauto | reflexivity]).
  1-5: (split; [discriminate
               | intros [(Hv' & Ht' & Hs' & Hn') | (Hv' & Hs' & e' & w' & He')];
                 try congruence;
                 try (destruct Hor; congruence);
                 try (exfalso; exact (Hn' s Hp))]).
  (* after the idempotency check *)
  all: intros Hv' Hs' d w2 Hd; try congruence.
  all: rewrite Hl in Hd; now injection Hd as <- _.
Qed.

(* ------------------------------------------------------------------ *)
(** ** The resolver and the remote API *)

Lemma remote_chain_calls (env : Env) (registrant : Registrant) (email : jsval)
    (history : list RemoteCall) :
  exists rest,
    snd (fst (remote_chain env registrant email history))
    = GetContacts email :: rest
    /\ (rest = [] \/ rest = [PostContact (create_payload env registrant)]).
Proof.
  unfold remote_chain. cbv zeta.
  destruct (ghl env history (GetContacts email)) as [[id|] | r]; simpl;
    eexists; split; try reflexivity; tauto.
Qed.

(** C5.  For a registrant e-mail the resolver is run on: when a local
    record is stored under the e-mail and carries an id, the resolver
    returns that id and leaves the world untouched (no remote call);
    otherwise (no record, or a record without id) its first remote call
    is the search by that e-mail, followed at most by one creation.  So
    it makes no remote call exactly when such a linked record exists. *)
Theorem cache_hit_skips_remote (env : Env) (registrant : Registrant)
    (email : jsval) (w w' : World) (r : Outcome (option jsval)) :
  truthy email = true ->
  resolve_contact env registrant email w = (r, w') ->
  (forall i, cached_id email (contacts w) = Some i ->
             r = Ok (Some (JStr i)) /\ w' = w)
  /\ (cached_id email (contacts w) = None ->
      exists rest,
        remote w' = remote w ++ GetContacts email :: rest
        /\ (rest = [] \/ rest = [PostContact (create_payload env registrant)]))
  /\ (remote w' = remote w <-> exists i, cached_id email (contacts w) = Some i).
Proof.
  intros He Hres.
  assert (Hhit : forall i, cached_id email (contacts w) = Some i ->
                           r = Ok (Some (JStr i)) /\ w' = w).
  { intros i Hi. rewrite (resolve_contact_cached _ _ _ _ _ Hi) in Hres.
    now injection Hres as <- <-. }
  assert (Hmiss : cached_id email (contacts w) = None ->
                  exists rest,
                    remote w' = remote w ++ GetContacts email :: rest
                    /\ (rest = [] \/
                        rest = [PostContact (create_payload env registrant)])).
  { intros Hn.
    destruct (resolve_contact_run env registrant email w He)
      as (w2 & Hrun & Hr & _).
    rewrite Hres in Hrun. injection Hrun as _ <-.
    unfold resolution in Hr. rewrite Hn in Hr.
    destruct (remote_chain_calls env registrant email (remote w))
      as (rest & Hc & Hrest).
    exists rest. now rewrite Hr, Hc. }
  split; [exact Hhit | split; [exact Hmiss|]].
  split.
  - intros Heq. destruct (cached_id email (contacts w)) as [i|] eqn:Ec;
      [now exists i|].
    destruct (Hmiss eq_refl) as (rest & Hr & _). rewrite Hr in Heq.
    apply (f_equal (@length _)) in Heq. rewrite length_app in Heq.
    simpl in Heq. lia.
  - intros [i Hi]. destruct (Hhit i Hi) as [_ ->]. reflexivity.
Qed.

(** C6.  With no id cached for the e-mail, a search that is rejected with
    anything but a 404 (a 403, a 5xx, no response at all) does not stop
    the resolver: it returns, having made the search and then the
    creation; and when that creation is rejected with a 400 whose body
    names an existing contact, the resolver returns that contact's id. *)
Theorem rejected_search_falls_back_to_creation
    (env : Env) (registrant : Registrant) (email : jsval) (w : World)
    (r : option AxiosResponse) :
  truthy email = true ->
  cached_id email (contacts w) = None ->
  ghl env (remote w) (GetContacts email) = AxFail r ->
  status_is (AxiosError r) 404 = false ->
  let c := PostContact (create_payload env registrant) in
  exists res w',
    resolve_contact env registrant email w = (Ok res, w')
    /\ remote w' = remote w ++ [GetContacts email; c]
    /\ forall r',
         ghl env (remote w ++ [GetContacts email]) c = AxFail (Some r') ->
         ar_status r' = 400%Z ->
         truthy (ar_meta_contactId r') = true ->
         res = Some (ar_meta_contactId r').
Proof.
  intros He Hc Hs H404 c.
  destruct (resolve_contact_run env registrant email w He)
    as (w' & Hrun & Hr & _).
  unfold resolution in Hrun, Hr. rewrite Hc in Hrun, Hr.
  unfold remote_chain in Hrun, Hr. cbv zeta in Hrun, Hr. rewrite Hs in Hrun, Hr.
  cbn [fst snd] in Hrun, Hr.
  eexists. exists w'. split; [exact Hrun|]. split; [exact Hr|].
  intros r' Hcr H400 Hmeta. fold c. rewrite Hcr.
  unfold create_id, conflict_id, status_is. simpl.
  now rewrite H400, Hmeta.
Qed.

(* ------------------------------------------------------------------ *)
(** ** The configuration webhook *)

Lemma ghl_webhook_try_accepted (env : Env) (data : GhlBody) :
  config_rejected data = false ->
  ghl_webhook_try env data =
    (tag_step env (g_zoom_tag (config_fields data)) ;;
     Contact_findOneAndUpdate env (config_filter data) (config_update env data) ;;
     ret contact_synced).
Proof.
  unfold config_rejected, config_email, config_contactId, ghl_webhook_try.
  cbv zeta. fold (config_fields data). intros ->. reflexivity.
Qed.

Lemma ghl_webhook_rejected (env : Env) (data : GhlBody) (w : World) :
  config_rejected data = true ->
  ghl_webhook env data w =
    ({| status := 400; body := ErrorBody "Missing email or contactId" |},
     after [] [ConsoleWarn "GHL Webhook missing email or contactId"] w).
Proof.
  unfold config_rejected, config_email, config_contactId, ghl_webhook, respond,
    ghl_webhook_try.
  cbv zeta. fold (config_fields data). intros ->.
  unfold bind, console_warn, ret, after, with_console, with_remote. simpl.
  now rewrite app_nil_r.
Qed.

Lemma tag_step_run (env : Env) (zoom_tag : jsval) (w : World) :
  tag_step env zoom_tag w
  = (Ok tt, with_settings (settings_after_tag env zoom_tag (settings w)) w).
Proof.
  unfold tag_step, settings_after_tag.
  assert (Hid : with_settings (settings w) w = w) by now destruct w.
  destruct (truthy zoom_tag); [|now rewrite Hid].
  unfold bind, Settings_findOne, Settings_findOneAndUpdate, ret.
  destruct (Settings.findOne "globalZoomTag" (settings w)) as [s|];
    [|reflexivity].
  destruct (js_eqb (Settings.value s) zoom_tag); simpl; [now rewrite Hid | reflexivity].
Qed.

(** An accepted configuration event: the tag logic, then the upsert,
    whose failure is the only way to a 500. *)
Lemma ghl_webhook_accepted (env : Env) (data : GhlBody) (w : World) :
  config_rejected data = false ->
  let w1 := with_settings
              (settings_after_tag env (g_zoom_tag (config_fields data))
                 (settings w)) w in
  ghl_webhook env data w =
    match Contact.findOneAndUpdate (next_id w) (config_filter data)
            (config_update env data) (now env) (contacts w) with
    | inl e =>
        (internal_error,
         after [] [ConsoleError "Error processing GHL webhook:"] w1)
    | inr (d, l) => (contact_synced, with_contacts l (S (next_id w)) w1)
    end.
Proof.
  intros Hacc. cbv zeta. unfold ghl_webhook, respond.
  rewrite (ghl_webhook_try_accepted _ _ Hacc). unfold bind.
  rewrite tag_step_run. unfold Contact_findOneAndUpdate.
  cbn [contacts next_id with_settings].
  destruct (Contact.findOneAndUpdate _ _ _ _ _) as [e | [d l]].
  - unfold internal_error, after, with_console, with_remote. simpl.
    now rewrite app_nil_r.
  - reflexivity.
Qed.

(* ------------------------------------------------------------------ *)
(** ** The global tag *)

Lemma js_eqb_eq (a b : jsval) : js_eqb a b = true -> a = b.
Proof.
  destruct a as [| | x | x | x], b as [| | y | y | y]; simpl; intros H;
    try discriminate; try reflexivity.
  - now apply Bool.eqb_prop in H; subst.
  - now apply Z.eqb_eq in H; subst.
  - now apply String.eqb_eq in H; subst.
Qed.

Lemma findOne_update_first (k : string) (v : jsval) (t : Date)
    (cs : list Settings.doc) (s : Settings.doc) :
  Settings.findOne k cs = Some s ->
  exists s', Settings.findOne k (Settings.update_first k v t cs) = Some s'
             /\ Settings.value s' = v.
Proof.
  unfold Settings.findOne. induction cs as [|d cs IH]; simpl; [discriminate|].
  destruct (String.eqb (Settings.key d) k) eqn:E; simpl.
  - intros _. rewrite E. eexists. split; reflexivity.
  - rewrite E. exact IH.
Qed.

Lemma find_app_none {A : Type} (p : A -> bool) (l l' : list A) :
  find p l = None -> find p (l ++ l') = find p l'.
Proof.
  induction l as [|a l IH]; simpl; [reflexivity|].
  destruct (p a); [discriminate | exact IH].
Qed.

Lemma findOne_upsert (k : string) (v : jsval) (t : Date) (cs : list Settings.doc) :
  exists s', Settings.findOne k (Settings.findOneAndUpdate k v t cs) = Some s'
             /\ Settings.value s' = v.
Proof.
  unfold Settings.findOneAndUpdate.
  destruct (Settings.findOne k cs) as [s|] eqn:E.
  - exact (findOne_update_first k v t cs s E).
  - unfold Settings.findOne in *. rewrite (find_app_none _ _ _ E). simpl.
    rewrite String.eqb_refl. eexists. split; reflexivity.
Qed.

(** After the tag logic ran for a tag, the stored global tag is that tag. *)
Lemma settings_after_tag_value (env : Env) (zoom_tag : jsval)
    (cs : list Settings.doc) :
  truthy zoom_tag = true ->
  exists s, Settings.findOne "globalZoomTag" (settings_after_tag env zoom_tag cs)
            = Some s /\ Settings.value s = zoom_tag.
Proof.
  intros Ht. unfold settings_after_tag. rewrite Ht.
  destruct (Settings.findOne "globalZoomTag" cs) as [s|] eqn:E.
  - destruct (js_eqb (Settings.value s) zoom_tag) eqn:Eq.
    + exists s. split; [exact E | now apply js_eqb_eq].
    + apply findOne_upsert.
  - apply findOne_upsert.
Qed.

Lemma registration_calls_tags (env : Env) (payload : option ZoomPayload)
    (w : World) (id : string) (tags : list jsval) :
  In (PostTags id tags) (registration_calls env payload w) ->
  tags = global_tags (settings w).
Proof.
  unfold registration_calls.
  destruct (match payload with Some p => object p | None => None end)
    as [o|]; [|intros []].
  cbv zeta. destruct (negb _); [intros []|].
  assert (Hres : forall c, In c (snd (fst (resolution env (registrant_of o)
                     (clean_email (r_email (registrant_of o))) w))) ->
                   forall i t, c <> PostTags i t).
  { unfold resolution.
    destruct (cached_id _ _); [intros c []|].
    destruct (remote_chain_calls env (registrant_of o)
                (clean_email (r_email (registrant_of o))) (remote w))
      as (rest & -> & [-> | ->]); intros c Hc i t ->; simpl in Hc;
      intuition discriminate. }
  destruct (resolution _ _ _ _) as [[[rid|] calls] lines]; cbn [fst snd] in Hres.
  - intros Hin. apply in_app_or in Hin. destruct Hin as [Hin | Hin].
    + exfalso. exact (Hres _ Hin id tags eq_refl).
    + unfold propagation_calls, tags_call, workflow_call in Hin. cbv zeta in Hin.
      destruct (ghl env _ _); destruct (workflow_id env); simpl in Hin;
        intuition (try discriminate); congruence.
  - intros Hin. exfalso. exact (Hres _ Hin id tags eq_refl).
Qed.

(** What the event-source webhook adds to the remote calls, and that it
    leaves the settings alone. *)
Lemma zoom_webhook_calls (env : Env) (req : ZoomRequest) (w : World) :
  exists new,
    remote (snd (zoom_webhook env req w)) = remote w ++ new
    /\ settings (snd (zoom_webhook env req w)) = settings w
    /\ (new = [] \/ new = process_calls env req w).
Proof.
  destruct (is_validation req) eqn:Hv.
  - exists []. unfold zoom_webhook, zoom_webhook_at, respond.
    rewrite (zoom_webhook_try_validation _ _ _ _ Hv).
    destruct (negb _ || negb _); [simpl; rewrite app_nil_r; tauto|].
    destruct (plainToken_of req); simpl; rewrite app_nil_r; tauto.
  - destruct (signature_rejected env req) eqn:Hs.
    { exists []. unfold zoom_webhook.
      rewrite (zoom_webhook_rejected _ _ _ _ Hv Hs). simpl.
      rewrite app_nil_r. tauto. }
    destruct (truthy (deriveEventId req)) eqn:Ht.
    + destruct (in_ledger (deriveEventId req) (zoomEvents w)) eqn:Hin.
      * exists []. rewrite (zoom_webhook_duplicate _ _ _ Hv Hs Ht Hin). simpl.
        rewrite app_nil_r. tauto.
      * pose proof (zoom_webhook_first env req w Hv Hs Ht Hin) as H.
        destruct (ZoomEvent.create _ _ _ _ _) as [e | l].
        -- exists []. rewrite H. simpl. rewrite !app_nil_r. tauto.
        -- destruct H as (w' & -> & _ & Hset & Hr).
           exists (process_calls env req w). simpl. tauto.
    + destruct (zoom_webhook_no_identity env req w Hv Hs Ht)
        as (w' & -> & _ & Hset & Hr).
      exists (process_calls env req w). simpl. tauto.
Qed.

Lemma tags_from_settings :
  (forall env req w,
     exists new,
       remote (snd (zoom_webhook env req w)) = remote w ++ new
       /\ forall id tags, In (PostTags id tags) new ->
                          tags = global_tags (settings w))
  /\ (forall cs,
        global_tags cs =
          [match Settings.findOne "globalZoomTag" cs with
           | Some s => if truthy (Settings.value s) then Settings.value s
                       else JStr "Zoom Registration"
           | None => JStr "Zoom Registration"
           end; JStr "zoom registered"])
  /\ (forall env data w,
        config_rejected data = false ->
        truthy (g_zoom_tag (config_fields data)) = true ->
        global_tags (settings (snd (ghl_webhook env data w)))
        = [g_zoom_tag (config_fields data); JStr "zoom registered"]).
Proof.
  split; [|split].
  - intros env req w.
    destruct (zoom_webhook_calls env req w) as (new & Hr & _ & Hnew).
    exists new. split; [exact Hr|]. intros id tags Hin.
    destruct Hnew as [-> | ->]; [destruct Hin|].
    unfold process_calls in Hin.
    destruct (is_registration _); [|destruct Hin].
    exact (registration_calls_tags _ _ _ _ _ Hin).
  - intros cs. unfold global_tags, js_or.
    destruct (Settings.findOne "globalZoomTag" cs) as [s|]; reflexivity.
  - intros env data w Hacc Ht.
    rewrite (ghl_webhook_accepted _ _ _ Hacc). cbv zeta.
    assert (Hs : settings (snd
              match Contact.findOneAndUpdate (next_id w) (config_filter data)
                      (config_update env data) (now env) (contacts w) with
              | inl _ =>
                  (internal_error,
                   after [] [ConsoleError "Error processing GHL webhook:"]
                     (with_settings
                        (settings_after_tag env (g_zoom_tag (config_fields data))
                           (settings w)) w))
              | inr (_, l) =>
                  (contact_synced,
                   with_contacts l (S (next_id w))
                     (with_settings
                        (settings_after_tag env (g_zoom_tag (config_fields data))
                           (settings w)) w))
              end) = settings_after_tag env (g_zoom_tag (config_fields data))
                       (settings w)).
    { destruct (Contact.findOneAndUpdate _ _ _ _ _) as [e | [d l]]; reflexivity. }
    rewrite Hs.
    destruct (settings_after_tag_value env _ (settings w) Ht) as (s & Hf & Hv).
    unfold global_tags, js_or. now rewrite Hf, Hv, Ht.
Qed.

(** The resolution posts no tags. *)
Lemma resolution_no_tags (env : Env) (registrant : Registrant) (email : jsval)
    (w : World) :
  filter is_tagging (snd (fst (resolution env registrant email w))) = [].
Proof.
  unfold resolution. destruct (cached_id _ _); [reflexivity|].
  destruct (remote_chain_calls env registrant email (remote w))
    as (rest & -> & [-> | ->]); reflexivity.
Qed.

(** A registration whose contact resolves posts the tags once. *)
Lemma registration_tagging (env : Env) (payload : option ZoomPayload)
    (w : World) (o : ZoomObject) (id : jsval) :
  match payload with Some p => object p | None => None end = Some o ->
  truthy (clean_email (r_email (registrant_of o))) = true ->
  fst (resolve_contact env (registrant_of o)
         (clean_email (r_email (registrant_of o))) w) = Ok (Some id) ->
  filter is_tagging (registration_calls env payload w)
  = [tags_call (settings w) id].
Proof.
  intros Ho He Hres. unfold registration_calls. rewrite Ho. cbv zeta.
  rewrite He. cbn [negb].
  destruct (resolve_contact_run env (registrant_of o) _ w He) as (w' & Hrun & _).
  rewrite Hrun in Hres. cbn [fst] in Hres. injection Hres as Hid.
  pose proof (resolution_no_tags env (registrant_of o)
                (clean_email (r_email (registrant_of o))) w) as Hno.
  destruct (resolution _ _ _ _) as [[rid calls] lines]. cbn [fst snd] in *.
  subst rid. rewrite filter_app, Hno. unfold propagation_calls. cbv zeta.
  destruct (ghl env _ _); destruct (workflow_id env); reflexivity.
Qed.

(** A notification answered "Webhook received" has been processed. *)
Lemma zoom_webhook_received (env : Env) (req : ZoomRequest) (w : World) :
  fst (zoom_webhook env req w) = received_response ->
  remote (snd (zoom_webhook env req w)) = remote w ++ process_calls env req w.
Proof.
  destruct (is_validation req) eqn:Hv.
  - unfold zoom_webhook, zoom_webhook_at, respond.
    rewrite (zoom_webhook_try_validation _ _ _ _ Hv).
    destruct (negb _ || negb _); [discriminate|].
    destruct (plainToken_of req); discriminate.
  - destruct (signature_rejected env req) eqn:Hs.
    { unfold zoom_webhook. rewrite (zoom_webhook_rejected _ _ _ _ Hv Hs).
      discriminate. }
    destruct (truthy (deriveEventId req)) eqn:Ht.
    + destruct (in_ledger (deriveEventId req) (zoomEvents w)) eqn:Hin.
      * rewrite (zoom_webhook_duplicate _ _ _ Hv Hs Ht Hin). discriminate.
      * pose proof (zoom_webhook_first env req w Hv Hs Ht Hin) as H.
        destruct (ZoomEvent.create _ _ _ _ _) as [e | l].
        -- rewrite H. discriminate.
        -- destruct H as (w' & -> & _ & _ & Hr). intros _. exact Hr.
    + destruct (zoom_webhook_no_identity env req w Hv Hs Ht)
        as (w' & -> & _ & _ & Hr). intros _. exact Hr.
Qed.

(** C7.  A registration that the webhook processes and whose contact
    resolves is tagged, in that run, with one tag call for the resolved
    id: the global tag read from the settings as they are when the
    event is handled, the stored value when one (truthy) is stored and
    the fixed "Zoom Registration" when not, followed by the literal
    "zoom registered".  No other tag call is ever posted.  So once the
    configuration webhook has taken a tag, the next registration is
    tagged with that tag. *)
Theorem tags_follow_the_stored_setting :
  (forall env req w o id,
     fst (zoom_webhook env req w) = received_response ->
     is_registration (event (zoom_body req)) = true ->
     match payload (zoom_body req) with Some p => object p | None => None end
     = Some o ->
     truthy (clean_email (r_email (registrant_of o))) = true ->
     fst (resolve_contact env (registrant_of o)
            (clean_email (r_email (registrant_of o))) w) = Ok (Some id) ->
     exists new tag,
       remote (snd (zoom_webhook env req w)) = remote w ++ new
       /\ filter is_tagging new
          = [PostTags (toString id) [tag; JStr "zoom registered"]]
       /\ match Settings.findOne "globalZoomTag" (settings w) with
          | Some s => tag = if truthy (Settings.value s) then Settings.value s
                            else JStr "Zoom Registration"
          | None => tag = JStr "Zoom Registration"
          end)
  /\ (forall env req w,
        exists new,
          remote (snd (zoom_webhook env req w)) = remote w ++ new
          /\ forall id tags, In (PostTags id tags) new ->
               tags = [js_or (match Settings.findOne "globalZoomTag" (settings w) with
                              | Some s => Settings.value s
                              | None => JUndefined
                              end) (JStr "Zoom Registration");
                       JStr "zoom registered"])
  /\ (forall env env' data req w o id,
        config_rejected data = false ->
        truthy (g_zoom_tag (config_fields data)) = true ->
        let w1 := snd (ghl_webhook env data w) in
        fst (zoom_webhook env' req w1) = received_response ->
        is_registration (event (zoom_body req)) = true ->
        match payload (zoom_body req) with Some p => object p | None => None end
        = Some o ->
        truthy (clean_email (r_email (registrant_of o))) = true ->
        fst (resolve_contact env' (registrant_of o)
               (clean_email (r_email (registrant_of o))) w1) = Ok (Some id) ->
        exists new,
          remote (snd (zoom_webhook env' req w1)) = remote w1 ++ new
          /\ filter is_tagging new
             = [PostTags (toString id)
                  [g_zoom_tag (config_fields data); JStr "zoom registered"]]).
Proof.
  destruct tags_from_settings as (HA & HB & HC).
  assert (H1 : forall env req w o id,
             fst (zoom_webhook env req w) = received_response ->
             is_registration (event (zoom_body req)) = true ->
             match payload (zoom_body req) with
             | Some p => object p | None => None end = Some o ->
             truthy (clean_email (r_email (registrant_of o))) = true ->
             fst (resolve_contact env (registrant_of o)
                    (clean_email (r_email (registrant_of o))) w) = Ok (Some id) ->
             remote (snd (zoom_webhook env req w))
             = remote w ++ process_calls env req w
             /\ filter is_tagging (process_calls env req w)
                = [PostTags (toString id) (global_tags (settings w))]).
  { intros env req w o id Hrec Hreg Ho He Hres.
    split; [exact (zoom_webhook_received env req w Hrec)|].
    unfold process_calls. rewrite Hreg.
    exact (registration_tagging env _ w o id Ho He Hres). }
  split; [|split].
  - intros env req w o id Hrec Hreg Ho He Hres.
    destruct (H1 env req w o id Hrec Hreg Ho He Hres) as (Hr & Hf).
    exists (process_calls env req w). eexists.
    split; [exact Hr|]. split; [exact Hf|].
    unfold js_or. destruct (Settings.findOne "globalZoomTag" (settings w));
      reflexivity.
  - exact HA.
  - intros env env' data req w o id Hacc Ht w1 Hrec Hreg Ho He Hres.
    destruct (H1 env' req w1 o id Hrec Hreg Ho He Hres) as (Hr & Hf).
    exists (process_calls env' req w1). split; [exact Hr|].
    rewrite Hf. subst w1. now rewrite (HC env data w Hacc Ht).
Qed.

(* ------------------------------------------------------------------ *)
(** ** Workflow enrolment *)

Lemma append_assoc (x y z : string) : ((x ++ y) ++ z = x ++ y ++ z)%string.
Proof. induction x as [|c x IH]; simpl; [reflexivity | now rewrite IH]. Qed.

Lemma eventStartTime_offset (d : Date) :
  ends_with (eventStartTime d) "+00:00" /\ ~ ends_with (eventStartTime d) "Z".
Proof.
  assert (H : ends_with (eventStartTime d) "+00:00").
  { unfold ends_with, eventStartTime. cbv zeta.
    eexists. rewrite <- !append_assoc. reflexivity. }
  split; [exact H|]. intros [q Hq]. destruct H as [p Hp].
  rewrite Hp in Hq.
  change (p ++ "+00:00")%string with (p ++ "+00:0" ++ "0")%string in Hq.
  rewrite <- append_assoc in Hq.
  apply append_split_suffix in Hq; [|reflexivity].
  destruct Hq as [_ Hq]. discriminate.
Qed.

(** C10.  With a workflow configured, once the tags of a contact are
    posted the enrolment is posted next, with a timestamp that ends in
    "+00:00" and not in "Z"; whether the enrolment is accepted or not,
    the step returns normally, the tag call stays made and the stores
    are untouched: a rejected enrolment only adds two console lines.
    The answer of the webhook is the same however the remote API takes
    the enrolment. *)
Theorem enrolment_failure_is_swallowed (env : Env) (id : jsval) (w : World)
    (wf : string) (a : option jsval) :
  workflow_id env = Some wf ->
  ghl env (remote w) (tags_call (settings w) id) = AxOk a ->
  let t := tags_call (settings w) id in
  let c := PostWorkflow (toString id) wf (eventStartTime (now env)) in
  propagate env id w
  = (Ok tt, after [t; c] (workflow_lines (ghl env (remote w ++ [t]) c)) w)
  /\ ends_with (eventStartTime (now env)) "+00:00"
  /\ ~ ends_with (eventStartTime (now env)) "Z"
  /\ (forall g req w0,
        fst (zoom_webhook (with_ghl g env) req w0)
        = fst (zoom_webhook env req w0)).
Proof.
  intros Hwf Ht t c.
  split; [|split; [apply eventStartTime_offset|
           split; [apply eventStartTime_offset|
                   intros g req w0; apply zoom_response_ignores_remote]]].
  subst t c. rewrite propagate_run. cbv zeta. rewrite Ht, Hwf.
  unfold workflow_call.
  destruct (ghl env (remote w ++ _) _); reflexivity.
Qed.

(* ------------------------------------------------------------------ *)
(** ** The contact upsert of the configuration webhook *)

Lemma findOneAndUpdate_ok (fresh : nat) (f : Contact.filter) (u : Contact.update)
    (t : Date) (cs l : list Contact.doc) (d : Contact.doc) :
  Contact.findOneAndUpdate fresh f u t cs = inr (d, l) ->
  In d l
  /\ d = Contact.apply_update u
           (match Contact.find_by f cs with
            | Some d0 => d0
            | None => Contact.seed fresh f t
            end)
  /\ match Contact.find_by f cs with
     | Some d0 => In d0 cs /\ Contact._id d = Contact._id d0
                  /\ length l = length cs
     | None => l = cs ++ [d]
     end
  /\ (forall x, In x cs -> Contact._id x <> Contact._id d -> In x l)
  /\ (forall x, In x l -> x = d \/ In x cs).
Proof.
  unfold Contact.findOneAndUpdate.
  destruct (Contact.find_by f cs) as [d0|] eqn:Ef.
  - destruct (Contact.email_taken _ _); [discriminate|].
    intros [= <- <-].
    assert (Hin : In d0 cs).
    { destruct f; simpl in Ef; exact (proj1 (find_some _ _ Ef)). }
    unfold Contact.replace. cbn [Contact.apply_update Contact._id].
    repeat split.
    + apply in_map_iff. exists d0. now rewrite Nat.eqb_refl.
    + exact Hin.
    + apply length_map.
    + intros x Hx Hne. cbn [Contact.apply_update Contact._id] in Hne.
      apply in_map_iff. exists x.
      destruct (Nat.eqb (Contact._id x) (Contact._id d0)) eqn:E;
        [apply Nat.eqb_eq in E; contradiction|].
      now split.
    + intros x Hx. apply in_map_iff in Hx. destruct Hx as (y & Hy & Hiny).
      destruct (Nat.eqb (Contact._id y) (Contact._id d0)); subst; tauto.
  - destruct (Contact.email_taken _ _); [discriminate|].
    intros [= <- <-]. repeat split.
    + apply in_or_app. right. now left.
    + intros x Hx _. apply in_or_app. now left.
    + intros x Hx. apply in_app_or in Hx. destruct Hx as [Hx | [<- | []]]; tauto.
Qed.

Lemma string_of_int_head (n : Z) :
  exists c t, NilZero.string_of_int (Z.to_int n) = String c t
              /\ is_space c = false.
Proof.
  unfold NilZero.string_of_int, NilZero.string_of_uint.
  destruct (Z.to_int n) as [d | d]; destruct d; simpl;
    do 2 eexists; split; reflexivity.
Qed.

(** What the [email] path stores for a sanitized e-mail is never the
    empty string. *)
Lemma sanitized_email_not_empty (raw : jsval) :
  Contact.castEmail (sanitize_email raw) <> Some ""%string.
Proof.
  unfold Contact.castEmail, Contact.emailSetter.
  destruct raw as [| | [|] | n | s]; simpl; try discriminate.
  - destruct (string_of_int_head n) as (c & t & -> & Hc).
    destruct (trim_head c t Hc) as [t' ->]. discriminate.
  - destruct (String.eqb (trim s) "") eqn:E; simpl; [discriminate|].
    apply String.eqb_neq in E. intros [= H].
    apply (proj1 (toLowerCase_empty _)) in H. exact (E H).
Qed.

(** On a cleaned e-mail the setters of the [email] path change nothing,
    so that [required] holds of the value given exactly when it holds
    of the value stored. *)
Lemma create_validates_cleaned (raw : jsval) :
  match Contact.castEmail (clean_email raw) with
  | Some stored => negb (String.eqb stored "")
  | None => false
  end = required_ok (clean_email raw).
Proof.
  unfold Contact.castEmail, required_ok, clean_email, js_or.
  destruct raw as [| | [|] | n | s]; try reflexivity.
  - destruct (truthy (JNum n)); [|reflexivity].
    cbn [castString option_map toString]. unfold Contact.emailSetter.
    destruct (string_of_int_head n) as (c & t & -> & Hc).
    destruct (trim_head c t Hc) as [t' ->]. reflexivity.
  - destruct (truthy (JStr s)); cbn [castString option_map toString];
      [|reflexivity].
    fold (Contact.emailSetter s). now rewrite emailSetter_idem.
Qed.

Lemma sanitize_email_blank (s : string) :
  trim s = ""%string -> sanitize_email (JStr s) = JUndefined.
Proof. intros H. simpl. now rewrite H. Qed.

Lemma sanitize_email_string (raw : jsval) (s : string) :
  sanitize_email raw = JStr s -> trim s <> ""%string.
Proof.
  destruct raw as [| | b | n | s0]; simpl; try discriminate.
  destruct (String.eqb (trim s0) "") eqn:E; [discriminate|].
  intros [= <-]. now apply String.eqb_neq.
Qed.

Lemma config_rejected_iff (data : GhlBody) :
  config_rejected data = true
  <-> truthy (config_email data) = false /\ truthy (config_contactId data) = false.
Proof.
  unfold config_rejected. rewrite andb_true_iff, !negb_true_iff. tauto.
Qed.

Lemma config_filter_key (data : GhlBody) :
  config_filter data =
    if truthy (config_contactId data)
    then Contact.ByGhlContactId (toString (config_contactId data))
    else Contact.ByEmail (toString (config_email data)).
Proof. reflexivity. Qed.

Lemma apply_update_key (env : Env) (data : GhlBody) (base : Contact.doc) :
  config_rejected data = false ->
  let d := Contact.apply_update (config_update env data) base in
  (truthy (config_contactId data) = true ->
   Contact.ghlContactId d = Some (toString (config_contactId data)))
  /\ (truthy (config_contactId data) = false ->
      Contact.email d = email_key (config_email data)).
Proof.
  intros Hacc d. subst d. cbn [Contact.apply_update Contact.ghlContactId
    Contact.email config_update Contact.u_ghlContactId Contact.u_email].
  split.
  - intros Ht. unfold set_path. rewrite (truthy_castString _ Ht).
    destruct (config_contactId data); (discriminate || reflexivity).
  - intros Hf. unfold config_rejected in Hacc. rewrite Hf in Hacc.
    cbn [negb andb] in Hacc. rewrite andb_true_r in Hacc.
    apply negb_false_iff in Hacc.
    unfold Contact.set_email, Contact.castEmail, email_key.
    rewrite (truthy_castString _ Hacc).
    destruct (config_email data); (discriminate || reflexivity).
Qed.

Lemma apply_update_email (env : Env) (data : GhlBody) (base : Contact.doc) :
  Contact.email (Contact.apply_update (config_update env data) base) = Some ""%string ->
  config_email data = JUndefined /\ Contact.email base = Some ""%string.
Proof.
  cbn [Contact.apply_update Contact.email config_update Contact.u_email].
  unfold Contact.set_email, config_email.
  pose proof (sanitized_email_not_empty (g_email (config_fields data))) as Hne.
  destruct (sanitize_email (g_email (config_fields data))) eqn:E;
    try (intros H; contradiction).
  now split.
Qed.

(** X17.  The configuration webhook turns a blank string e-mail into an
    absent one; it answers 400 exactly when the e-mail so normalized and
    the contact id are both absent, and then touches neither contacts
    nor settings; otherwise it runs one upsert on the contacts, filtered
    by the contact id when there is one and by the e-mail when not, and
    answers 200 when the upsert goes through and 500 when the store
    refuses it.  After a 200 the store holds a record under that key:
    the record that matched the key, updated in place, or one new
    record; the other records are as they were.  No record gets the
    empty string as its e-mail. *)
Theorem configuration_intake (env : Env) (data : GhlBody) (w : World) :
  let email := config_email data in
  let contactId := config_contactId data in
  let key := if truthy contactId
             then Contact.ByGhlContactId (toString contactId)
             else Contact.ByEmail (toString email) in
  let resp := fst (ghl_webhook env data w) in
  let w' := snd (ghl_webhook env data w) in
  (forall s, g_email (config_fields data) = JStr s -> trim s = ""%string ->
             email = JUndefined)
  /\ (forall s, email = JStr s -> trim s <> ""%string)
  /\ (status resp = 400%Z <-> truthy email = false /\ truthy contactId = false)
  /\ (status resp = 400%Z ->
      contacts w' = contacts w /\ settings w' = settings w)
  /\ (status resp <> 400%Z ->
      match Contact.findOneAndUpdate (next_id w) key (config_update env data)
              (now env) (contacts w) with
      | inr (d, l) => resp = contact_synced /\ contacts w' = l
      | inl _ => resp = internal_error /\ contacts w' = contacts w
      end)
  /\ (status resp = 200%Z ->
      exists d,
        In d (contacts w')
        /\ (truthy contactId = true ->
            Contact.ghlContactId d = Some (toString contactId))
        /\ (truthy contactId = false -> Contact.email d = email_key email)
        /\ match Contact.find_by key (contacts w) with
           | Some d0 => In d0 (contacts w) /\ Contact._id d = Contact._id d0
                        /\ length (contacts w') = length (contacts w)
           | None => contacts w' = contacts w ++ [d]
           end
        /\ (forall x, In x (contacts w) -> Contact._id x <> Contact._id d ->
                      In x (contacts w')))
  /\ (forall d, In d (contacts w') -> Contact.email d = Some ""%string ->
                exists d0, In d0 (contacts w) /\ Contact.email d0 = Some ""%string).
Proof.
  cbv zeta.
  split; [intros s Hs Ht; unfold config_email; rewrite Hs;
          now apply sanitize_email_blank|].
  split; [intros s Hs; exact (sanitize_email_string _ _ Hs)|].
  destruct (config_rejected data) eqn:Hrej.
  - rewrite (ghl_webhook_rejected env data w Hrej). cbn [fst snd status].
    split; [split; [intros _; now apply config_rejected_iff | reflexivity]|].
    split; [intros _; now split|].
    split; [intros H; now contradiction H|].
    split; [discriminate|].
    intros d Hd He. now exists d.
  - rewrite (ghl_webhook_accepted env data w Hrej). cbv zeta.
    change (if truthy (config_contactId data)
            then Contact.ByGhlContactId (toString (config_contactId data))
            else Contact.ByEmail (toString (config_email data)))
      with (config_filter data).
    destruct (Contact.findOneAndUpdate (next_id w) (config_filter data)
                (config_update env data) (now env) (contacts w))
      as [e | [d l]] eqn:Eu; cbn [fst snd status internal_error contact_synced].
    + split; [split; [discriminate|]|].
      { intros H. apply config_rejected_iff in H. congruence. }
      split; [discriminate|]. split; [intros _; now split|].
      split; [discriminate|]. intros d Hd He. now exists d.
    + destruct (findOneAndUpdate_ok _ _ _ _ _ _ _ Eu)
        as (Hin & Hd & Hfind & Hothers & Hfrom).
      split; [split; [discriminate|]|].
      { intros H. apply config_rejected_iff in H. congruence. }
      split; [discriminate|]. split; [intros _; now split|].
      split.
      * intros _. exists d. cbn [contacts with_contacts with_settings].
        split; [exact Hin|].
        destruct (apply_update_key env data
                    (match Contact.find_by (config_filter data) (contacts w) with
                     | Some d0 => d0
                     | None => Contact.seed (next_id w) (config_filter data) (now env)
                     end) Hrej) as [Hk1 Hk2].
        cbv zeta in Hk1, Hk2. rewrite <- Hd in Hk1, Hk2.
        split; [exact Hk1|]. split; [exact Hk2|]. split; [exact Hfind | exact Hothers].
      * cbn [contacts with_contacts with_settings]. intros x Hx He.
        destruct (Hfrom x Hx) as [-> | Hold]; [|now exists x].
        rewrite Hd in He. apply apply_update_email in He.
        destruct He as [Hundef Hbase].
        destruct (Contact.find_by (config_filter data) (contacts w))
          as [d0|] eqn:Ef.
        -- exists d0. split; [tauto | exact Hbase].
        -- exfalso. unfold Contact.seed in Hbase. cbn [Contact.email] in Hbase.
           rewrite config_filter_key in Hbase.
           destruct (truthy (config_contactId data)) eqn:Hc; [discriminate|].
           unfold config_rejected in Hrej. rewrite Hc, Hundef in Hrej.
           discriminate.
Qed.

(* ------------------------------------------------------------------ *)
(** ** The contact cache stays well formed *)

Section Keeps.

Variable P : World -> Prop.

Lemma keeps_ret {A : Type} (a : A) : keeps P (ret a).
Proof. intros w H. exact H. Qed.

Lemma keeps_throw {A : Type} (e : Exn) : keeps P (@throw A e).
Proof. intros w H. exact H. Qed.

Lemma keeps_bind {A B : Type} (m : M A) (k : A -> M B) :
  keeps P m -> (forall a, keeps P (k a)) -> keeps P (bind m k).
Proof.
  intros Hm Hk w H. unfold bind. specialize (Hm w H).
  destruct (m w) as [[a|e] w1]; simpl in *; [now apply Hk | exact Hm].
Qed.

Lemma keeps_try_catch {A : Type} (m : M A) (h : Exn -> M A) :
  keeps P m -> (forall e, keeps P (h e)) -> keeps P (try_catch m h).
Proof.
  intros Hm Hh w H. unfold try_catch. specialize (Hm w H).
  destruct (m w) as [[a|e] w1]; simpl in *; [exact Hm | now apply Hh].
Qed.

End Keeps.

Lemma cache_ok_after (calls : list RemoteCall) (lines : list LogLine) (w : World) :
  cache_ok (after calls lines w) <-> cache_ok w.
Proof. reflexivity. Qed.

Lemma keeps_console_error (msg : string) : keeps cache_ok (console_error msg).
Proof. intros w H. exact H. Qed.

Lemma keeps_console_warn (msg : string) : keeps cache_ok (console_warn msg).
Proof. intros w H. exact H. Qed.

Lemma keeps_ghlAxios (env : Env) (c : RemoteCall) : keeps cache_ok (ghlAxios env c).
Proof. intros w H. unfold ghlAxios. now destruct (ghl env (remote w) c). Qed.

Lemma keeps_meanwhile_nothing : keeps cache_ok (meanwhile (fun w => w)).
Proof. intros w H. exact H. Qed.

Lemma keeps_Settings_findOne (k : string) : keeps cache_ok (Settings_findOne k).
Proof. intros w H. exact H. Qed.

Lemma keeps_Settings_findOneAndUpdate (env : Env) (k : string) (v : jsval) :
  keeps cache_ok (Settings_findOneAndUpdate env k v).
Proof. intros w H. exact H. Qed.

Lemma keeps_ZoomEvent_findOne (q : string) : keeps cache_ok (ZoomEvent_findOne q).
Proof. intros w H. exact H. Qed.

Lemma keeps_ZoomEvent_create (env : Env) (a b c : jsval) :
  keeps cache_ok (ZoomEvent_create env a b c).
Proof.
  intros w H. unfold ZoomEvent_create.
  now destruct (ZoomEvent.create _ _ _ _ _).
Qed.

Lemma keeps_Contact_findOne (q : string) : keeps cache_ok (Contact_findOne q).
Proof. intros w H. exact H. Qed.

Lemma id_updateOne (id : nat) (v : jsval) (cs : list Contact.doc) :
  map Contact._id (Contact.updateOne id v cs) = map Contact._id cs.
Proof.
  unfold Contact.updateOne. rewrite map_map. apply map_ext.
  intros d. now destruct (Nat.eqb (Contact._id d) id).
Qed.

Lemma keeps_Contact_updateOne (id : nat) (v : jsval) :
  keeps cache_ok (Contact_updateOne id v).
Proof.
  intros w (Hid & Hlt & Hmail). unfold Contact_updateOne, cache_ok.
  cbn [snd contacts next_id with_contacts].
  rewrite id_updateOne, email_updateOne. split; [exact Hid|].
  split; [|exact Hmail].
  intros d Hd. unfold Contact.updateOne in Hd. apply in_map_iff in Hd.
  destruct Hd as (d0 & <- & Hd0). specialize (Hlt d0 Hd0).
  now destruct (Nat.eqb (Contact._id d0) id).
Qed.

(** Adding a record with the next fresh [_id] and a free e-mail key. *)
Lemma cache_ok_insert (w : World) (d : Contact.doc) :
  cache_ok w -> Contact._id d = next_id w ->
  Contact.email_taken (Contact.email d) (contacts w) = false ->
  cache_ok (with_contacts (contacts w ++ [d]) (S (next_id w)) w).
Proof.
  intros (Hid & Hlt & Hmail) Hfresh Hfree. unfold cache_ok.
  cbn [contacts next_id with_contacts]. rewrite !map_app. simpl.
  split; [|split].
  - apply NoDup_snoc; [exact Hid|]. intros Hin.
    apply in_map_iff in Hin. destruct Hin as (x & Hx & Hinx).
    specialize (Hlt x Hinx). lia.
  - intros x Hx. apply in_app_or in Hx. destruct Hx as [Hx | [<- | []]].
    + specialize (Hlt x Hx). lia.
    + lia.
  - apply NoDup_snoc; [exact Hmail|]. now apply email_taken_false.
Qed.

Lemma keeps_Contact_create (env : Env) (a b c d e f : jsval) :
  keeps cache_ok (Contact_create env a b c d e f).
Proof.
  intros w H. unfold Contact_create, Contact.create.
  destruct (negb _); [exact H|].
  destruct (Contact.email_taken _ _) eqn:E; [exact H|].
  cbn [snd]. now apply cache_ok_insert.
Qed.

(** Replacing the record of one [_id] by one with the same [_id] whose
    e-mail key no other record holds. *)
Lemma cache_ok_replace (w : World) (d0 d' : Contact.doc) (n : nat) :
  cache_ok w -> In d0 (contacts w) ->
  Contact._id d' = Contact._id d0 ->
  Contact.email_taken (Contact.email d')
    (Contact.others (Contact._id d0) (contacts w)) = false ->
  next_id w <= n ->
  cache_ok (with_contacts (Contact.replace d' (contacts w)) n w).
Proof.
  intros (Hid & Hlt & Hmail) Hin Hsame Hfree Hn. unfold cache_ok.
  cbn [contacts next_id with_contacts].
  assert (Hids : map Contact._id (Contact.replace d' (contacts w))
                 = map Contact._id (contacts w)).
  { unfold Contact.replace. rewrite map_map. apply map_ext_in.
    intros x _. destruct (Nat.eqb_spec (Contact._id x) (Contact._id d')) as [E|_];
      [now rewrite E | reflexivity]. }
  split; [now rewrite Hids|]. split.
  - intros x Hx. unfold Contact.replace in Hx. apply in_map_iff in Hx.
    destruct Hx as (y & <- & Hy).
    pose proof (Hlt y Hy) as Hy'. pose proof (Hlt d0 Hin) as H0.
    destruct (Nat.eqb (Contact._id y) (Contact._id d')).
    + rewrite Hsame. lia.
    + lia.
  - revert Hid Hmail Hfree. clear Hlt Hin Hids Hn.
    unfold Contact.replace, Contact.others, Contact.email_taken.
    rewrite Hsame.
    induction (contacts w) as [|x cs IH]; simpl; intros Hid Hmail Hfree;
      [constructor|].
    inversion Hid as [|? ? Hxid Hid']; subst.
    inversion Hmail as [|? ? Hxmail Hmail']; subst.
    destruct (Nat.eqb_spec (Contact._id x) (Contact._id d0)) as [E|NE].
    + (* x is the record replaced: no other record has its [_id] *)
      simpl in Hfree.
      assert (Hrest : map (fun d => if Nat.eqb (Contact._id d) (Contact._id d0)
                                    then d' else d) cs = cs).
      { rewrite <- (map_id cs) at 2. apply map_ext_in. intros y Hy.
        destruct (Nat.eqb_spec (Contact._id y) (Contact._id d0)) as [Ey|_];
          [|reflexivity].
        exfalso. apply Hxid. rewrite E, <- Ey. now apply in_map. }
      assert (Hothers : filter (fun d => negb (Nat.eqb (Contact._id d) (Contact._id d0)))
                          cs = cs).
      { apply forallb_filter_id. apply forallb_forall. intros y Hy.
        destruct (Nat.eqb_spec (Contact._id y) (Contact._id d0)) as [Ey|_];
          [|reflexivity].
        exfalso. apply Hxid. rewrite E, <- Ey. now apply in_map. }
      rewrite Hrest. rewrite Hothers in Hfree.
      constructor; [|exact Hmail'].
      now apply email_taken_false.
    + simpl in Hfree. apply orb_false_iff in Hfree. destruct Hfree as [Hx Hfree].
      constructor.
      * intros Hin. apply in_map_iff in Hin. destruct Hin as (y & Hy & Hiny).
        apply in_map_iff in Hiny. destruct Hiny as (z & <- & Hz).
        destruct (Nat.eqb (Contact._id z) (Contact._id d0)).
        -- assert (T : opt_string_eqb (Contact.email x) (Contact.email d') = true)
             by (apply opt_string_eqb_eq; now symmetry).
           congruence.
        -- apply Hxmail. rewrite <- Hy. now apply in_map.
      * now apply IH.
Qed.

Lemma keeps_Contact_findOneAndUpdate (env : Env) (f : Contact.filter)
    (u : Contact.update) :
  keeps cache_ok (Contact_findOneAndUpdate env f u).
Proof.
  intros w H. unfold Contact_findOneAndUpdate, Contact.findOneAndUpdate.
  destruct (Contact.find_by f (contacts w)) as [d0|] eqn:Ef.
  - destruct (Contact.email_taken _ _) eqn:E; [exact H|]. cbn [snd].
    apply (cache_ok_replace w d0); auto.
    destruct f; simpl in Ef; exact (proj1 (find_some _ _ Ef)).
  - destruct (Contact.email_taken _ _) eqn:E; [exact H|]. cbn [snd].
    now apply cache_ok_insert.
Qed.

Lemma keeps_respond (m : M Response) (msg : string) (w : World) :
  keeps cache_ok m -> cache_ok w -> cache_ok (snd (respond m msg w)).
Proof.
  intros Hm H. unfold respond. specialize (Hm w H).
  now destruct (m w) as [[r|e] w1].
Qed.

Create HintDb keeps.

#[local] Hint Resolve keeps_ret keeps_throw keeps_meanwhile_nothing
  keeps_console_error
  keeps_console_warn keeps_ghlAxios keeps_Settings_findOne
  keeps_Settings_findOneAndUpdate keeps_ZoomEvent_findOne
  keeps_ZoomEvent_create keeps_Contact_findOne keeps_Contact_updateOne
  keeps_Contact_create keeps_Contact_findOneAndUpdate : keeps.

Ltac keeps_steps :=
  repeat first
    [ solve [auto with keeps]
    | apply keeps_bind
    | apply keeps_try_catch
    | match goal with
      | |- forall _, _ => intro
      | |- keeps _ (if ?b then _ else _) => destruct b
      | |- keeps _ (match ?x with _ => _ end) => destruct x
      end ].

Lemma keeps_resolve_contact (env : Env) (registrant : Registrant) (email : jsval) :
  keeps cache_ok (resolve_contact env registrant email).
Proof.
  unfold resolve_contact, resolve_remotely, search_step, create_step, save_step,
    searchGHLContact, createGHLContact.
  keeps_steps.
Qed.

Lemma keeps_propagate (env : Env) (id : jsval) : keeps cache_ok (propagate env id).
Proof.
  unfold propagate, addGHLTags, addContactToWorkflow. keeps_steps.
Qed.

Lemma keeps_handleRegistrationEvent (env : Env) (payload : option ZoomPayload)
    (eventType : jsval) :
  keeps cache_ok (handleRegistrationEvent env payload eventType).
Proof.
  unfold handleRegistrationEvent.
  destruct (match payload with Some p => object p | None => None end);
    [|apply keeps_ret].
  cbv zeta. destruct (negb _); [apply keeps_console_warn|].
  apply keeps_try_catch; [|intro; apply keeps_console_error].
  apply keeps_bind; [apply keeps_resolve_contact|].
  intros [id|]; [apply keeps_propagate | apply keeps_ret].
Qed.

(** X18.  The indexes of the contact cache hold in the empty store and
    both webhooks keep them. *)
Theorem cache_ok_invariant :
  cache_ok empty_world
  /\ (forall env data w,
        cache_ok w -> cache_ok (snd (ghl_webhook env data w)))
  /\ (forall env req w,
        cache_ok w -> cache_ok (snd (zoom_webhook env req w))).
Proof.
  split; [|split].
  - repeat split; simpl; try constructor. intros d [].
  - intros env data w H. apply keeps_respond; [|exact H].
    unfold ghl_webhook_try. keeps_steps.
  - intros env req w H. unfold zoom_webhook, zoom_webhook_at.
    apply keeps_respond; [|exact H].
    pose proof (keeps_handleRegistrationEvent env) as Hh.
    unfold zoom_webhook_try. keeps_steps.
Qed.

(* ================================================================== *)
(** * The properties on concrete runs *)

Lemma event_identity_witness :
  deriveEventId reg_a = JStr "555_a@x.com_webinar.registration_created"
  /\ deriveEventId reg_a <> deriveEventId reg_b
  /\ deriveEventId reg_a = deriveEventId reg_a_again
  /\ deriveEventId reg_no_meeting = JStr "1700000000".
Proof.
  destruct event_identity as (H1 & H2 & H3 & H4).
  split; [exact (H1 reg_a eq_refl)|].
  split; [|split].
  - apply (H2 reg_a reg_b "a@x.com" "b@x.com")%string; try reflexivity.
    + discriminate.
    + left. reflexivity.
  - apply (H3 reg_a reg_a_again); reflexivity.
  - exact (H4 reg_no_meeting eq_refl).
Defined.


(** A notification from which no identity can be derived (no meeting
    id, no uuid, no timestamp header) is not recorded in the ledger:
    delivered twice, it is processed twice. *)
Lemma no_identity_is_handled_twice :
  let env := an_env ghl_accepts in
  let first := zoom_webhook env reg_no_identity empty_world in
  let second := zoom_webhook env reg_no_identity (snd first) in
  truthy (deriveEventId reg_no_identity) = false
  /\ fst first = received_response
  /\ fst second = received_response
  /\ remote (snd second)
     = remote (snd first)
       ++ [PostTags "ghl-1" [JStr "Zoom Registration"; JStr "zoom registered"];
           PostWorkflow "ghl-1" "wf-1" "2026-11-02T09:05:00+00:00"].
Proof.
  cbv zeta. repeat split.
Qed.


(** C3, as stated, fails.  Two requests carry one notification; the
    other one inserts its ledger entry while this one waits for the
    answer of its lookup, which found nothing.  This one's insert then
    fails on the unique index and it answers 500, not 200. *)
Lemma raced_delivery_gets_500 :
  let env := an_env ghl_accepts in
  let run := zoom_webhook_at (concurrent_insert env reg_a) env reg_a
               empty_world in
  in_ledger (deriveEventId reg_a) (zoomEvents empty_world) = false
  /\ ZoomEvent.create (deriveEventId reg_a) (event (zoom_body reg_a))
       (registrantEmail_of (payload (zoom_body reg_a))) (now env)
       (zoomEvents (snd run)) = inl DuplicateKey
  /\ fst run = internal_error
  /\ status (fst run) <> 200%Z.
Proof.
  cbv zeta. split; [reflexivity|]. split; [reflexivity|].
  split; [reflexivity | discriminate].
Qed.

Lemma raced_insert_answers_500_witness :
  let env := an_env ghl_accepts in
  let wb := concurrent_insert env reg_a empty_world in
  (is_validation reg_a = false /\ signature_rejected env reg_a = false
   /\ truthy (deriveEventId reg_a) = true
   /\ in_ledger (deriveEventId reg_a) (zoomEvents empty_world) = false
   /\ in_ledger (deriveEventId reg_a) (zoomEvents wb) = true
   /\ required_ok (event (zoom_body reg_a)) = true)
  /\ zoom_webhook_at (concurrent_insert env reg_a) env reg_a empty_world
     = (internal_error, after [] [ConsoleError "Error processing webhook:"] wb).
Proof.
  cbv zeta. split; [repeat split|].
  apply (raced_insert_answers_500 (concurrent_insert (an_env ghl_accepts) reg_a)
           (an_env ghl_accepts) reg_a empty_world); reflexivity.
Defined.

Lemma resolution_links_one_record_witness :
  let env := an_env ghl_accepts in
  let raw := JStr " Ada@X.com" in
  let run := resolve_contact env (a_registrant raw) (clean_email raw)
               unlinked_world in
  (NoDup (map Contact.email (contacts unlinked_world))
   /\ run = (Ok (Some (JStr "ghl-1")), snd run)
   /\ truthy (JStr "ghl-1") = true)
  /\ (exists d,
        records_for (Some "ada@x.com"%string) (contacts (snd run)) = [d]
        /\ Contact.ghlContactId d = Some "ghl-1"%string
        /\ Contact._id d = 0)
  /\ length (contacts (snd run)) = 1.
Proof.
  cbv zeta.
  assert (Hnd : NoDup (map Contact.email (contacts unlinked_world))).
  { vm_compute. repeat constructor. intros []. }
  split; [split; [exact Hnd | split; reflexivity]|].
  destruct (resolution_links_one_record (an_env ghl_accepts)
              (a_registrant (JStr " Ada@X.com")) (JStr " Ada@X.com")
              (JStr "ghl-1") unlinked_world _ Hnd eq_refl eq_refl)
    as ((d & Hrec & Hid & Hsame) & _ & Hkey).
  destruct (Hsame _ eq_refl) as (Hd & _ & _ & Hlen).
  split; [|exact Hlen].
  exists d. rewrite (Hkey _ eq_refl) in Hrec.
  split; [exact Hrec | split; [exact Hid | exact Hd]].
Defined.

Lemma cache_hit_skips_remote_witness :
  let env := an_env ghl_accepts in
  let email := JStr "a@x.com" in
  let linked_world := snd (zoom_webhook env reg_a empty_world) in
  (* a linked record: nothing is asked of the remote API *)
  (truthy email = true
   /\ cached_id email (contacts linked_world) = Some "ghl-1"%string)
  /\ resolve_contact env (a_registrant email) email linked_world
     = (Ok (Some (JStr "ghl-1")), linked_world)
  (* an unlinked record: the search comes first *)
  /\ (cached_id (JStr "ada@x.com") (contacts unlinked_world) = None
      /\ exists rest,
           remote (snd (resolve_contact env (a_registrant (JStr "ada@x.com"))
                          (JStr "ada@x.com") unlinked_world))
           = remote unlinked_world ++ GetContacts (JStr "ada@x.com") :: rest).
Proof.
  cbv zeta. split; [split; reflexivity|]. split.
  - destruct (cache_hit_skips_remote (an_env ghl_accepts)
                (a_registrant (JStr "a@x.com")) (JStr "a@x.com")
                (snd (zoom_webhook (an_env ghl_accepts) reg_a empty_world))
                _ _ eq_refl eq_refl) as (Hhit & _ & _).
    destruct (Hhit "ghl-1"%string eq_refl) as [_ Hw].
    reflexivity.
  - split; [reflexivity|].
    destruct (cache_hit_skips_remote (an_env ghl_accepts)
                (a_registrant (JStr "ada@x.com")) (JStr "ada@x.com")
                unlinked_world _ _ eq_refl eq_refl) as (_ & Hmiss & _).
    destruct (Hmiss eq_refl) as (rest & Hr & _). now exists rest.
Defined.

Lemma rejected_search_falls_back_to_creation_witness :
  let env := an_env ghl_forbidden_conflict in
  let email := JStr "ada@x.com" in
  let c := PostContact (create_payload env (a_registrant email)) in
  (truthy email = true
   /\ cached_id email (contacts unlinked_world) = None
   /\ ghl env (remote unlinked_world) (GetContacts email)
      = AxFail (Some {| ar_status := 403; ar_meta_contactId := JUndefined |})
   /\ ghl env (remote unlinked_world ++ [GetContacts email]) c
      = AxFail (Some {| ar_status := 400; ar_meta_contactId := JStr "ghl-7" |}))
  /\ exists w',
       resolve_contact env (a_registrant email) email unlinked_world
       = (Ok (Some (JStr "ghl-7")), w')
       /\ remote w' = remote unlinked_world ++ [GetContacts email; c].
Proof.
  cbv zeta. split; [repeat split|].
  destruct (rejected_search_falls_back_to_creation
              (an_env ghl_forbidden_conflict) (a_registrant (JStr "ada@x.com"))
              (JStr "ada@x.com") unlinked_world _ eq_refl eq_refl eq_refl eq_refl)
    as (res & w' & Hrun & Hr & Hrec).
  exists w'. split; [|exact Hr].
  rewrite Hrun. now rewrite (Hrec _ eq_refl eq_refl eq_refl).
Defined.

Lemma tags_follow_the_stored_setting_witness :
  let env := an_env ghl_accepts in
  let promo := a_config (JStr "c1") (JStr "") (JStr "Promo") in
  let w1 := snd (ghl_webhook env promo empty_world) in
  (config_rejected promo = false
   /\ truthy (g_zoom_tag (config_fields promo)) = true
   /\ fst (zoom_webhook env reg_a w1) = received_response)
  /\ (exists new,
        remote (snd (zoom_webhook env reg_a empty_world)) = new
        /\ filter is_tagging new
           = [PostTags "ghl-1" [JStr "Zoom Registration"; JStr "zoom registered"]])
  /\ (exists new,
        remote (snd (zoom_webhook env reg_a w1)) = remote w1 ++ new
        /\ filter is_tagging new
           = [PostTags "ghl-1" [JStr "Promo"; JStr "zoom registered"]]).
Proof.
  cbv zeta. destruct tags_follow_the_stored_setting as (HA & _ & HC).
  split; [repeat split|]. split.
  - destruct (HA (an_env ghl_accepts) reg_a empty_world
                (an_object (JNum 555) (JStr "a@x.com")) (JStr "ghl-1")
                eq_refl eq_refl eq_refl eq_refl eq_refl)
      as (new & tag & Hr & Hf & Htag).
    exists new. split; [exact Hr|]. cbn in Htag. now subst tag.
  - exact (HC (an_env ghl_accepts) (an_env ghl_accepts)
             (a_config (JStr "c1") (JStr "") (JStr "Promo")) reg_a empty_world
             (an_object (JNum 555) (JStr "a@x.com")) (JStr "ghl-1")
             eq_refl eq_refl eq_refl eq_refl eq_refl eq_refl eq_refl).
Defined.

(** C8, as stated, fails.  With the remote API out of reach a
    registration is not processed (no contact resolved, nothing tagged)
    and is answered 200, not 500, and a retry would be dropped as a
    duplicate; the same when the database is lost during the
    processing.  A notification that lacks its event type is answered
    500, not 400. *)
Lemma failed_processing_answers_200 :
  let env := an_env ghl_down in
  let run := zoom_webhook env reg_a empty_world in
  let cut := OnStore.zoom_webhook_at (lost_after_ledger env) (fun w => w) env
               reg_a empty_world in
  (fst run = received_response
   /\ status (fst run) <> 500%Z
   /\ contacts (snd run) = []
   /\ calls_of is_tagging (remote (snd run)) = 0
   /\ fst (zoom_webhook env reg_a (snd run)) = duplicate_response)
  /\ (fst cut = received_response
      /\ contacts (snd cut) = [] /\ remote (snd cut) = []
      /\ console (snd cut) = [ConsoleError "Error in handleRegistrationEvent:"])
  /\ (is_validation untyped_notification = false
      /\ fst (zoom_webhook (an_env ghl_accepts) untyped_notification empty_world)
         = internal_error
      /\ status (fst (zoom_webhook (an_env ghl_accepts) untyped_notification
                        empty_world)) <> 400%Z).
Proof.
  cbv zeta.
  repeat split; try reflexivity; discriminate.
Qed.

Lemma webhook_statuses_witness :
  let env := an_env ghl_accepts in
  (forall g,
     fst (zoom_webhook_at (fun w => w) (with_ghl g env) reg_a empty_world)
     = received_response)
  /\ status (fst (zoom_webhook env (a_challenge JUndefined) empty_world)) = 400%Z
  /\ status (fst (zoom_webhook env untyped_notification empty_world)) = 500%Z
  /\ status (fst (OnStore.zoom_webhook_at unreachable (fun w => w) env reg_a
                    empty_world)) = 500%Z
  /\ fst (OnStore.zoom_webhook_at (lost_after_ledger env) (fun w => w) env reg_a
            empty_world) = received_response.
Proof.
  cbv zeta. split; [|split; [|split; [|split]]].
  - intros g.
    destruct (webhook_statuses (mongoose (an_env ghl_accepts)) (fun w => w)
                (an_env ghl_accepts) reg_a empty_world)
      as (_ & _ & _ & _ & _ & Hg & _).
    exact (Hg g).
  - destruct (webhook_statuses (mongoose (an_env ghl_accepts)) (fun w => w)
                (an_env ghl_accepts) (a_challenge JUndefined) empty_world)
      as (_ & H400 & _).
    apply H400. split; [reflexivity | left; reflexivity].
  - destruct (webhook_statuses (mongoose (an_env ghl_accepts)) (fun w => w)
                (an_env ghl_accepts) untyped_notification empty_world)
      as (_ & _ & _ & H500 & _ & _ & _ & Hthrows).
    apply H500. right. split; [reflexivity|]. split; [reflexivity|].
    apply Hthrows. split; [reflexivity|]. split; [reflexivity|].
    left. reflexivity.
  - destruct (webhook_statuses unreachable (fun w => w) (an_env ghl_accepts)
                reg_a empty_world) as (_ & _ & _ & H500 & _).
    apply H500. right. split; [reflexivity|]. split; [reflexivity|].
    eexists. eexists. reflexivity.
  - destruct (webhook_statuses (lost_after_ledger (an_env ghl_accepts))
                (fun w => w) (an_env ghl_accepts) reg_a empty_world)
      as (_ & _ & _ & _ & Hafter & _).
    exact (Hafter eq_refl eq_refl false _ eq_refl).
Defined.

(** A notification without event type passes the gate and fails the
    validation of its ledger entry: the answer is 500. *)
Example missing_event_type_answers_500 :
  let r := {| x_zm_signature := None;
              x_zm_request_timestamp := Some "1700000000";
              zoom_body := {| event := JUndefined; payload := None |} |} in
  zoom_webhook (an_env ghl_accepts) r empty_world
  = (internal_error,
     after [] [ConsoleError "Error processing webhook:"] empty_world).
Proof. reflexivity. Qed.

Example eventStartTime_example :
  eventStartTime a_date = "2026-11-02T09:05:00+00:00"%string.
Proof. reflexivity. Qed.

Lemma enrolment_failure_is_swallowed_witness :
  let env := an_env ghl_workflow_rejects in
  let id := JStr "ghl-1" in
  let t := tags_call (settings empty_world) id in
  let c := PostWorkflow "ghl-1" "wf-1" "2026-11-02T09:05:00+00:00" in
  (workflow_id env = Some "wf-1"%string
   /\ ghl env (remote empty_world) t = AxOk None)
  /\ propagate env id empty_world
     = (Ok tt, after [t; c] [ConsoleError "GHL Workflow Error:";
                             ConsoleError "Workflow Trigger Failed:"]
                 empty_world)
  /\ fst (zoom_webhook env reg_a empty_world) = received_response.
Proof.
  cbv zeta. split; [split; reflexivity|].
  destruct (enrolment_failure_is_swallowed (an_env ghl_workflow_rejects)
              (JStr "ghl-1") empty_world "wf-1" None eq_refl eq_refl)
    as (Hrun & _ & _ & _).
  split; [exact Hrun | reflexivity].
Defined.

(** C9 at the failing input.  A configuration event for contact "c1"
    with a blank e-mail is stored without e-mail; the next one, for
    contact "c2" and again with a blank e-mail, would insert a second
    record without e-mail, which the unique index on [email] refuses:
    the answer is 500 and no record for "c2" is stored. *)
Lemma blank_emails_collide :
  let env := an_env ghl_accepts in
  let first := ghl_webhook env (a_config (JStr "c1") (JStr "") JUndefined)
                 empty_world in
  let second := ghl_webhook env (a_config (JStr "c2") (JStr "  ") JUndefined)
                  (snd first) in
  fst first = contact_synced
  /\ map Contact.email (contacts (snd first)) = [None]
  /\ Contact.findOneAndUpdate (next_id (snd first))
       (Contact.ByGhlContactId "c2")
       (config_update env (a_config (JStr "c2") (JStr "  ") JUndefined))
       (now env) (contacts (snd first)) = inl DuplicateKey
  /\ fst second = internal_error
  /\ contacts (snd second) = contacts (snd first)
  /\ Contact.findByGhlContactId "c2" (contacts (snd second)) = None.
Proof. cbv zeta. repeat split. Qed.

(* ================================================================== *)
(** * Further properties of the server *)

(** ** The gate of the event-source webhook *)

Lemma verify_off (env : Env) (req : ZoomRequest) :
  VERIFY_ZOOM_SIGNATURE (process_env env) <> Some "true"%string ->
  signature_rejected env req = false.
Proof.
  intros H. unfold signature_rejected.
  destruct (VERIFY_ZOOM_SIGNATURE (process_env env)) as [v|]; simpl; [|reflexivity].
  destruct (String.eqb_spec v "true") as [->|_]; [now contradiction H | reflexivity].
Qed.

Lemma nonempty_truthy (s : string) : s <> ""%string -> truthy (JStr s) = true.
Proof. intros H. simpl. now apply negb_true_iff, String.eqb_neq. Qed.

(** X1.  Signature verification.  Unless VERIFY_ZOOM_SIGNATURE is exactly
    "true" no notification is rejected.  A notification whose signature
    header is "v0=" followed by the HMAC, under the secret, of
    "v0:" + timestamp + ":" + the serialized body is verified; one that
    lacks the signature, the timestamp or the secret (absent or empty)
    is not.  With verification on, a notification that is not verified
    and is not the validation challenge is answered 401 and changes
    nothing but the console. *)
Theorem signature_gate (between : World -> World) (env : Env)
    (req : ZoomRequest) (w : World) :
  (VERIFY_ZOOM_SIGNATURE (process_env env) <> Some "true"%string ->
   signature_rejected env req = false)
  /\ (forall ts secret,
        x_zm_request_timestamp req = Some ts -> ts <> ""%string ->
        ZOOM_SECRET_TOKEN (process_env env) = Some secret -> secret <> ""%string ->
        x_zm_signature req
        = Some ("v0=" ++ hmac_sha256_hex env secret
                           ("v0:" ++ ts ++ ":" ++ JSON_stringify env (zoom_body req)))%string ->
        verifyZoomSignature env req = true)
  /\ (truthy (of_opt (x_zm_signature req)) = false
      \/ truthy (of_opt (x_zm_request_timestamp req)) = false
      \/ truthy (of_opt (ZOOM_SECRET_TOKEN (process_env env))) = false ->
      verifyZoomSignature env req = false)
  /\ (VERIFY_ZOOM_SIGNATURE (process_env env) = Some "true"%string ->
      is_validation req = false ->
      verifyZoomSignature env req = false ->
      zoom_webhook_at between env req w
      = ({| status := 401; body := ErrorBody "Invalid signature" |},
         after [] [ConsoleError "Invalid Zoom signature"] w)).
Proof.
  split; [apply verify_off|]. split; [|split].
  - intros ts secret Hts Hts' Hsec Hsec' Hsig.
    unfold verifyZoomSignature. rewrite Hsig, Hts, Hsec.
    rewrite (nonempty_truthy _ Hts'), (nonempty_truthy _ Hsec').
    cbn [truthy negb orb]. now rewrite String.eqb_refl.
  - unfold verifyZoomSignature.
    destruct (x_zm_signature req) as [s|], (x_zm_request_timestamp req) as [t|],
      (ZOOM_SECRET_TOKEN (process_env env)) as [k|]; try reflexivity.
    cbn [of_opt]. intros [H | [H | H]]; rewrite H; cbn [negb orb];
      rewrite ?orb_true_r; reflexivity.
  - intros Hon Hv Hbad. apply zoom_webhook_rejected; [exact Hv|].
    unfold signature_rejected. now rewrite Hon, Hbad.
Qed.

Lemma signature_gate_witness :
  let env := a_verifying_env ghl_accepts in
  (* the signed notification is verified and handled *)
  verifyZoomSignature env (signed "v0=secret/v0:1700000000:{}" reg_a) = true
  /\ fst (zoom_webhook env (signed "v0=secret/v0:1700000000:{}" reg_a) empty_world)
     = received_response
  (* the unsigned one is answered 401 *)
  /\ zoom_webhook env reg_a empty_world
     = ({| status := 401; body := ErrorBody "Invalid signature" |},
        after [] [ConsoleError "Invalid Zoom signature"] empty_world)
  (* with verification off nobody is rejected *)
  /\ signature_rejected (an_env ghl_accepts) reg_a = false.
Proof.
  cbv zeta.
  destruct (signature_gate (fun w => w) (a_verifying_env ghl_accepts)
              (signed "v0=secret/v0:1700000000:{}" reg_a) empty_world)
    as (_ & Hgood & _ & _).
  destruct (signature_gate (fun w => w) (a_verifying_env ghl_accepts) reg_a
              empty_world) as (_ & _ & Hmiss & H401).
  destruct (signature_gate (fun w => w) (an_env ghl_accepts) reg_a empty_world)
    as (Hoff & _ & _ & _).
  split.
  - apply (Hgood "1700000000" "secret")%string; (reflexivity || discriminate).
  - split; [reflexivity|]. split.
    + apply H401; [reflexivity | reflexivity |].
      apply Hmiss. left. reflexivity.
    + apply Hoff. discriminate.
Defined.

(** X2.  The validation challenge is answered before any signature check
    and without touching the world: a non-empty string token and a
    non-empty secret give 200 with the token and its HMAC under the
    secret; a missing (or falsy) token or secret gives 400; in every
    case the ledger, the contacts, the settings and the remote history
    are as before, and a 200 is given only to a non-empty string token. *)
Theorem validation_challenge (between : World -> World) (env : Env)
    (req : ZoomRequest) (w : World) :
  is_validation req = true ->
  let run := zoom_webhook_at between env req w in
  (zoomEvents (snd run) = zoomEvents w /\ contacts (snd run) = contacts w
   /\ settings (snd run) = settings w /\ remote (snd run) = remote w)
  /\ (forall token secret,
        plainToken_of req = JStr token -> token <> ""%string ->
        ZOOM_SECRET_TOKEN (process_env env) = Some secret -> secret <> ""%string ->
        run = ({| status := 200;
                  body := ChallengeBody token (hmac_sha256_hex env secret token) |},
               w))
  /\ (truthy (plainToken_of req) = false
      \/ truthy (of_opt (ZOOM_SECRET_TOKEN (process_env env))) = false ->
      run = ({| status := 400; body := ErrorBody "Missing token or configuration" |},
             w))
  /\ (status (fst run) = 200%Z ->
      exists token, plainToken_of req = JStr token /\ token <> ""%string).
Proof.
  intros Hv run. subst run. unfold zoom_webhook_at, respond.
  rewrite (zoom_webhook_try_validation _ _ _ _ Hv).
  split; [|split; [|split]].
  - destruct (negb _ || negb _); [now repeat split|].
    destruct (plainToken_of req); now repeat split.
  - intros token secret Ht Ht' Hs Hs'. rewrite Ht, Hs.
    cbn [of_opt]. rewrite (nonempty_truthy _ Ht'), (nonempty_truthy _ Hs').
    reflexivity.
  - intros H.
    assert (E : negb (truthy (plainToken_of req))
                || negb (truthy (of_opt (ZOOM_SECRET_TOKEN (process_env env))))
                = true).
    { destruct H as [-> | ->]; cbn [negb orb]; rewrite ?orb_true_r; reflexivity. }
    now rewrite E.
  - destruct (negb (truthy (plainToken_of req)) || _) eqn:E;
      [discriminate|].
    apply orb_false_iff in E. destruct E as [E _]. apply negb_false_iff in E.
    destruct (plainToken_of req) as [| | b | n | token]; try discriminate.
    intros _. exists token. split; [reflexivity|].
    simpl in E. apply negb_true_iff, String.eqb_neq in E. exact E.
Qed.

Lemma validation_challenge_witness :
  let env := a_verifying_env ghl_accepts in
  is_validation (a_challenge (JStr "tok")) = true
  /\ zoom_webhook env (a_challenge (JStr "tok")) empty_world
     = ({| status := 200; body := ChallengeBody "tok" "secret/tok" |}, empty_world)
  /\ zoom_webhook env (a_challenge JUndefined) empty_world
     = ({| status := 400; body := ErrorBody "Missing token or configuration" |},
        empty_world).
Proof.
  cbv zeta. split; [reflexivity|].
  destruct (validation_challenge (fun w => w) (a_verifying_env ghl_accepts)
              (a_challenge (JStr "tok")) empty_world eq_refl)
    as (_ & Hok & _ & _).
  destruct (validation_challenge (fun w => w) (a_verifying_env ghl_accepts)
              (a_challenge JUndefined) empty_world eq_refl)
    as (_ & _ & Hbad & _).
  split.
  - apply (Hok "tok" "secret")%string; (reflexivity || discriminate).
  - apply Hbad. left. reflexivity.
Defined.

(** ** The ledger *)

Lemma not_in_ledger_map (id : jsval) (l : list ZoomEvent.doc) :
  in_ledger id l = false -> ~ In (toString id) (map ZoomEvent.eventId l).
Proof.
  unfold in_ledger. intros H Hin. apply in_map_iff in Hin.
  destruct Hin as (d & Hd & Hin).
  assert (T : existsb (fun d => String.eqb (ZoomEvent.eventId d) (toString id)) l
              = true).
  { apply existsb_exists. exists d. split; [exact Hin|]. now apply String.eqb_eq. }
  congruence.
Qed.

(** What one run of the webhook does to the ledger: nothing, or one
    entry appended for an identity that was not there. *)
Lemma zoom_webhook_ledger (env : Env) (req : ZoomRequest) (w : World) :
  zoomEvents (snd (zoom_webhook env req w)) = zoomEvents w
  \/ (truthy (deriveEventId req) = true
      /\ in_ledger (deriveEventId req) (zoomEvents w) = false
      /\ fst (zoom_webhook env req w) = received_response
      /\ zoomEvents (snd (zoom_webhook env req w))
         = zoomEvents w
           ++ [ {| ZoomEvent.eventId := toString (deriveEventId req);
                   ZoomEvent.eventType := toString (event (zoom_body req));
                   ZoomEvent.email :=
                     castString (registrantEmail_of (payload (zoom_body req)));
                   ZoomEvent.processedAt := now env |} ]).
Proof.
  destruct (is_validation req) eqn:Hv.
  - left. unfold zoom_webhook, zoom_webhook_at, respond.
    rewrite (zoom_webhook_try_validation _ _ _ _ Hv).
    destruct (negb _ || negb _); [reflexivity|].
    destruct (plainToken_of req); reflexivity.
  - destruct (signature_rejected env req) eqn:Hs.
    { left. unfold zoom_webhook.
      now rewrite (zoom_webhook_rejected _ _ _ _ Hv Hs). }
    destruct (truthy (deriveEventId req)) eqn:Ht.
    + destruct (in_ledger (deriveEventId req) (zoomEvents w)) eqn:Hin.
      * left. now rewrite (zoom_webhook_duplicate _ _ _ Hv Hs Ht Hin).
      * pose proof (zoom_webhook_first env req w Hv Hs Ht Hin) as H.
        destruct (ZoomEvent.create _ _ _ _ _) as [e | l] eqn:Ec.
        -- left. now rewrite H.
        -- right. destruct H as (w' & -> & Hz & _).
           destruct (create_in_ledger _ _ _ _ _ _ Ec) as (_ & _ & Hl).
           cbn [fst snd]. rewrite Hz. now repeat split.
    + left. destruct (zoom_webhook_no_identity env req w Hv Hs Ht)
        as (w' & -> & Hz & _). exact Hz.
Qed.

(** X3.  The ledger is append-only and keeps its identities distinct.  A
    run of the event-source webhook leaves the entries it found in
    place and adds at most one: the entry of the derived identity, with
    the event type and the registrant e-mail, and only when that
    identity was not recorded yet and the notification is answered
    "Webhook received".  Distinct identities stay distinct. *)
Theorem ledger_is_append_only (env : Env) (req : ZoomRequest) (w : World) :
  let run := zoom_webhook env req w in
  (zoomEvents (snd run) = zoomEvents w
   \/ (truthy (deriveEventId req) = true
       /\ in_ledger (deriveEventId req) (zoomEvents w) = false
       /\ fst run = received_response
       /\ zoomEvents (snd run)
          = zoomEvents w
            ++ [ {| ZoomEvent.eventId := toString (deriveEventId req);
                    ZoomEvent.eventType := toString (event (zoom_body req));
                    ZoomEvent.email :=
                      castString (registrantEmail_of (payload (zoom_body req)));
                    ZoomEvent.processedAt := now env |} ]))
  /\ (NoDup (map ZoomEvent.eventId (zoomEvents w)) ->
      NoDup (map ZoomEvent.eventId (zoomEvents (snd run)))).
Proof.
  cbv zeta. split; [apply zoom_webhook_ledger|].
  intros Hnd. destruct (zoom_webhook_ledger env req w) as [-> | (_ & Hin & _ & ->)];
    [exact Hnd|].
  rewrite map_app. cbn [map ZoomEvent.eventId].
  apply NoDup_snoc; [exact Hnd | now apply not_in_ledger_map].
Qed.

Lemma ledger_is_append_only_witness :
  let env := an_env ghl_accepts in
  let w1 := snd (zoom_webhook env reg_a empty_world) in
  let w2 := snd (zoom_webhook env reg_b w1) in
  NoDup (map ZoomEvent.eventId (zoomEvents w1))
  /\ NoDup (map ZoomEvent.eventId (zoomEvents w2))
  /\ map ZoomEvent.eventId (zoomEvents w2)
     = ["555_a@x.com_webinar.registration_created";
        "555_b@x.com_webinar.registration_created"]%string
  /\ zoomEvents (snd (zoom_webhook env reg_a_again w2)) = zoomEvents w2.
Proof.
  cbv zeta.
  assert (H0 : NoDup (map ZoomEvent.eventId (zoomEvents empty_world)))
    by constructor.
  pose proof (proj2 (ledger_is_append_only (an_env ghl_accepts) reg_a empty_world)
                H0) as H1.
  pose proof (proj2 (ledger_is_append_only (an_env ghl_accepts) reg_b _) H1) as H2.
  split; [exact H1|]. split; [exact H2|]. split; reflexivity.
Defined.

(** ** The global setting *)

Lemma ghl_webhook_frame (env : Env) (data : GhlBody) (w : World) :
  remote (snd (ghl_webhook env data w)) = remote w
  /\ zoomEvents (snd (ghl_webhook env data w)) = zoomEvents w
  /\ settings (snd (ghl_webhook env data w))
     = if config_rejected data then settings w
       else settings_after_tag env (g_zoom_tag (config_fields data)) (settings w).
Proof.
  destruct (config_rejected data) eqn:Hrej.
  - rewrite (ghl_webhook_rejected env data w Hrej). simpl.
    now rewrite app_nil_r.
  - rewrite (ghl_webhook_accepted env data w Hrej). cbv zeta.
    destruct (Contact.findOneAndUpdate _ _ _ _ _) as [e | [d l]]; simpl;
      rewrite ?app_nil_r; now repeat split.
Qed.

Lemma key_update_first (k : string) (v : jsval) (t : Date) (cs : list Settings.doc) :
  map Settings.key (Settings.update_first k v t cs) = map Settings.key cs.
Proof.
  induction cs as [|d cs IH]; simpl; [reflexivity|].
  destruct (String.eqb (Settings.key d) k); simpl; [reflexivity | now rewrite IH].
Qed.

Lemma other_update_first (k : string) (v : jsval) (t : Date)
    (cs : list Settings.doc) (d : Settings.doc) :
  In d cs -> Settings.key d <> k -> In d (Settings.update_first k v t cs).
Proof.
  induction cs as [|x cs IH]; simpl; [tauto|].
  intros [-> | Hin] Hne.
  - destruct (String.eqb_spec (Settings.key d) k) as [E|_]; [contradiction|].
    now left.
  - destruct (String.eqb (Settings.key x) k); right; [exact Hin | now apply IH].
Qed.

Lemma settings_after_tag_keys (env : Env) (tag : jsval) (cs : list Settings.doc) :
  (NoDup (map Settings.key cs) ->
   NoDup (map Settings.key (settings_after_tag env tag cs)))
  /\ (forall d, In d cs -> Settings.key d <> "globalZoomTag"%string ->
                In d (settings_after_tag env tag cs))
  /\ length (settings_after_tag env tag cs) <= S (length cs).
Proof.
  unfold settings_after_tag, Settings.findOneAndUpdate.
  destruct (truthy tag); [|repeat split; auto].
  destruct (Settings.findOne "globalZoomTag" cs) as [s|] eqn:Ef.
  - destruct (js_eqb (Settings.value s) tag); [repeat split; auto|].
    split; [now rewrite key_update_first|]. split.
    + intros d Hd Hne. now apply other_update_first.
    + assert (L : length (map Settings.key
                     (Settings.update_first "globalZoomTag" tag (now env) cs))
                  = length (map Settings.key cs)) by now rewrite key_update_first.
      rewrite !length_map in L. lia.
  - split; [|split].
    + intros Hnd. rewrite map_app. simpl. apply NoDup_snoc; [exact Hnd|].
      intros Hin. apply in_map_iff in Hin. destruct Hin as (d & Hk & Hin).
      unfold Settings.findOne in Ef.
      pose proof (find_none _ _ Ef d Hin) as Hd. simpl in Hd.
      rewrite Hk in Hd. discriminate.
    + intros d Hd _. apply in_or_app. now left.
    + rewrite length_app. simpl. lia.
Qed.

(** X4.  The global setting has one writer and is written only when it
    changes.  The configuration webhook makes no remote call and leaves
    the ledger alone; it leaves the settings as they are when the event
    is rejected, carries no (truthy) tag, or carries the tag already
    stored; otherwise the stored tag becomes the new one.  It never
    touches a setting under another key, adds at most one document, and
    keeps the keys distinct.  The event-source webhook never changes
    the settings. *)
Theorem global_tag_written_when_changed (env : Env) (data : GhlBody)
    (w : World) :
  let tag := g_zoom_tag (config_fields data) in
  let w' := snd (ghl_webhook env data w) in
  (remote w' = remote w /\ zoomEvents w' = zoomEvents w)
  /\ (config_rejected data = true \/ truthy tag = false
      \/ (exists s, Settings.findOne "globalZoomTag" (settings w) = Some s
                    /\ Settings.value s = tag) ->
      settings w' = settings w)
  /\ (config_rejected data = false -> truthy tag = true ->
      exists s, Settings.findOne "globalZoomTag" (settings w') = Some s
                /\ Settings.value s = tag)
  /\ (NoDup (map Settings.key (settings w)) ->
      NoDup (map Settings.key (settings w')))
  /\ (forall d, In d (settings w) -> Settings.key d <> "globalZoomTag"%string ->
                In d (settings w'))
  /\ length (settings w') <= S (length (settings w))
  /\ (forall env' req, settings (snd (zoom_webhook env' req w)) = settings w).
Proof.
  cbv zeta.
  destruct (ghl_webhook_frame env data w) as (Hr & Hz & Hs).
  split; [now split|]. rewrite Hs.
  destruct (settings_after_tag_keys env (g_zoom_tag (config_fields data))
              (settings w)) as (Hnd & Hother & Hlen).
  split; [|split; [|split; [|split; [|split]]]].
  - intros H. destruct (config_rejected data); [reflexivity|].
    destruct H as [H | [H | (s & Hf & Hv)]]; [discriminate | |];
      unfold settings_after_tag.
    + now rewrite H.
    + destruct (truthy (g_zoom_tag (config_fields data))); [|reflexivity].
      rewrite Hf, Hv.
      assert (E : js_eqb (g_zoom_tag (config_fields data))
                         (g_zoom_tag (config_fields data)) = true).
      { destruct (g_zoom_tag (config_fields data)) as [| | [|] | n | x]; simpl;
          auto using Z.eqb_refl, String.eqb_refl. }
      now rewrite E.
  - intros -> Ht. now apply settings_after_tag_value.
  - destruct (config_rejected data); auto.
  - destruct (config_rejected data); auto.
  - destruct (config_rejected data); [lia | exact Hlen].
  - intros env' req.
    destruct (zoom_webhook_calls env' req w) as (new & _ & Hset & _). exact Hset.
Qed.

Lemma global_tag_written_when_changed_witness :
  let env := an_env ghl_accepts in
  let promo := a_config (JStr "c1") (JStr "a@x.com") (JStr "Promo") in
  let w1 := snd (ghl_webhook env promo empty_world) in
  (config_rejected promo = false
   /\ truthy (g_zoom_tag (config_fields promo)) = true)
  /\ map Settings.value (settings w1) = [JStr "Promo"]
  (* the same tag again: nothing is written *)
  /\ settings (snd (ghl_webhook env promo w1)) = settings w1
  (* a rejected event does not write its tag *)
  /\ settings (snd (ghl_webhook env (a_config JUndefined (JStr " ") (JStr "Other"))
                      w1)) = settings w1.
Proof.
  cbv zeta. split; [split; reflexivity|]. split; [reflexivity|].
  destruct (global_tag_written_when_changed (an_env ghl_accepts)
              (a_config (JStr "c1") (JStr "a@x.com") (JStr "Promo"))
              (snd (ghl_webhook (an_env ghl_accepts)
                      (a_config (JStr "c1") (JStr "a@x.com") (JStr "Promo"))
                      empty_world)))
    as (_ & Hsame & _).
  destruct (global_tag_written_when_changed (an_env ghl_accepts)
              (a_config JUndefined (JStr " ") (JStr "Other"))
              (snd (ghl_webhook (an_env ghl_accepts)
                      (a_config (JStr "c1") (JStr "a@x.com") (JStr "Promo"))
                      empty_world)))
    as (_ & Hrej & _).
  split.
  - apply Hsame. right. right. eexists. split; reflexivity.
  - apply Hrej. left. reflexivity.
Defined.

(** ** The registration handler *)

(** The handler on a registration that carries an object and an e-mail:
    the resolver, then the propagation, inside one [try]. *)
Lemma handleRegistrationEvent_body (env : Env) (payload : option ZoomPayload)
    (eventType : jsval) (o : ZoomObject) :
  match payload with Some p => object p | None => None end = Some o ->
  truthy (clean_email (r_email (registrant_of o))) = true ->
  handleRegistrationEvent env payload eventType =
    try_catch
      (resolved <- resolve_contact env (registrant_of o)
                     (clean_email (r_email (registrant_of o))) ;;
       match resolved with
       | None => ret tt
       | Some ghlContactId => propagate env ghlContactId
       end)
      (fun error => console_error "Error in handleRegistrationEvent:").
Proof.
  intros Ho He. unfold handleRegistrationEvent. rewrite Ho. cbv zeta.
  now rewrite He.
Qed.

(** X5.  A contact that cannot be resolved is not tagged.  When no id is
    cached for the e-mail, the search finds nobody (or fails) and the
    creation is rejected without naming an existing contact, the
    handler returns normally having made the search and the creation
    and nothing else: no tag and no workflow call, no record written,
    ledger and settings untouched. *)
Theorem unresolved_contact_is_not_tagged (env : Env)
    (payload : option ZoomPayload) (eventType : jsval) (o : ZoomObject)
    (w : World) (r : option AxiosResponse) :
  let registrant := registrant_of o in
  let email := clean_email (r_email registrant) in
  let c := PostContact (create_payload env registrant) in
  match payload with Some p => object p | None => None end = Some o ->
  truthy email = true ->
  cached_id email (contacts w) = None ->
  (forall id, ghl env (remote w) (GetContacts email) <> AxOk (Some id)) ->
  ghl env (remote w ++ [GetContacts email]) c = AxFail r ->
  conflict_id r = None ->
  exists w',
    handleRegistrationEvent env payload eventType w = (Ok tt, w')
    /\ remote w' = remote w ++ [GetContacts email; c]
    /\ contacts w' = contacts w /\ next_id w' = next_id w
    /\ zoomEvents w' = zoomEvents w /\ settings w' = settings w.
Proof.
  intros registrant email c Ho He Hc Hs Hcr Hconf. subst registrant email c.
  rewrite (handleRegistrationEvent_body _ _ _ _ Ho He).
  unfold try_catch, bind.
  rewrite (resolve_contact_missing _ _ _ _ Hc), resolve_remotely_run.
  unfold remote_chain. cbv zeta.
  destruct (ghl env (remote w) (GetContacts _)) as [[id|] | r0].
  - now contradiction (Hs id).
  - rewrite Hcr. cbn [create_id]. rewrite Hconf.
    eexists. split; [reflexivity|]. now repeat split.
  - rewrite Hcr. cbn [create_id]. rewrite Hconf.
    eexists. split; [reflexivity|]. now repeat split.
Qed.

Lemma unresolved_contact_is_not_tagged_witness :
  let env := an_env ghl_refuses_creation in
  let email := JStr "a@x.com" in
  let c := PostContact (create_payload env (a_registrant email)) in
  (truthy email = true
   /\ cached_id email (contacts empty_world) = None
   /\ ghl env [] (GetContacts email) = AxOk None
   /\ ghl env [GetContacts email] c
      = AxFail (Some {| ar_status := 422; ar_meta_contactId := JUndefined |})
   /\ conflict_id (Some {| ar_status := 422; ar_meta_contactId := JUndefined |})
      = None)
  /\ exists w',
       handleRegistrationEvent env (payload (zoom_body reg_a))
         (event (zoom_body reg_a)) empty_world = (Ok tt, w')
       /\ remote w' = [GetContacts email; c]
       /\ contacts w' = [].
Proof.
  cbv zeta. split; [repeat split|].
  destruct (unresolved_contact_is_not_tagged (an_env ghl_refuses_creation)
              (payload (zoom_body reg_a)) (event (zoom_body reg_a))
              (an_object (JNum 555) (JStr "a@x.com")) empty_world
              (Some {| ar_status := 422; ar_meta_contactId := JUndefined |})
              eq_refl eq_refl eq_refl)
    as (w' & Hrun & Hr & Hc & _); [discriminate | reflexivity | reflexivity |].
  exists w'. split; [exact Hrun|]. split; [exact Hr | exact Hc].
Defined.

(** X6.  A rejected tag call does not undo the resolution.  When the
    resolver has returned an id and the tag call for it is rejected,
    the handler returns normally; the world is the one the resolver
    left (with the link it saved) plus the tag call and two console
    lines, and no workflow enrolment is attempted. *)
Theorem tag_failure_keeps_the_link (env : Env) (payload : option ZoomPayload)
    (eventType : jsval) (o : ZoomObject) (w w1 : World) (id : jsval)
    (r : option AxiosResponse) :
  let registrant := registrant_of o in
  let email := clean_email (r_email registrant) in
  match payload with Some p => object p | None => None end = Some o ->
  truthy email = true ->
  resolve_contact env registrant email w = (Ok (Some id), w1) ->
  ghl env (remote w1) (tags_call (settings w1) id) = AxFail r ->
  handleRegistrationEvent env payload eventType w
  = (Ok tt,
     after [tags_call (settings w1) id]
       [ConsoleError "GHL Tag Error:";
        ConsoleError "Error in handleRegistrationEvent:"] w1).
Proof.
  intros registrant email Ho He Hres Ht. subst registrant email.
  rewrite (handleRegistrationEvent_body _ _ _ _ Ho He).
  unfold try_catch, bind. rewrite Hres, propagate_run. cbv zeta. rewrite Ht.
  unfold console_error. cbn [console after with_console with_remote].
  unfold after, with_console, with_remote. simpl. now rewrite <- app_assoc.
Qed.

Lemma tag_failure_keeps_the_link_witness :
  let env := an_env ghl_tags_reject in
  let email := JStr "a@x.com" in
  let w1 := snd (resolve_contact env (a_registrant email) email empty_world) in
  (truthy email = true
   /\ resolve_contact env (a_registrant email) email empty_world
      = (Ok (Some (JStr "ghl-1")), w1)
   /\ ghl env (remote w1) (tags_call (settings w1) (JStr "ghl-1"))
      = AxFail (Some {| ar_status := 500; ar_meta_contactId := JUndefined |}))
  /\ map Contact.ghlContactId (contacts w1) = [Some "ghl-1"%string]
  /\ handleRegistrationEvent env (payload (zoom_body reg_a))
       (event (zoom_body reg_a)) empty_world
     = (Ok tt,
        after [PostTags "ghl-1" [JStr "Zoom Registration"; JStr "zoom registered"]]
          [ConsoleError "GHL Tag Error:";
           ConsoleError "Error in handleRegistrationEvent:"] w1).
Proof.
  cbv zeta. split; [repeat split|]. split; [reflexivity|].
  exact (tag_failure_keeps_the_link (an_env ghl_tags_reject)
           (payload (zoom_body reg_a)) (event (zoom_body reg_a))
           (an_object (JNum 555) (JStr "a@x.com")) empty_world _ (JStr "ghl-1")
           (Some {| ar_status := 500; ar_meta_contactId := JUndefined |})
           eq_refl eq_refl eq_refl eq_refl).
Defined.

(** X7.  A contact the search finds is never created again.  With no id
    cached for the e-mail and a search that returns a contact, the
    resolver returns that contact's id having made the search and no
    other call, and logs nothing. *)
Theorem found_contact_is_not_created (env : Env) (registrant : Registrant)
    (email id : jsval) (w : World) :
  truthy email = true ->
  cached_id email (contacts w) = None ->
  ghl env (remote w) (GetContacts email) = AxOk (Some id) ->
  exists w',
    resolve_contact env registrant email w = (Ok (Some id), w')
    /\ remote w' = remote w ++ [GetContacts email]
    /\ console w' = console w.
Proof.
  intros He Hc Hs.
  destruct (resolve_contact_run env registrant email w He)
    as (w' & Hrun & Hr & Hcon & _).
  unfold resolution in Hrun, Hr, Hcon. rewrite Hc in Hrun, Hr, Hcon.
  unfold remote_chain in Hrun, Hr, Hcon. cbv zeta in Hrun, Hr, Hcon.
  rewrite Hs in Hrun, Hr, Hcon. cbn [fst snd] in Hrun, Hr, Hcon.
  exists w'. split; [exact Hrun|]. split; [exact Hr|].
  now rewrite Hcon, app_nil_r.
Qed.

Lemma found_contact_is_not_created_witness :
  let env := an_env ghl_finds in
  let email := JStr "ada@x.com" in
  (truthy email = true
   /\ cached_id email (contacts unlinked_world) = None
   /\ ghl env (remote unlinked_world) (GetContacts email)
      = AxOk (Some (JStr "ghl-3")))
  /\ exists w',
       resolve_contact env (a_registrant email) email unlinked_world
       = (Ok (Some (JStr "ghl-3")), w')
       /\ remote w' = [GetContacts email]
       /\ map Contact.ghlContactId (contacts w') = [Some "ghl-3"%string].
Proof.
  cbv zeta. split; [repeat split|].
  destruct (found_contact_is_not_created (an_env ghl_finds)
              (a_registrant (JStr "ada@x.com")) (JStr "ada@x.com")
              (JStr "ghl-3") unlinked_world eq_refl eq_refl eq_refl)
    as (w' & Hrun & Hr & _).
  exists w'. split; [exact Hrun|]. split; [exact Hr|].
  change w' with (snd (Ok (Some (JStr "ghl-3")), w')). rewrite <- Hrun.
  reflexivity.
Defined.

(** ** What the registration path does to the contacts *)

Lemma save_step_forms (env : Env) (registrant : Registrant) (email id : jsval)
    (contact : option Contact.doc) (w : World) :
  let w' := snd (save_step env registrant email contact id w) in
  (contacts w' = contacts w /\ next_id w' = next_id w)
  \/ (exists c, contact = Some c /\ truthy id = true
                /\ contacts w' = Contact.updateOne (Contact._id c) id (contacts w)
                /\ next_id w' = next_id w)
  \/ (contact = None /\ truthy id = true
      /\ exists d, contacts w' = contacts w ++ [d]
                   /\ Contact._id d = next_id w
                   /\ Contact.ghlContactId d = castString id
                   /\ Contact.email d = Contact.castEmail email
                   /\ next_id w' = S (next_id w)).
Proof.
  cbv zeta. unfold save_step.
  destruct (truthy id) eqn:Hid; [|left; now split].
  destruct contact as [c|].
  - right. left. exists c. now repeat split.
  - unfold bind, Contact_create, Contact.create.
    destruct (negb _); [left; now split|].
    destruct (Contact.email_taken _ _); [left; now split|].
    right. right. repeat split. eexists. repeat split.
Qed.

(** The contacts after the resolver: as before, or one unlinked record
    linked in place, or one record added. *)
Lemma resolve_contact_forms (env : Env) (registrant : Registrant)
    (email : jsval) (w : World) :
  let w' := snd (resolve_contact env registrant email w) in
  (contacts w' = contacts w /\ next_id w' = next_id w)
  \/ (exists c id,
        Contact.findOne (toString email) (contacts w) = Some c
        /\ truthy (of_opt (Contact.ghlContactId c)) = false
        /\ truthy id = true
        /\ contacts w' = Contact.updateOne (Contact._id c) id (contacts w)
        /\ next_id w' = next_id w)
  \/ (Contact.findOne (toString email) (contacts w) = None
      /\ exists d id, truthy id = true
           /\ contacts w' = contacts w ++ [d]
           /\ Contact._id d = next_id w
           /\ Contact.ghlContactId d = castString id
           /\ Contact.email d = Contact.castEmail email
           /\ next_id w' = S (next_id w)).
Proof.
  cbv zeta.
  destruct (cached_id email (contacts w)) as [i|] eqn:Ec.
  - left. now rewrite (resolve_contact_cached _ _ _ _ _ Ec).
  - rewrite (resolve_contact_missing _ _ _ _ Ec), resolve_remotely_run.
    destruct (remote_chain env registrant email (remote w))
      as [[[id|] calls] lines]; [|left; now split].
    unfold bind.
    pose proof (save_step_forms env registrant email id
                  (Contact.findOne (toString email) (contacts w))
                  (after calls lines w)) as H.
    cbv zeta in H.
    destruct (save_step env registrant email _ id (after calls lines w))
      as [[[]|e] w1]; cbn [snd] in *;
      (destruct H as [H | [(c & Hc & Hid & Hup & Hn) | (Hnone & Hid & d & Hd)]];
       [left; exact H | right; left | right; right]).
    + exists c, id. apply cached_id_missing in Ec.
      unfold id_missing_locally, contact_ghlContactId in Ec. rewrite Hc in Ec.
      apply negb_true_iff in Ec. now repeat split.
    + split; [exact Hnone|]. exists d, id. tauto.
    + exists c, id. apply cached_id_missing in Ec.
      unfold id_missing_locally, contact_ghlContactId in Ec. rewrite Hc in Ec.
      apply negb_true_iff in Ec. now repeat split.
    + split; [exact Hnone|]. exists d, id. tauto.
Qed.

(** The handler changes the contacts only through its resolver. *)
Lemma handleRegistrationEvent_contacts (env : Env) (payload : option ZoomPayload)
    (eventType : jsval) (w : World) :
  (contacts (snd (handleRegistrationEvent env payload eventType w)) = contacts w
   /\ next_id (snd (handleRegistrationEvent env payload eventType w)) = next_id w)
  \/ exists o,
       match payload with Some p => object p | None => None end = Some o
       /\ truthy (clean_email (r_email (registrant_of o))) = true
       /\ contacts (snd (handleRegistrationEvent env payload eventType w))
          = contacts (snd (resolve_contact env (registrant_of o)
                             (clean_email (r_email (registrant_of o))) w))
       /\ next_id (snd (handleRegistrationEvent env payload eventType w))
          = next_id (snd (resolve_contact env (registrant_of o)
                            (clean_email (r_email (registrant_of o))) w)).
Proof.
  destruct (match payload with Some p => object p | None => None end)
    as [o|] eqn:Ho.
  2:{ left. unfold handleRegistrationEvent. rewrite Ho. now split. }
  destruct (truthy (clean_email (r_email (registrant_of o)))) eqn:He.
  2:{ left. unfold handleRegistrationEvent. rewrite Ho. cbv zeta. rewrite He.
      now split. }
  right. exists o. split; [reflexivity|]. split; [exact He|].
  rewrite (handleRegistrationEvent_body _ _ _ _ Ho He).
  unfold try_catch, bind.
  destruct (resolve_contact env (registrant_of o) _ w) as [[[id|]|e] w1];
    cbn [snd]; try (now split).
  rewrite propagate_run. cbv zeta.
  destruct (ghl env (remote w1) _); [|now split].
  destruct (workflow_id env); [|now split].
  destruct (ghl env (remote w1 ++ _) _); now split.
Qed.

Lemma same_id_same_record (cs : list Contact.doc) (a b : Contact.doc) :
  NoDup (map Contact._id cs) -> In a cs -> In b cs ->
  Contact._id a = Contact._id b -> a = b.
Proof.
  induction cs as [|x cs IH]; simpl; [tauto|].
  intros Hnd Ha Hb E. inversion Hnd as [|? ? Hx Hnd']; subst.
  destruct Ha as [-> | Ha], Hb as [-> | Hb]; auto.
  - exfalso. apply Hx. rewrite E. now apply in_map.
  - exfalso. apply Hx. rewrite <- E. now apply in_map.
Qed.

(** X8.  The registration handler never deletes a contact record, never
    changes the e-mail or the profile of one, and never replaces an id
    a record carries: with distinct [_id]s, every record of before is
    found after with the same [_id], e-mail, names, phone, location and
    dates, and with the same contact id unless it had none; at most one
    record is added. *)
Theorem registration_keeps_the_records (env : Env)
    (payload : option ZoomPayload) (eventType : jsval) (w : World) :
  NoDup (map Contact._id (contacts w)) ->
  let w' := snd (handleRegistrationEvent env payload eventType w) in
  (forall d0, In d0 (contacts w) ->
     exists d, In d (contacts w')
       /\ Contact._id d = Contact._id d0
       /\ Contact.email d = Contact.email d0
       /\ Contact.firstName d = Contact.firstName d0
       /\ Contact.lastName d = Contact.lastName d0
       /\ Contact.phone d = Contact.phone d0
       /\ Contact.locationId d = Contact.locationId d0
       /\ Contact.createdAt d = Contact.createdAt d0
       /\ Contact.updatedAt d = Contact.updatedAt d0
       /\ (Contact.ghlContactId d = Contact.ghlContactId d0
           \/ truthy (of_opt (Contact.ghlContactId d0)) = false))
  /\ length (contacts w) <= length (contacts w') <= S (length (contacts w)).
Proof.
  intros Hnd w'. subst w'.
  assert (Hsame : forall l : list Contact.doc,
             l = contacts w ->
             (forall d0, In d0 (contacts w) ->
                exists d, In d l
                  /\ Contact._id d = Contact._id d0
                  /\ Contact.email d = Contact.email d0
                  /\ Contact.firstName d = Contact.firstName d0
                  /\ Contact.lastName d = Contact.lastName d0
                  /\ Contact.phone d = Contact.phone d0
                  /\ Contact.locationId d = Contact.locationId d0
                  /\ Contact.createdAt d = Contact.createdAt d0
                  /\ Contact.updatedAt d = Contact.updatedAt d0
                  /\ (Contact.ghlContactId d = Contact.ghlContactId d0
                      \/ truthy (of_opt (Contact.ghlContactId d0)) = false))
             /\ length (contacts w) <= length l <= S (length (contacts w))).
  { intros l ->. split; [|lia]. intros d0 Hd0. exists d0. tauto. }
  destruct (handleRegistrationEvent_contacts env payload eventType w)
    as [[Hc _] | (o & _ & _ & Hc & _)]; rewrite Hc; [now apply Hsame|].
  pose proof (resolve_contact_forms env (registrant_of o)
                (clean_email (r_email (registrant_of o))) w) as H.
  cbv zeta in H.
  destruct H as [[H _] | [(c & id & Hf & Hun & Hid & H & _)
                          | (_ & d & id & _ & H & _)]];
    rewrite H; [now apply Hsame | | ].
  - split; [|unfold Contact.updateOne; rewrite length_map; lia].
    intros d0 Hd0.
    assert (Hc0 : In c (contacts w)) by exact (proj1 (find_some _ _ Hf)).
    destruct (Nat.eqb (Contact._id d0) (Contact._id c)) eqn:E.
    + apply Nat.eqb_eq in E.
      assert (d0 = c) by exact (same_id_same_record _ _ _ Hnd Hd0 Hc0 E).
      subst d0. eexists. split.
      * unfold Contact.updateOne. apply in_map_iff. exists c.
        split; [now rewrite Nat.eqb_refl | exact Hc0].
      * cbn. repeat split; auto.
    + exists d0. split; [|tauto].
      unfold Contact.updateOne. apply in_map_iff. exists d0.
      split; [now rewrite E | exact Hd0].
  - split; [|rewrite length_app; simpl; lia].
    intros d0 Hd0. exists d0. split; [apply in_or_app; now left | tauto].
Qed.

Lemma registration_keeps_the_records_witness :
  let env := an_env ghl_accepts in
  let w' := snd (handleRegistrationEvent env
                   (payload (zoom_body (a_registration
                      "webinar.registration_created" (JNum 555)
                      (JStr " Ada@X.com") None)))
                   (JStr "webinar.registration_created") unlinked_world) in
  NoDup (map Contact._id (contacts unlinked_world))
  /\ map Contact._id (contacts w') = [0]
  /\ map Contact.email (contacts w') = [Some "ada@x.com"%string]
  /\ length (contacts unlinked_world) <= length (contacts w')
     <= S (length (contacts unlinked_world)).
Proof.
  cbv zeta.
  assert (Hnd : NoDup (map Contact._id (contacts unlinked_world))).
  { vm_compute. repeat constructor. intros []. }
  split; [exact Hnd|].
  destruct (registration_keeps_the_records (an_env ghl_accepts)
              (payload (zoom_body (a_registration
                 "webinar.registration_created" (JNum 555)
                 (JStr " Ada@X.com") None)))
              (JStr "webinar.registration_created") unlinked_world Hnd)
    as [_ Hlen].
  split; [reflexivity|]. split; [reflexivity | exact Hlen].
Defined.

Lemma filter_head_find {A : Type} (p : A -> bool) (l r : list A) (a : A) :
  filter p l = a :: r -> find p l = Some a.
Proof.
  induction l as [|x l IH]; simpl; [discriminate|].
  destruct (p x); [now intros [= -> _] | exact IH].
Qed.

(** *** Spellings of one e-mail *)

Lemma in_all_ascii (c : ascii) : In c all_ascii.
Proof.
  unfold all_ascii. rewrite <- (ascii_nat_embedding c).
  apply in_map, in_seq. pose proof (nat_ascii_bounded c). lia.
Qed.

Lemma same_letter_lower (a b : ascii) :
  same_letter a b = true ->
  lower_ascii a = lower_ascii b /\ is_space a = is_space b.
Proof.
  assert (H : forallb (fun a => forallb (fun b =>
                implb (same_letter a b)
                  (Ascii.eqb (lower_ascii a) (lower_ascii b)
                   && Bool.eqb (is_space a) (is_space b))) all_ascii) all_ascii
              = true) by (vm_compute; reflexivity).
  rewrite forallb_forall in H. specialize (H a (in_all_ascii a)).
  rewrite forallb_forall in H. specialize (H b (in_all_ascii b)).
  intros E. rewrite E in H. cbn [implb] in H.
  apply andb_true_iff in H. destruct H as [H1 H2].
  split; [now apply Ascii.eqb_eq | now apply Bool.eqb_prop].
Qed.

Lemma blank_is_space (c : ascii) :
  existsb (Nat.eqb (nat_of_ascii c)) [9; 10; 11; 12; 13; 32] = true ->
  is_space c = true.
Proof.
  assert (H : forallb (fun c =>
                implb (existsb (Nat.eqb (nat_of_ascii c)) [9; 10; 11; 12; 13; 32])
                  (is_space c)) all_ascii = true) by (vm_compute; reflexivity).
  rewrite forallb_forall in H. specialize (H c (in_all_ascii c)).
  intros E. now rewrite E in H.
Qed.

Lemma same_ignoring_case_empty (s t : string) :
  same_ignoring_case s t = true -> String.eqb s "" = String.eqb t "".
Proof. destruct s, t; simpl; (discriminate || reflexivity). Qed.

Lemma same_ignoring_case_lower (s t : string) :
  same_ignoring_case s t = true -> toLowerCase s = toLowerCase t.
Proof.
  revert t. induction s as [|a s IH]; intros [|b t]; simpl;
    try discriminate; [reflexivity|].
  intros H. apply andb_true_iff in H. destruct H as [Hab H].
  destruct (same_letter_lower a b Hab) as [-> _]. now rewrite (IH t H).
Qed.

Lemma same_ignoring_case_trimStart (s t : string) :
  same_ignoring_case s t = true ->
  same_ignoring_case (trimStart s) (trimStart t) = true.
Proof.
  revert t. induction s as [|a s IH]; intros [|b t]; simpl;
    try discriminate; [reflexivity|].
  intros H. pose proof H as H'. apply andb_true_iff in H'.
  destruct H' as [Hab Hst].
  destruct (same_letter_lower a b Hab) as [_ <-].
  destruct (is_space a); [now apply IH | exact H].
Qed.

Lemma same_ignoring_case_trimEnd (s t : string) :
  same_ignoring_case s t = true ->
  same_ignoring_case (trimEnd s) (trimEnd t) = true.
Proof.
  revert t. induction s as [|a s IH]; intros [|b t]; simpl;
    try discriminate; [reflexivity|].
  intros H. apply andb_true_iff in H. destruct H as [Hab Hst].
  destruct (same_letter_lower a b Hab) as [_ <-].
  specialize (IH t Hst).
  rewrite <- (same_ignoring_case_empty _ _ IH).
  destruct (is_space a && String.eqb (trimEnd s) ""); [reflexivity|].
  simpl. now rewrite Hab, IH.
Qed.

Lemma all_blank_trimStart (pre s : string) :
  all_blank pre = true -> trimStart (pre ++ s) = trimStart s.
Proof.
  induction pre as [|c pre IH]; simpl; [reflexivity|].
  intros H. apply andb_true_iff in H. destruct H as [Hc H].
  now rewrite (blank_is_space c Hc), IH.
Qed.

Lemma all_blank_trimStart_nil (post : string) :
  all_blank post = true -> trimStart post = ""%string.
Proof.
  induction post as [|c post IH]; simpl; [reflexivity|].
  intros H. apply andb_true_iff in H. destruct H as [Hc H].
  now rewrite (blank_is_space c Hc), (IH H).
Qed.

Lemma all_blank_trimEnd_nil (post : string) :
  all_blank post = true -> trimEnd post = ""%string.
Proof.
  induction post as [|c post IH]; simpl; [reflexivity|].
  intros H. apply andb_true_iff in H. destruct H as [Hc H].
  now rewrite (blank_is_space c Hc), (IH H).
Qed.

Lemma all_blank_trimEnd (s post : string) :
  all_blank post = true -> trimEnd (s ++ post) = trimEnd s.
Proof.
  intros H. induction s as [|c s IH]; simpl.
  - now apply all_blank_trimEnd_nil.
  - now rewrite IH.
Qed.

Lemma all_blank_trim (pre s post : string) :
  all_blank pre = true -> all_blank post = true ->
  trim (pre ++ s ++ post) = trim s.
Proof.
  intros Hpre Hpost. unfold trim. rewrite (all_blank_trimStart _ _ Hpre).
  induction s as [|c s IH]; simpl.
  - now rewrite (all_blank_trimStart_nil post Hpost).
  - destruct (is_space c); [exact IH|].
    change (String c (s ++ post)) with (String c s ++ post)%string.
    now apply all_blank_trimEnd.
Qed.

(** The cleaning does not see the case of the letters nor the white
    space around the e-mail. *)
Lemma clean_email_spelling (s s' pre post : string) :
  same_ignoring_case s s' = true ->
  all_blank pre = true -> all_blank post = true ->
  clean_email (JStr (pre ++ s' ++ post)) = clean_email (JStr s).
Proof.
  intros Hs Hpre Hpost.
  assert (E : forall x, clean_email (JStr x) = JStr (toLowerCase (trim x))).
  { intros [|c x]; reflexivity. }
  rewrite !E, (all_blank_trim _ _ _ Hpre Hpost). f_equal. symmetry.
  apply same_ignoring_case_lower. unfold trim.
  now apply same_ignoring_case_trimEnd, same_ignoring_case_trimStart.
Qed.

(** X9.  What the resolver resolves, it finds in the cache the next
    time.  When the resolver ends with a (truthy) id for a cleaned
    e-mail, the cache holds that id for the e-mail, and a later run for
    the same e-mail, whatever the remote API and the registrant fields
    then are, returns the id without any remote call and without
    changing the world.  So does a later run for another spelling of
    the e-mail: the same characters up to the case of the letters A to
    Z, with white space before or after. *)
Theorem resolved_contact_is_cached (env : Env) (registrant : Registrant)
    (raw id : jsval) (w w1 : World) :
  let email := clean_email raw in
  NoDup (map Contact.email (contacts w)) ->
  resolve_contact env registrant email w = (Ok (Some id), w1) ->
  truthy id = true ->
  cached_id email (contacts w1) = Some (toString id)
  /\ (forall env' registrant',
        resolve_contact env' registrant' email w1
        = (Ok (Some (JStr (toString id))), w1))
  /\ (forall s s' pre post env' registrant',
        raw = JStr s ->
        same_ignoring_case s s' = true ->
        all_blank pre = true -> all_blank post = true ->
        resolve_contact env' registrant'
          (clean_email (JStr (pre ++ s' ++ post))) w1
        = (Ok (Some (JStr (toString id))), w1)).
Proof.
  intros email Hnd Hres Hid.
  assert (Hcached : cached_id email (contacts w1) = Some (toString id)).
  { destruct (cached_id email (contacts w)) as [i|] eqn:Ec.
    - rewrite (resolve_contact_cached _ _ _ _ _ Ec) in Hres.
      now injection Hres as <- <-.
    - rewrite (resolve_contact_missing _ _ _ _ Ec), resolve_remotely_run in Hres.
      destruct (remote_chain env registrant email (remote w))
        as [[[id'|] calls] lines]; [|discriminate].
      unfold bind in Hres.
      destruct (save_step env registrant email _ id' (after calls lines w))
        as [[[]|e] w2] eqn:Es; [|discriminate].
      unfold ret in Hres. injection Hres as <- <-.
      destruct (save_step_contacts env registrant email id' _
                  (after calls lines w) w2 Hid eq_refl Hnd Es)
        as [(d & Hrec & Hg & _) _].
      unfold cached_id, Contact.findOne.
      unfold records_for, email_key in Hrec.
      rewrite (filter_head_find _ _ _ _ Hrec), Hg.
      pose proof (truthy_toString _ Hid) as Hne.
      apply String.eqb_neq in Hne. now rewrite Hne. }
  split; [exact Hcached|]. split.
  - intros env' registrant'. now apply resolve_contact_cached.
  - intros s s' pre post env' registrant' Hraw Hs Hpre Hpost.
    rewrite (clean_email_spelling s s' pre post Hs Hpre Hpost).
    subst email raw. now apply resolve_contact_cached.
Qed.

Lemma resolved_contact_is_cached_witness :
  let env := an_env ghl_accepts in
  let raw := JStr "Ada@X.com" in
  let w1 := snd (resolve_contact env (a_registrant raw) (clean_email raw)
                   unlinked_world) in
  (NoDup (map Contact.email (contacts unlinked_world))
   /\ resolve_contact env (a_registrant raw) (clean_email raw) unlinked_world
      = (Ok (Some (JStr "ghl-1")), w1)
   /\ truthy (JStr "ghl-1") = true)
  /\ resolve_contact (an_env ghl_refuses_creation)
       (a_registrant (JStr "  ADA@x.COM "))
       (clean_email (JStr "  ADA@x.COM ")) w1
     = (Ok (Some (JStr "ghl-1")), w1).
Proof.
  cbv zeta.
  assert (Hnd : NoDup (map Contact.email (contacts unlinked_world))).
  { vm_compute. repeat constructor. intros []. }
  split; [split; [exact Hnd | split; reflexivity]|].
  destruct (resolved_contact_is_cached (an_env ghl_accepts)
              (a_registrant (JStr "Ada@X.com")) (JStr "Ada@X.com")
              (JStr "ghl-1") unlinked_world _ Hnd eq_refl eq_refl)
    as (_ & _ & Hspell).
  exact (Hspell "Ada@X.com" "ADA@x.COM" "  " " " (an_env ghl_refuses_creation)
           (a_registrant (JStr "  ADA@x.COM ")) eq_refl eq_refl eq_refl
           eq_refl)%string.
Defined.

(** ** Which events reach the remote API *)

Lemma registration_calls_workflow (env : Env) (payload : option ZoomPayload)
    (w : World) (c wf ts : string) :
  In (PostWorkflow c wf ts) (registration_calls env payload w) ->
  workflow_id env = Some wf
  /\ ts = eventStartTime (now env)
  /\ In (PostTags c (global_tags (settings w))) (registration_calls env payload w).
Proof.
  unfold registration_calls.
  destruct (match payload with Some p => object p | None => None end)
    as [o|]; [|intros []].
  cbv zeta. destruct (negb _); [intros []|].
  assert (Hres : forall x, In x (snd (fst (resolution env (registrant_of o)
                     (clean_email (r_email (registrant_of o))) w))) ->
                   forall a b d, x <> PostWorkflow a b d).
  { unfold resolution.
    destruct (cached_id _ _); [intros x []|].
    destruct (remote_chain_calls env (registrant_of o)
                (clean_email (r_email (registrant_of o))) (remote w))
      as (rest & -> & [-> | ->]); intros x Hx a b d ->; simpl in Hx;
      intuition discriminate. }
  destruct (resolution _ _ _ _) as [[[rid|] calls] lines]; cbn [fst snd] in Hres.
  - intros Hin. apply in_app_or in Hin. destruct Hin as [Hin | Hin].
    + exfalso. exact (Hres _ Hin c wf ts eq_refl).
    + unfold propagation_calls, tags_call, workflow_call in *. cbv zeta in *.
      destruct (ghl env _ _); destruct (workflow_id env) as [wf'|];
        simpl in Hin; try (intuition discriminate).
      destruct Hin as [Hin | [Hin | []]]; [discriminate|].
      injection Hin as <- <- <-. split; [reflexivity|]. split; [reflexivity|].
      apply in_or_app. right. now left.
  - intros Hin. exfalso. exact (Hres _ Hin c wf ts eq_refl).
Qed.

(** X10.  Workflow enrolments.  Every enrolment the event-source webhook
    posts is for the workflow of GHL_WORKFLOW_ID, carries the timestamp
    built from the time of the run, and comes with a tag call for the
    same contact in the same run; without GHL_WORKFLOW_ID (absent or
    empty) no enrolment is ever posted. *)
Theorem enrolments_follow_configuration (env : Env) (req : ZoomRequest)
    (w : World) :
  exists new,
    remote (snd (zoom_webhook env req w)) = remote w ++ new
    /\ (forall c wf ts, In (PostWorkflow c wf ts) new ->
          GHL_WORKFLOW_ID (process_env env) = Some wf /\ wf <> ""%string
          /\ ts = eventStartTime (now env)
          /\ In (PostTags c (global_tags (settings w))) new)
    /\ (GHL_WORKFLOW_ID (process_env env) = None
        \/ GHL_WORKFLOW_ID (process_env env) = Some ""%string ->
        forall c wf ts, ~ In (PostWorkflow c wf ts) new).
Proof.
  destruct (zoom_webhook_calls env req w) as (new & Hr & _ & Hnew).
  exists new. split; [exact Hr|].
  assert (H : forall c wf ts, In (PostWorkflow c wf ts) new ->
                GHL_WORKFLOW_ID (process_env env) = Some wf /\ wf <> ""%string
                /\ ts = eventStartTime (now env)
                /\ In (PostTags c (global_tags (settings w))) new).
  { intros c wf ts Hin. destruct Hnew as [-> | ->]; [destruct Hin|].
    unfold process_calls in *.
    destruct (is_registration _); [|destruct Hin].
    destruct (registration_calls_workflow _ _ _ _ _ _ Hin) as (Hwf & Hts & Htag).
    unfold workflow_id in Hwf.
    destruct (GHL_WORKFLOW_ID (process_env env)) as [x|]; [|discriminate].
    destruct (truthy (JStr x)) eqn:Hx; [|discriminate].
    injection Hwf as ->. repeat split; auto.
    intros ->. discriminate. }
  split; [exact H|].
  intros Hoff c wf ts Hin. destruct (H c wf ts Hin) as (Hwf & Hne & _).
  destruct Hoff as [Hoff | Hoff]; rewrite Hoff in Hwf; [discriminate|].
  injection Hwf as <-. now apply Hne.
Qed.

Lemma enrolments_follow_configuration_witness :
  (exists new,
     remote (snd (zoom_webhook (a_verifying_env ghl_accepts)
                    (signed "v0=secret/v0:1700000000:{}" reg_a) empty_world))
     = remote empty_world ++ new
     /\ forall c wf ts, ~ In (PostWorkflow c wf ts) new)
  /\ In (PostWorkflow "ghl-1" "wf-1" "2026-11-02T09:05:00+00:00")
        (remote (snd (zoom_webhook (an_env ghl_accepts) reg_a empty_world))).
Proof.
  split.
  - destruct (enrolments_follow_configuration (a_verifying_env ghl_accepts)
                (signed "v0=secret/v0:1700000000:{}" reg_a) empty_world)
      as (new & Hr & _ & Hoff).
    exists new. split; [exact Hr|]. apply Hoff. left. reflexivity.
  - vm_compute. right. right. right. now left.
Defined.

(** The contacts after a run of the webhook are those the registration
    handler leaves, when it is run at all. *)
Lemma zoom_webhook_contacts (env : Env) (req : ZoomRequest) (w : World) :
  contacts (snd (zoom_webhook env req w)) = contacts w
  \/ (is_registration (event (zoom_body req)) = true
      /\ exists w0,
           contacts w0 = contacts w
           /\ contacts (snd (zoom_webhook env req w))
              = contacts (snd (handleRegistrationEvent env
                                 (payload (zoom_body req))
                                 (event (zoom_body req)) w0))).
Proof.
  assert (Hproc : forall w0, contacts w0 = contacts w ->
            contacts (snd (respond (process_step env req)
                             "Error processing webhook:" w0)) = contacts w
            \/ (is_registration (event (zoom_body req)) = true
                /\ contacts (snd (respond (process_step env req)
                                    "Error processing webhook:" w0))
                   = contacts (snd (handleRegistrationEvent env
                                      (payload (zoom_body req))
                                      (event (zoom_body req)) w0)))).
  { intros w0 H0. unfold respond, process_step, bind.
    destruct (is_registration (event (zoom_body req))).
    - right. split; [reflexivity|].
      destruct (handleRegistrationEvent_run env (payload (zoom_body req))
                  (event (zoom_body req)) w0) as (w' & -> & _). reflexivity.
    - left. exact H0. }
  destruct (is_validation req) eqn:Hv.
  - left. unfold zoom_webhook, zoom_webhook_at, respond.
    rewrite (zoom_webhook_try_validation _ _ _ _ Hv).
    destruct (negb _ || negb _); [reflexivity|].
    destruct (plainToken_of req); reflexivity.
  - destruct (signature_rejected env req) eqn:Hs.
    { left. unfold zoom_webhook.
      now rewrite (zoom_webhook_rejected _ _ _ _ Hv Hs). }
    unfold zoom_webhook, zoom_webhook_at.
    rewrite (zoom_webhook_try_admitted _ _ _ Hv Hs).
    unfold respond, bind in Hproc |- *. rewrite ledger_step_run.
    destruct (truthy (deriveEventId req)).
    + destruct (in_ledger (deriveEventId req) (zoomEvents w)); [now left|].
      destruct (ZoomEvent.create _ _ _ _ _) as [e | l]; [now left|].
      destruct (Hproc (with_zoomEvents l w) eq_refl) as [H | [Hreg H]].
      * left. exact H.
      * right. split; [exact Hreg|]. exists (with_zoomEvents l w).
        split; [reflexivity | exact H].
    + destruct (Hproc w eq_refl) as [H | [Hreg H]].
      * left. exact H.
      * right. split; [exact Hreg|]. exists w. split; [reflexivity | exact H].
Qed.

(** X11.  Only a registration with an e-mail reaches the contacts and
    the remote API.  A notification of another event type, one without
    [payload.object], or one whose registrant e-mail is missing or
    blank leaves the contacts and the settings as they are and makes no
    remote call, whatever the gate and the ledger do with it. *)
Theorem other_events_are_only_recorded (env : Env) (req : ZoomRequest)
    (w : World) :
  is_registration (event (zoom_body req)) = false
  \/ match payload (zoom_body req) with Some p => object p | None => None end
     = None
  \/ (exists o s,
        match payload (zoom_body req) with Some p => object p | None => None end
        = Some o
        /\ js_or (r_email (registrant_of o)) (JStr "") = JStr s
        /\ trim s = ""%string) ->
  remote (snd (zoom_webhook env req w)) = remote w
  /\ contacts (snd (zoom_webhook env req w)) = contacts w
  /\ settings (snd (zoom_webhook env req w)) = settings w.
Proof.
  intros H.
  assert (Hskip : is_registration (event (zoom_body req)) = false
                  \/ forall o,
                       match payload (zoom_body req) with
                       | Some p => object p | None => None end = Some o ->
                       truthy (clean_email (r_email (registrant_of o))) = false).
  { destruct H as [H | [H | (o & s & Ho & Hs & Ht)]]; [now left | |].
    - right. intros o Ho. congruence.
    - right. intros o' Ho'. rewrite Ho in Ho'. injection Ho' as <-.
      unfold clean_email. rewrite Hs, Ht. reflexivity. }
  clear H.
  destruct (zoom_webhook_calls env req w) as (new & Hr & Hset & Hnew).
  split; [|split; [|exact Hset]].
  - rewrite Hr. destruct Hnew as [-> | ->]; [apply app_nil_r|].
    unfold process_calls, registration_calls.
    destruct Hskip as [-> | Hskip]; [apply app_nil_r|].
    destruct (is_registration _); [|apply app_nil_r].
    destruct (match payload (zoom_body req) with
              | Some p => object p | None => None end) as [o|];
      [|apply app_nil_r].
    cbv zeta. rewrite (Hskip o eq_refl). apply app_nil_r.
  - destruct (zoom_webhook_contacts env req w) as [H | (Hreg & w0 & H0 & H)];
      [exact H|].
    destruct Hskip as [Hskip | Hskip]; [congruence|].
    rewrite H.
    destruct (handleRegistrationEvent_contacts env (payload (zoom_body req))
                (event (zoom_body req)) w0) as [[Hc _] | (o & Ho & He & _)].
    + now rewrite Hc.
    + rewrite (Hskip o Ho) in He. discriminate.
Qed.

Lemma other_events_are_only_recorded_witness :
  let env := an_env ghl_accepts in
  let ended := a_session_event "meeting.ended" (JStr "uuid-1") (JStr "a@x.com") in
  let blank := a_registration "webinar.registration_created" (JNum 555)
                 (JStr "   ") (Some "1700000000") in
  (is_registration (event (zoom_body ended)) = false
   /\ fst (zoom_webhook env ended empty_world) = received_response
   /\ remote (snd (zoom_webhook env ended empty_world)) = []
   /\ map ZoomEvent.eventId (zoomEvents (snd (zoom_webhook env ended empty_world)))
      = ["uuid-1"%string])
  /\ (fst (zoom_webhook env blank empty_world) = received_response
      /\ remote (snd (zoom_webhook env blank empty_world)) = []
      /\ contacts (snd (zoom_webhook env blank empty_world)) = []).
Proof.
  cbv zeta. split.
  - split; [reflexivity|]. split; [reflexivity|]. split; [|reflexivity].
    apply (other_events_are_only_recorded (an_env ghl_accepts)
             (a_session_event "meeting.ended" (JStr "uuid-1") (JStr "a@x.com"))
             empty_world).
    left. reflexivity.
  - split; [reflexivity|].
    destruct (other_events_are_only_recorded (an_env ghl_accepts)
                (a_registration "webinar.registration_created" (JNum 555)
                   (JStr "   ") (Some "1700000000")) empty_world)
      as (Hr & Hc & _); [|split; [exact Hr | exact Hc]].
    right. right. exists (an_object (JNum 555) (JStr "   ")), "   "%string.
    repeat split.
Defined.

(* ------------------------------------------------------------------ *)
(** ** The earlier version against the current one *)

Lemma deriveEventId_without_composite (req : ZoomRequest) :
  carries_both req = false -> deriveEventId req = Legacy.deriveEventId req.
Proof.
  unfold carries_both, meetingId_of, registrantEmail, deriveEventId,
    Legacy.deriveEventId, js_or.
  cbv zeta. now intros ->.
Qed.

(** X12.  The composite identity changed the ledger only for the
    notifications that carry both a session id and a registrant e-mail:
    for every other notification the "Idempotency Check" of the current
    handler, run alone, ends as the one of the earlier version does, in
    the same world. *)
Theorem ledger_unchanged_without_composite (env : Env) (req : ZoomRequest)
    (w : World) :
  carries_both req = false ->
  ledger_step (fun w => w) env req w = Legacy.idempotency_check env req w.
Proof.
  intros H. unfold ledger_step, Legacy.idempotency_check. cbv zeta.
  rewrite (deriveEventId_without_composite req H).
  destruct (truthy (Legacy.deriveEventId req)); [|reflexivity].
  unfold bind, ZoomEvent_findOne, meanwhile.
  destruct (ZoomEvent.findOne _ _); reflexivity.
Qed.

Lemma ledger_unchanged_without_composite_witness :
  let env := an_env ghl_accepts in
  let req := a_session_event "meeting.ended" (JStr "uuid-1") (JStr "a@x.com") in
  carries_both req = false
  /\ ledger_step (fun w => w) env req empty_world
     = Legacy.idempotency_check env req empty_world
  /\ map ZoomEvent.eventId
       (zoomEvents (snd (Legacy.idempotency_check env req empty_world)))
     = ["uuid-1"%string].
Proof.
  cbv zeta. split; [reflexivity|]. split; [|reflexivity].
  apply (ledger_unchanged_without_composite (an_env ghl_accepts)
           (a_session_event "meeting.ended" (JStr "uuid-1") (JStr "a@x.com"))
           empty_world).
  reflexivity.
Defined.

Lemma legacy_check_run (env : Env) (req : ZoomRequest) (w : World) :
  truthy (Legacy.deriveEventId req) = true ->
  Legacy.idempotency_check env req w =
    if in_ledger (Legacy.deriveEventId req) (zoomEvents w) then (Ok true, w)
    else
      match ZoomEvent.create (Legacy.deriveEventId req) (event (zoom_body req))
              (registrantEmail_of (payload (zoom_body req))) (now env)
              (zoomEvents w) with
      | inl e => (Throw e, w)
      | inr l => (Ok false, with_zoomEvents l w)
      end.
Proof.
  intros Ht. unfold Legacy.idempotency_check. cbv zeta. rewrite Ht.
  unfold bind, ZoomEvent_findOne, ZoomEvent_create, ret.
  destruct (in_ledger _ _) eqn:E.
  - apply findOne_in_ledger in E. destruct E as [d ->]. reflexivity.
  - apply not_in_ledger in E. rewrite E.
    destruct (ZoomEvent.create _ _ _ _ _); reflexivity.
Qed.

(** X13.  The earlier version identified a notification by the uuid of
    the session alone.  Once its "Idempotency Check" has let one
    notification through, every later notification with the same uuid
    is a duplicate, whoever the registrant is, and leaves the world as
    it is: the second registrant of a session was never processed. *)
Theorem legacy_identity_ignores_the_registrant (env : Env)
    (first second : ZoomRequest) (w : World) (duplicate : bool) :
  truthy (uuid_of first) = true ->
  uuid_of second = uuid_of first ->
  fst (Legacy.idempotency_check env first w) = Ok duplicate ->
  Legacy.idempotency_check env second (snd (Legacy.idempotency_check env first w))
  = (Ok true, snd (Legacy.idempotency_check env first w)).
Proof.
  intros Ht Hu.
  assert (H1 : Legacy.deriveEventId first = uuid_of first).
  { unfold Legacy.deriveEventId, js_or. fold (uuid_of first). now rewrite Ht. }
  assert (H2 : Legacy.deriveEventId second = uuid_of first).
  { unfold Legacy.deriveEventId, js_or. fold (uuid_of second).
    now rewrite Hu, Ht. }
  assert (Ht1 : truthy (Legacy.deriveEventId first) = true) by now rewrite H1.
  assert (Ht2 : truthy (Legacy.deriveEventId second) = true) by now rewrite H2.
  rewrite (legacy_check_run env first w Ht1).
  destruct (in_ledger (Legacy.deriveEventId first) (zoomEvents w)) eqn:E.
  - intros _. cbn [snd]. rewrite (legacy_check_run env second w Ht2).
    now rewrite H2, <- H1, E.
  - destruct (ZoomEvent.create _ _ _ _ _) as [e | l] eqn:Ec;
      cbn [fst snd]; [discriminate|]. intros _.
    rewrite (legacy_check_run env second _ Ht2).
    apply create_in_ledger in Ec. destruct Ec as (_ & Hin & _).
    cbn [zoomEvents with_zoomEvents]. now rewrite H2, <- H1, Hin.
Qed.

Lemma legacy_identity_ignores_the_registrant_witness :
  let env := an_env ghl_accepts in
  let ada := a_seat (JStr "uuid-1") (JStr "ada@x.com") in
  let bob := a_seat (JStr "uuid-1") (JStr "bob@x.com") in
  let w1 := snd (Legacy.idempotency_check env ada empty_world) in
  fst (Legacy.idempotency_check env ada empty_world) = Ok false
  /\ Legacy.idempotency_check env bob w1 = (Ok true, w1)
  /\ fst (zoom_webhook env bob (snd (zoom_webhook env ada empty_world)))
     = received_response
  /\ map Contact.email
       (contacts (snd (zoom_webhook env bob (snd (zoom_webhook env ada empty_world)))))
     = [Some "ada@x.com"%string; Some "bob@x.com"%string].
Proof.
  cbv zeta. split; [reflexivity|]. split; [|split; reflexivity].
  apply (legacy_identity_ignores_the_registrant (an_env ghl_accepts)
           (a_seat (JStr "uuid-1") (JStr "ada@x.com"))
           (a_seat (JStr "uuid-1") (JStr "bob@x.com")) empty_world false);
    reflexivity.
Defined.

(** X14.  The two versions of [searchGHLContact] make the same single
    request.  The earlier one never throws: it logs every failure and
    answers [null], so a search that was refused looks like a contact
    that does not exist.  The current one throws exactly the failures
    whose status is not 404, logs nothing itself, and whenever it
    returns the earlier one returns the same contact. *)
Theorem search_versions (env : Env) (email : jsval) (w : World) :
  let current := searchGHLContact env email w in
  let earlier := Legacy.searchGHLContact env email w in
  remote (snd current) = remote w ++ [GetContacts email]
  /\ remote (snd earlier) = remote w ++ [GetContacts email]
  /\ console (snd current) = console w
  /\ (exists c, fst earlier = Ok c)
  /\ (forall c, fst current = Ok c -> fst earlier = Ok c)
  /\ (forall e, fst current = Throw e <->
        exists r, ghl env (remote w) (GetContacts email) = AxFail r
                  /\ status_is (AxiosError r) 404 = false
                  /\ e = AxiosError r)
  /\ (forall r, ghl env (remote w) (GetContacts email) = AxFail r ->
        fst earlier = Ok None
        /\ console (snd earlier) = console w ++ [ConsoleError "GHL Search Error:"]).
Proof.
  cbv zeta.
  unfold searchGHLContact, Legacy.searchGHLContact, try_catch, ghlAxios, bind,
    console_error, ret, throw.
  destruct (ghl env (remote w) (GetContacts email)) as [c | r] eqn:Eg.
  - cbn. repeat split; eauto; try discriminate.
    intros (r & [=] & _).
  - destruct (status_is (AxiosError r) 404) eqn:E404; cbn.
    + repeat split; eauto; try discriminate.
      * intros (r' & [= <-] & H & _). congruence.
    + repeat split; eauto; try discriminate.
      * intros [= <-]. now exists r.
      * intros (r' & [= <-] & _ & ->). reflexivity.
Qed.

Lemma search_versions_witness :
  let env := an_env ghl_forbidden_conflict in
  let forbidden := AxiosError (Some {| ar_status := 403;
                                       ar_meta_contactId := JUndefined |}) in
  fst (searchGHLContact env (JStr "a@x.com") empty_world) = Throw forbidden
  /\ fst (Legacy.searchGHLContact env (JStr "a@x.com") empty_world) = Ok None.
Proof.
  cbv zeta.
  destruct (search_versions (an_env ghl_forbidden_conflict) (JStr "a@x.com")
              empty_world) as (_ & _ & _ & _ & _ & Hthrow & Hfail).
  split.
  - apply Hthrow. eexists. split; [reflexivity|]. split; reflexivity.
  - apply (Hfail (Some {| ar_status := 403; ar_meta_contactId := JUndefined |})).
    reflexivity.
Defined.

(* ------------------------------------------------------------------ *)
(** ** The time stamp of an enrolment *)

Lemma has_format_app (f1 f2 s1 s2 : string) :
  has_format f1 s1 = true -> has_format f2 s2 = true ->
  has_format (f1 ++ f2) (s1 ++ s2) = true.
Proof.
  revert s1. induction f1 as [|f f1 IH]; intros [|c s1]; simpl;
    try discriminate; [now intros _|].
  intros H H2. apply andb_true_iff in H. destruct H as [Hc H1].
  rewrite Hc. simpl. now apply IH.
Qed.

(** A check that holds on every number of a range holds on each. *)
Lemma checked_range (P : Z -> bool) (lo : Z) (n : nat) :
  forallb (fun k => P (lo + Z.of_nat k)%Z) (seq 0 n) = true ->
  forall z, (lo <= z < lo + Z.of_nat n)%Z -> P z = true.
Proof.
  intros H z Hz. rewrite forallb_forall in H.
  specialize (H (Z.to_nat (z - lo))).
  replace (lo + Z.of_nat (Z.to_nat (z - lo)))%Z with z in H by lia.
  apply H. apply in_seq. lia.
Qed.

Lemma pad_two_digits (n : Z) :
  (0 <= n <= 99)%Z -> has_format "dd" (toString (pad n)) = true.
Proof.
  intros H.
  apply (checked_range (fun n => has_format "dd" (toString (pad n))) 0 100);
    [vm_compute; reflexivity | lia].
Qed.

Lemma year_four_digits (n : Z) :
  (1000 <= n <= 9999)%Z -> has_format "dddd" (toString (JNum n)) = true.
Proof.
  intros H.
  apply (checked_range (fun n => has_format "dddd" (toString (JNum n))) 1000
           (Z.to_nat 9000));
    [vm_compute; reflexivity | lia].
Qed.

(** X15.  For a date with a four-digit year the time stamp that
    [addContactToWorkflow] sends has the form the remote API asks for,
    [YYYY-MM-DDTHH:mm:ss+00:00]: every field zero-padded to its width,
    the separators in place, and the explicit offset at the end. *)
Theorem eventStartTime_format (d : Date) :
  four_digit_year d ->
  has_format "dddd-dd-ddTdd:dd:dd+00:00" (eventStartTime d) = true.
Proof.
  intros (Hy & HM & Hd & HH & Hm & Hs). unfold eventStartTime. cbv zeta.
  change "dddd-dd-ddTdd:dd:dd+00:00"%string
    with ("dddd" ++ "-" ++ "dd" ++ "-" ++ "dd" ++ "T" ++ "dd" ++ ":" ++ "dd"
            ++ ":" ++ "dd" ++ "+00:00")%string.
  repeat first
    [ apply has_format_app
    | reflexivity
    | apply year_four_digits; lia
    | apply pad_two_digits; lia ].
Qed.

Lemma eventStartTime_format_witness :
  eventStartTime a_date = "2026-11-02T09:05:00+00:00"%string
  /\ has_format "dddd-dd-ddTdd:dd:dd+00:00" (eventStartTime a_date) = true.
Proof.
  split; [reflexivity|].
  apply (eventStartTime_format a_date).
  unfold four_digit_year, a_date. cbn. lia.
Defined.

(* ------------------------------------------------------------------ *)
(** ** The requests of one registration *)

(** X16.  One registration event costs at most four requests to the
    remote API, in a fixed order: the search, the creation, the tagging,
    the enrolment, each at most once.  A contact is created only after
    the search of the same run, and enrolled only after the tagging of
    the same contact.  The search asks for the cleaned e-mail (trimmed,
    lower case), while the creation posts the registrant's fields as
    they were received. *)
Theorem registration_call_budget (env : Env) (payload : option ZoomPayload)
    (eventType : jsval) (w : World) :
  exists calls,
    remote (snd (handleRegistrationEvent env payload eventType w))
    = remote w ++ calls
    /\ calls = filter is_search calls ++ filter is_creation calls
               ++ filter is_tagging calls ++ filter is_enrolment calls
    /\ calls_of is_search calls <= 1
    /\ calls_of is_creation calls <= calls_of is_search calls
    /\ calls_of is_tagging calls <= 1
    /\ calls_of is_enrolment calls <= calls_of is_tagging calls
    /\ length calls <= 4
    /\ (forall id wf ts, In (PostWorkflow id wf ts) calls ->
          exists tags, In (PostTags id tags) calls)
    /\ (forall c, In c calls ->
          exists objectData,
            match payload with Some p => object p | None => None end
            = Some objectData
            /\ match c with
               | GetContacts query =>
                   query = clean_email (r_email (registrant_of objectData))
               | PostContact body =>
                   body = create_payload env (registrant_of objectData)
                   /\ cp_email body = r_email (registrant_of objectData)
               | _ => True
               end).
Proof.
  destruct (handleRegistrationEvent_run env payload eventType w)
    as (w' & Hrun & Hr & _).
  rewrite Hrun. cbn [snd]. exists (registration_calls env payload w).
  split; [exact Hr|]. clear Hrun Hr w'.
  unfold registration_calls.
  destruct (match payload with Some p => object p | None => None end)
    as [objectData|];
    [|cbn; repeat split; try lia; try (intros ? ? ? []); intros c []].
  cbv zeta.
  destruct (negb _);
    [cbn; repeat split; try lia; try (intros ? ? ? []); intros c []|].
  unfold resolution, remote_chain, propagation_calls, calls_of, tags_call,
    workflow_call.
  cbv zeta.
  repeat match goal with
         | |- context [match cached_id ?a ?b with _ => _ end] =>
             destruct (cached_id a b)
         | |- context [match ghl ?e ?h ?c with _ => _ end] =>
             destruct (ghl e h c) as [[?|]|?]
         | |- context [match create_id ?a with _ => _ end] =>
             destruct (create_id a)
         | |- context [match workflow_id ?e with _ => _ end] =>
             destruct (workflow_id e)
         end;
    cbn; (repeat split; try lia);
    try (match goal with
         | |- forall _ _ _, _ =>
             intros id wf ts Hin;
             repeat (destruct Hin as [Hin | Hin];
                     [ solve [ discriminate
                             | injection Hin as <- <- <-; eexists;
                               repeat (first [left; reflexivity | right]) ]
                     | ]);
             destruct Hin
         end);
    intros c Hc; exists objectData; (split; [reflexivity|]);
    repeat (destruct Hc as [<- | Hc]; [try exact I; try (split; reflexivity); reflexivity|]);
    destruct Hc.
Qed.

Lemma registration_call_budget_witness :
  let env := an_env ghl_accepts in
  let p := payload (zoom_body (a_seat (JStr "uuid-1") (JStr " Ada@X.com "))) in
  remote (snd (handleRegistrationEvent env p (JStr "meeting.registration_created")
                 empty_world))
  = [GetContacts (JStr "ada@x.com");
     PostContact (create_payload env (a_registrant (JStr " Ada@X.com ")));
     PostTags "ghl-1" [JStr "Zoom Registration"; JStr "zoom registered"];
     PostWorkflow "ghl-1" "wf-1" "2026-11-02T09:05:00+00:00"]
  /\ exists calls,
       remote (snd (handleRegistrationEvent env p
                      (JStr "meeting.registration_created") empty_world))
       = calls
       /\ calls = filter is_search calls ++ filter is_creation calls
                  ++ filter is_tagging calls ++ filter is_enrolment calls
       /\ length calls <= 4.
Proof.
  cbv zeta. split; [reflexivity|].
  destruct (registration_call_budget (an_env ghl_accepts)
              (payload (zoom_body (a_seat (JStr "uuid-1") (JStr " Ada@X.com "))))
              (JStr "meeting.registration_created") empty_world)
    as (calls & Hr & Hord & _ & _ & _ & _ & Hlen & _).
  exists calls. split; [exact Hr|]. split; [exact Hord | exact Hlen].
Defined.

(* ------------------------------------------------------------------ *)
(** ** The configuration webhook and the cache on concrete runs *)

Lemma configuration_intake_witness :
  let env := an_env ghl_accepts in
  let data := a_config (JStr "c1") (JStr "  ") JUndefined in
  config_email data = JUndefined
  /\ fst (ghl_webhook env data empty_world) = contact_synced
  /\ exists d,
       In d (contacts (snd (ghl_webhook env data empty_world)))
       /\ Contact.ghlContactId d = Some "c1"%string
       /\ contacts (snd (ghl_webhook env data empty_world)) = [d].
Proof.
  cbv zeta.
  pose proof (configuration_intake (an_env ghl_accepts)
                (a_config (JStr "c1") (JStr "  ") JUndefined) empty_world) as H.
  cbv zeta in H. destruct H as (Hblank & _ & _ & _ & _ & H200 & _).
  split; [apply (Hblank "  "%string); reflexivity|].
  split; [reflexivity|].
  destruct (H200 eq_refl) as (d & Hin & Hid & _ & Hnew & _).
  exists d. split; [exact Hin|]. split; [apply Hid; reflexivity | exact Hnew].
Defined.

Lemma cache_ok_invariant_witness :
  let env := an_env ghl_accepts in
  cache_ok (snd (zoom_webhook env reg_a
                   (snd (ghl_webhook env (a_config (JStr "c1") (JStr "a@x.com")
                                            (JStr "vip")) empty_world)))).
Proof.
  cbv zeta. destruct cache_ok_invariant as (H0 & Hg & Hz).
  apply Hz, Hg, H0.
Defined.
